(** * TrainLoop of dnadiffusion/utils/train_util.py

    A shallow embedding of the training controller: its constructor, the
    epoch-driven control loop, the gradient step, logging, sampling,
    checkpointing, adapter export and resume.

    The controller is a Python object whose methods mutate its attributes,
    call collaborators (accelerator, sampler, metric function, LoRA saver,
    torch.save / torch.load) and may raise.  It is modelled by a state and
    exception monad over a [World]: the object, a file system of
    checkpoints and the chronological trace of the calls made to the
    collaborators. *)

From stdpp Require Import gmap strings list fin_maps pretty sorting.
From Stdlib Require Import Ascii QArith.

Open Scope Z_scope.

(** ** Python strings *)

Module PyStr.

(** [str(n)] of a Python integer is its decimal numeral, with a leading
    minus sign for negative values: stdpp's [pretty] on [Z]. *)
Definition str (n : Z) : string := pretty n.

(** The scan of [str.replace(old, new)] for a non-empty [old]: leftmost,
    non-overlapping occurrences are replaced in a single left-to-right pass.
    [skip] counts the characters of a matched occurrence still to be
    dropped. *)
Fixpoint replace_scan (old new : string) (skip : nat) (s : string) : string :=
  match s with
  | EmptyString => EmptyString
  | String c s' =>
      match skip with
      | S k => replace_scan old new k s'
      | O =>
          if String.prefix old s
          then new +:+ replace_scan old new (String.length old - 1) s'
          else String c (replace_scan old new 0 s')
      end
  end.

(** With an empty [old], Python inserts [new] before every character and
    at the end. *)
Fixpoint replace_empty (new : string) (s : string) : string :=
  match s with
  | EmptyString => new
  | String c s' => new +:+ String c (replace_empty new s')
  end.

Definition replace (old new s : string) : string :=
  match old with
  | EmptyString => replace_empty new s
  | String _ _ => replace_scan old new 0 s
  end.

(** No two adjacent path separators. *)
Fixpoint no_double_sep (s : string) : bool :=
  match s with
  | EmptyString => true
  | String c s' =>
      match s' with
      | String d _ =>
          negb (Ascii.eqb c "/"%char && Ascii.eqb d "/"%char) && no_double_sep s'
      | EmptyString => true
      end
  end.

(** No run of three or more path separators; [k] counts the separators
    immediately before [s]. *)
Fixpoint sep_runs_ok (k : nat) (s : string) : bool :=
  match s with
  | EmptyString => true
  | String c s' =>
      if Ascii.eqb c "/"%char
      then (k <? 2)%nat && sep_runs_ok (S k) s'
      else sep_runs_ok 0 s'
  end.

Definition no_triple_sep (s : string) : bool := sep_runs_ok 0 s.

(** The character [c] does not occur in [s]. *)
Fixpoint lacks (c : ascii) (s : string) : bool :=
  match s with
  | EmptyString => true
  | String d s' => negb (Ascii.eqb d c) && lacks c s'
  end.

(** No path separator at all. *)
Fixpoint no_sep (s : string) : bool :=
  match s with
  | EmptyString => true
  | String c s' => negb (Ascii.eqb c "/"%char) && no_sep s'
  end.

(** The specification's reading of the normalisation: doubled separators
    are collapsed, a separator followed by a separator is dropped, so that
    every run of separators becomes a single one. *)
Fixpoint spec_collapse_seps (s : string) : string :=
  match s with
  | EmptyString => EmptyString
  | String c s' =>
      match s' with
      | String d _ =>
          if Ascii.eqb c "/"%char && Ascii.eqb d "/"%char
          then spec_collapse_seps s'
          else String c (spec_collapse_seps s')
      | EmptyString => String c EmptyString
      end
  end.

End PyStr.

(** ** Tensors, modules and state dictionaries *)

(** A tensor is the flat list of its entries; entries are rationals, the
    exact arithmetic that floating point approximates. *)
Abbreviation Tensor := (list Q).

Record nn_Parameter := mkParameter {
  data : Tensor;
  requires_grad : bool
}.

(** A [torch.nn.Module]: its named parameters and its train/eval flag. *)
Record nn_Module := mkModule {
  parameters : gmap string nn_Parameter;
  training : bool
}.

Abbreviation StateDict := (gmap string Tensor).

Definition state_dict (m : nn_Module) : StateDict := data <$> parameters m.

(** [m.eval()] and [m.train()]. *)
Definition eval (m : nn_Module) : nn_Module :=
  {| parameters := parameters m; training := false |}.

Definition train (m : nn_Module) : nn_Module :=
  {| parameters := parameters m; training := true |}.

(** [m.requires_grad_(flag)] sets the flag of every parameter. *)
Definition requires_grad_ (flag : bool) (m : nn_Module) : nn_Module :=
  {| parameters :=
       (λ p, {| data := data p; requires_grad := flag |}) <$> parameters m;
     training := training m |}.

(** [copy.deepcopy]: values are immutable here, a copy is the value. *)
Definition deepcopy (m : nn_Module) : nn_Module := m.

(** Modelled from the spec: a tensor fits a parameter when it has the
    parameter's size (section 7, parameter-shape mismatch); tensors being
    flat lists here, the size is the number of entries. *)
Definition fits (t : Tensor) (p : nn_Parameter) : bool :=
  bool_decide (length t = length (data p)).

(** Modelled from the spec: [torch.nn.Module.load_state_dict] belongs to the
    framework and is not under src/.  Sections 4.8, 7 and 8: every parameter
    of the module whose name is in the checkpoint with a tensor of its size
    takes the checkpoint's value; a parameter absent from the checkpoint, or
    present with a tensor of another size, keeps its value. *)
Definition load_params (own : gmap string nn_Parameter) (sd : StateDict)
  : gmap string nn_Parameter :=
  map_imap (λ k p,
    Some match sd !! k with
         | Some t =>
             if fits t p
             then {| data := t; requires_grad := requires_grad p |}
             else p
         | None => p
         end) own.

(** Modelled from the spec: the names of the module's parameters that the
    checkpoint lacks (section 8, a newly added parameter). *)
Definition missing_keys (own : gmap string nn_Parameter) (sd : StateDict)
  : list string :=
  filter (λ k, sd !! k = None) (elements (dom own)).

(** Modelled from the spec: the names in the checkpoint that the module
    lacks (section 4.8, a removed parameter). *)
Definition unexpected_keys (own : gmap string nn_Parameter) (sd : StateDict)
  : list string :=
  filter (λ k, own !! k = None) (elements (dom sd)).

(** Modelled from the spec: the names the module and the checkpoint share
    whose tensor has another size than the parameter (section 7). *)
Definition mismatched (own : gmap string nn_Parameter) (sd : StateDict)
    (k : string) : bool :=
  match own !! k, sd !! k with
  | Some p, Some t => negb (fits t p)
  | _, _ => false
  end.

Definition size_mismatches (own : gmap string nn_Parameter) (sd : StateDict)
  : list string :=
  filter (λ k, mismatched own sd k = true) (elements (dom own)).

(** Modelled from the spec: [load_state_dict(sd, strict)] of the framework,
    not under src/.  Sections 4.8 and 7: a strict load fails when a name is
    missing or unexpected or a tensor has another size than its parameter;
    a non-strict load tolerates all three.  The result is the module after
    the copy, which happens before the failure is reported, and, when the
    load fails, the missing names, the unexpected names and the names with
    a tensor of another size. *)
Definition load_state_dict (m : nn_Module) (sd : StateDict) (strict : bool)
  : nn_Module * option (list string * list string * list string) :=
  let m' := {| parameters := load_params (parameters m) sd;
               training := training m |} in
  let missing := missing_keys (parameters m) sd in
  let unexpected := unexpected_keys (parameters m) sd in
  let mismatched := size_mismatches (parameters m) sd in
  if strict &&
     negb (bool_decide (missing = [] ∧ unexpected = [] ∧ mismatched = []))
  then (m', Some (missing, unexpected, mismatched))
  else (m', None).

(** ** The EMA helper *)

(** Modelled from the spec: class [EMA] (dnadiffusion/utils/utils.py) is not
    under src/; the object built at line 61 by [EMA(0.995)] holds the decay
    coefficient (section 4.3, a fixed decay coefficient). *)
Record EMA := mkEMA { beta : Q }.

(** Modelled from the spec: the update of one tensor pair by the absent
    class [EMA].  Section 4.3: shadow <- decay * shadow + (1 - decay) *
    current, applied per tensor. *)
Definition update_average (e : EMA) (old new : Tensor) : Tensor :=
  zip_with (λ s c, beta e * s + (1 - beta e) * c)%Q old new.

(** Modelled from the spec: [EMA.step_ema(ema_model, model)], not under
    src/.  Section 4.3: for each parameter pair (shadow, current) the update
    above, on every step, with no warm-up window; pairs are matched by
    parameter name. *)
Definition step_ema (e : EMA) (ema_model current : nn_Module) : nn_Module :=
  {| parameters :=
       map_imap (λ k shadow,
         Some match parameters current !! k with
              | Some cur =>
                  {| data := update_average e (data shadow) (data cur);
                     requires_grad := requires_grad shadow |}
              | None => shadow
              end) (parameters ema_model);
     training := training ema_model |}.

(** ** Exceptions and Python's integer operators *)

Inductive Exn :=
| ZeroDivisionError
| AttributeError (attr : string)
| KeyError (key : string)
| TypeError
| FileNotFoundError (path : string)
| RuntimeError (missing unexpected mismatched : list string)
| ValueError.

(** [a % b] on Python integers: floor modulo, [Z.modulo], and an exception
    for a zero divisor. *)
Definition py_mod (a b : Z) : Exn + Z :=
  if b =? 0 then inl ZeroDivisionError else inr (a mod b).

(** [a / (b * 2^e)] as a fraction of integers, for an exponent [e] of either
    sign. *)
Definition scaled_num (a e : Z) : Z := if e <? 0 then a * 2 ^ (- e) else a.
Definition scaled_den (b e : Z) : Z := if e <? 0 then b else b * 2 ^ e.

(** [a / b] on positive Python integers: the float nearest to the exact
    quotient, ties to the even significand, as the pair [(m, e)] of a
    53-bit significand and an exponent, the float being [m * 2^e].  The
    exponent [l] is the position of the leading bit of the quotient. *)
Definition float_quotient (a b : Z) : Z * Z :=
  let k := Z.log2 a - Z.log2 b in
  let l := if scaled_num a k <? scaled_den b k then k - 1 else k in
  let e := l - 52 in
  let num := scaled_num a e in
  let den := scaled_den b e in
  let m0 := num / den in
  let r := num mod den in
  let m :=
    if (den <? 2 * r) || ((2 * r =? den) && Z.odd m0) then m0 + 1 else m0 in
  (m, e).

(** [int(a / b)] on Python integers, [b] not zero: the true division gives
    the float nearest to the quotient and [int] drops its fractional part.
    For a quotient below [2^50] in magnitude this is the quotient truncated
    toward zero; above, the rounding of the float shows.  The exponent is
    not bounded here, where Python raises [OverflowError] for a quotient
    of [2^1024] or more. *)
Definition py_int_truediv (a b : Z) : Z :=
  if a =? 0 then 0
  else
    let '(m, e) := float_quotient (Z.abs a) (Z.abs b) in
    Z.sgn a * Z.sgn b * Z.shiftl m e.

(** [range(a, b)]. *)
Definition range (a b : Z) : list Z := seqZ a (b - a).

(** [enumerate(l)], the indices as Python integers. *)
Fixpoint enumerate_from {A} (i : Z) (l : list A) : list (Z * A) :=
  match l with
  | [] => []
  | x :: l' => (i, x) :: enumerate_from (i + 1) l'
  end.

Definition enumerate {A} (l : list A) : list (Z * A) := enumerate_from 0 l.

(** Callables handed to the constructor are identified by a name. *)
Abbreviation Callable := string.

(** ** Collaborators

    The framework's types and functions the loop only consumes: batches,
    losses, gradients, optimizer states, the sampler's table; the optimizer's
    constructor and step, the data loader, the forward pass,
    back-propagation, the sampler, and the [model] attribute of the model.
    [optimizer_fits own saved] tells whether the optimizer [own] takes the
    saved state: its [load_state_dict] raises [ValueError] when the saved
    parameter groups do not fit its own. *)
Class Framework := {
  Batch : Type;
  Loss : Type;
  Grads : Type;
  OptState : Type;
  Table : Type;
  Adam : gmap string nn_Parameter → Q → OptState;
  optimizer_fits : OptState → OptState → bool;
  DataLoader : list string → list Z → Z → list Batch;
  model_call : nn_Module → Batch → Loss;
  backward : nn_Module → Batch → Grads;
  optimizer_step :
    OptState → gmap string nn_Parameter → Grads →
    OptState * gmap string nn_Parameter;
  loss_mean_item : Loss → Q;
  create_sample :
    nn_Module → gmap Z string → list Z → option Z → Z → Z → Table;
  model_model : nn_Module → nn_Module
}.

Section Controller.

Context `{Framework}.

(** The accelerator: the main-process predicate, [prepare], [unwrap_model]. *)
Record Accelerator := mkAccelerator {
  is_main_process : bool;
  prepare :
    nn_Module * OptState * list Batch → nn_Module * OptState * list Batch;
  unwrap_model : nn_Module → nn_Module
}.

Definition get_state_dict (acc : Accelerator) (m : nn_Module) : StateDict :=
  state_dict (unwrap_model acc m).

(** Python values that are stored in a checkpoint, printed, logged or passed
    as keyword arguments. *)
Inductive PyVal :=
| VNone
| VInt (z : Z)
| VFloat (q : Q)
| VStr (s : string)
| VList (l : list Z)
| VDict (d : gmap Z string)
| VTable (t : Table)
| VStateDict (sd : StateDict)
| VOptState (o : OptState).

(** The data bundle, a dict with these keys. *)
Record EncodeData := mkEncodeData {
  X_train : list string;
  x_train_cell_type : list Z;
  cell_types : list Z;
  numeric_to_tag : gmap Z string
}.

(** Calls to the collaborators, in the order they are made.  The assignment
    of [self.global_step] (line 90) is recorded as well, so that the
    sequence of values it takes is observable. *)
Inductive Event :=
| EInitTrackers (project notes : string)
| ELog (values : gmap string PyVal) (step : Z)
| EPrint (args : list PyVal)
| ECreateSample (m : nn_Module) (conditional_numeric_to_tag : gmap Z string)
    (cell_types : list Z) (group_number : option Z)
    (number_of_samples cond_weight_to_metric : Z)
| EMetricFunction (f : Callable) (kwargs : list (string * PyVal))
| ETorchSave (obj : gmap string PyVal) (path : string)
| EMkdir (path : string)
| ESaveLora (f : Callable) (m : nn_Module) (path : string)
| EWaitForEveryone
| EGlobalStep (v : Z).

(** ** The object *)

Record TrainLoop := mkTrainLoop {
  encode_data : EncodeData;
  learning_rate : Q;
  model : nn_Module;
  optimizer : OptState;
  accelerator : Accelerator;
  epochs : Z;
  log_step_show : Z;
  sample_epoch : Z;
  save_epoch : Z;
  model_name : string;
  image_size : Z;
  num_sampling_to_compare_cells : Z;
  metric_function : option Callable;
  selective_sampling_number : option Z;
  save_lora_function : option Callable;
  lora_path : string;
  lora_save_epoch : Z;
  ema : option EMA;
  ema_model : option nn_Module;
  train_kl : Z;
  test_kl : Z;
  shuffle_kl : Z;
  seq_similarity : Z;
  start_epoch : Z;
  train_dl : list Batch;
  global_step : option Z
}.

(** Attribute stores.  Only these attributes are assigned after
    construction. *)
Definition set_model (m : nn_Module) (s : TrainLoop) : TrainLoop :=
  mkTrainLoop (encode_data s) (learning_rate s) m (optimizer s)
    (accelerator s) (epochs s) (log_step_show s) (sample_epoch s)
    (save_epoch s) (model_name s) (image_size s)
    (num_sampling_to_compare_cells s) (metric_function s)
    (selective_sampling_number s) (save_lora_function s) (lora_path s)
    (lora_save_epoch s) (ema s) (ema_model s) (train_kl s) (test_kl s)
    (shuffle_kl s) (seq_similarity s) (start_epoch s) (train_dl s)
    (global_step s).

Definition set_optimizer (o : OptState) (s : TrainLoop) : TrainLoop :=
  mkTrainLoop (encode_data s) (learning_rate s) (model s) o
    (accelerator s) (epochs s) (log_step_show s) (sample_epoch s)
    (save_epoch s) (model_name s) (image_size s)
    (num_sampling_to_compare_cells s) (metric_function s)
    (selective_sampling_number s) (save_lora_function s) (lora_path s)
    (lora_save_epoch s) (ema s) (ema_model s) (train_kl s) (test_kl s)
    (shuffle_kl s) (seq_similarity s) (start_epoch s) (train_dl s)
    (global_step s).

Definition set_ema_model (em : nn_Module) (s : TrainLoop) : TrainLoop :=
  mkTrainLoop (encode_data s) (learning_rate s) (model s) (optimizer s)
    (accelerator s) (epochs s) (log_step_show s) (sample_epoch s)
    (save_epoch s) (model_name s) (image_size s)
    (num_sampling_to_compare_cells s) (metric_function s)
    (selective_sampling_number s) (save_lora_function s) (lora_path s)
    (lora_save_epoch s) (ema s) (Some em) (train_kl s) (test_kl s)
    (shuffle_kl s) (seq_similarity s) (start_epoch s) (train_dl s)
    (global_step s).

Definition set_start_epoch (e : Z) (s : TrainLoop) : TrainLoop :=
  mkTrainLoop (encode_data s) (learning_rate s) (model s) (optimizer s)
    (accelerator s) (epochs s) (log_step_show s) (sample_epoch s)
    (save_epoch s) (model_name s) (image_size s)
    (num_sampling_to_compare_cells s) (metric_function s)
    (selective_sampling_number s) (save_lora_function s) (lora_path s)
    (lora_save_epoch s) (ema s) (ema_model s) (train_kl s) (test_kl s)
    (shuffle_kl s) (seq_similarity s) e (train_dl s)
    (global_step s).

Definition set_train_dl (dl : list Batch) (s : TrainLoop) : TrainLoop :=
  mkTrainLoop (encode_data s) (learning_rate s) (model s) (optimizer s)
    (accelerator s) (epochs s) (log_step_show s) (sample_epoch s)
    (save_epoch s) (model_name s) (image_size s)
    (num_sampling_to_compare_cells s) (metric_function s)
    (selective_sampling_number s) (save_lora_function s) (lora_path s)
    (lora_save_epoch s) (ema s) (ema_model s) (train_kl s) (test_kl s)
    (shuffle_kl s) (seq_similarity s) (start_epoch s) dl
    (global_step s).

Definition set_global_step (g : Z) (s : TrainLoop) : TrainLoop :=
  mkTrainLoop (encode_data s) (learning_rate s) (model s) (optimizer s)
    (accelerator s) (epochs s) (log_step_show s) (sample_epoch s)
    (save_epoch s) (model_name s) (image_size s)
    (num_sampling_to_compare_cells s) (metric_function s)
    (selective_sampling_number s) (save_lora_function s) (lora_path s)
    (lora_save_epoch s) (ema s) (ema_model s) (train_kl s) (test_kl s)
    (shuffle_kl s) (seq_similarity s) (start_epoch s) (train_dl s)
    (Some g).

(** ** The constructor *)

(** The keyword arguments of [__init__]. *)
Record Kwargs := mkKwargs {
  kw_epochs : Z;
  kw_log_step_show : Z;
  kw_sample_epoch : Z;
  kw_save_epoch : Z;
  kw_model_name : string;
  kw_image_size : Z;
  kw_num_sampling_to_compare_cells : Z;
  kw_batch_size : Z;
  kw_metric_function : option Callable;
  kw_learning_rate : Q;
  kw_selective_sampling_number : option Z;
  kw_save_lora_function : option Callable;
  kw_lora_path : string;
  kw_lora_save_epoch : Z
}.

(** Their default values (lines 24 to 37). *)
Definition default_kwargs : Kwargs :=
  {| kw_epochs := 10000;
     kw_log_step_show := 50;
     kw_sample_epoch := 500;
     kw_save_epoch := 500;
     kw_model_name :=
       "model_48k_sequences_per_group_K562_hESCT0_HepG2_GM12878_12k";
     kw_image_size := 200;
     kw_num_sampling_to_compare_cells := 1000;
     kw_batch_size := 960;
     kw_metric_function := None;
     kw_learning_rate := (1 # 10000)%Q;
     kw_selective_sampling_number := None;
     kw_save_lora_function := None;
     kw_lora_path := "";
     kw_lora_save_epoch := 50 |}.

(** [TrainLoop.__init__] (lines 19 to 72).  [self.global_step] is not
    assigned here: the attribute does not exist until line 90 runs. *)
Definition init (data : EncodeData) (m : nn_Module) (acc : Accelerator)
    (kw : Kwargs) : TrainLoop :=
  {| encode_data := data;
     learning_rate := kw_learning_rate kw;
     model := m;
     optimizer := Adam (parameters m) (kw_learning_rate kw);
     accelerator := acc;
     epochs := kw_epochs kw;
     log_step_show := kw_log_step_show kw;
     sample_epoch := kw_sample_epoch kw;
     save_epoch := kw_save_epoch kw;
     model_name := kw_model_name kw;
     image_size := kw_image_size kw;
     num_sampling_to_compare_cells := kw_num_sampling_to_compare_cells kw;
     metric_function := kw_metric_function kw;
     selective_sampling_number := kw_selective_sampling_number kw;
     save_lora_function := kw_save_lora_function kw;
     lora_path := kw_lora_path kw;
     lora_save_epoch := kw_lora_save_epoch kw;
     ema := if is_main_process acc then Some (mkEMA (995 # 1000)) else None;
     ema_model :=
       if is_main_process acc
       then Some (requires_grad_ false (eval (deepcopy m)))
       else None;
     train_kl := 1;
     test_kl := 1;
     shuffle_kl := 1;
     seq_similarity := 1;
     start_epoch := 1;
     train_dl :=
       DataLoader (X_train data) (x_train_cell_type data) (kw_batch_size kw);
     global_step := None |}.

(** ** The monad of methods *)

(** The object, the checkpoint files (what [torch.save] wrote, by path) and
    the trace of collaborator calls, oldest first. *)
Record World := mkWorld {
  self : TrainLoop;
  fs : gmap string (gmap string PyVal);
  trace : list Event
}.

(** A method returns normally or raises; either way the world it leaves
    behind is kept, as the mutations made before an exception stay. *)
Inductive Outcome (A : Type) :=
| Ok (a : A) (w : World)
| Raise (e : Exn) (w : World).
Arguments Ok {A} a w.
Arguments Raise {A} e w.

Definition M (A : Type) : Type := World → Outcome A.

#[global] Instance M_ret : MRet M := λ A a w, Ok a w.
#[global] Instance M_bind : MBind M := λ A B f m w,
  match m w with
  | Ok a w' => f a w'
  | Raise e w' => Raise e w'
  end.

Definition raise {A} (e : Exn) : M A := λ w, Raise e w.

Definition get_self : M TrainLoop := λ w, Ok (self w) w.

Definition modify_self (f : TrainLoop → TrainLoop) : M unit :=
  λ w, Ok tt (mkWorld (f (self w)) (fs w) (trace w)).

Definition emit (e : Event) : M unit :=
  λ w, Ok tt (mkWorld (self w) (fs w) (trace w ++ [e])).

Definition lift_exn {A} (r : Exn + A) : M A :=
  match r with
  | inl e => raise e
  | inr a => mret a
  end.

(** An attribute that exists only on the main process. *)
Definition attr {A} (name : string) (o : option A) : M A :=
  match o with
  | Some a => mret a
  | None => raise (AttributeError name)
  end.

(** [torch.save(obj, path)] writes (or overwrites) the file. *)
Definition torch_save (obj : gmap string PyVal) (path : string) : M unit :=
  λ w, Ok tt (mkWorld (self w) (<[path := obj]> (fs w))
                (trace w ++ [ETorchSave obj path])).

(** [torch.load(path)]. *)
Definition torch_load (path : string) : M (gmap string PyVal) :=
  λ w, match fs w !! path with
       | Some obj => Ok obj w
       | None => Raise (FileNotFoundError path) w
       end.

(** [d[key]]. *)
Definition getitem (d : gmap string PyVal) (key : string) : M PyVal :=
  match d !! key with
  | Some v => mret v
  | None => raise (KeyError key)
  end.

(** The Python [for] statement over a list. *)
Fixpoint for_each {A} (xs : list A) (body : A → M unit) : M unit :=
  match xs with
  | [] => mret tt
  | x :: xs' => body x;; for_each xs' body
  end.

(** ** Methods *)

(** [TrainLoop.log_step] (lines 129 to 141). *)
Definition log_step (loss : Loss) (epoch : Z) : M unit :=
  s ← get_self;
  if is_main_process (accelerator s) then
    g ← attr "global_step" (global_step s);
    emit (ELog
      (<["train" := VInt (train_kl s)]>
       (<["test" := VInt (test_kl s)]>
       (<["shuffle" := VInt (shuffle_kl s)]>
       (<["loss" := VFloat (loss_mean_item loss)]>
       (<["epoch" := VInt epoch]>
       (<["seq_similarity" := VInt (seq_similarity s)]> ∅))))))
      g)
  else mret tt.

(** [TrainLoop.train_step] (lines 111 to 127).  [zero_grad], [backward] and
    the optimizer's [step] act on the model's parameters in place; the
    autocast context does not change the control flow. *)
Definition train_step (batch : Batch) : M Loss :=
  s ← get_self;
  let loss := model_call (model s) batch in
  let grads := backward (model s) batch in
  emit EWaitForEveryone;;
  let '(o', ps') := optimizer_step (optimizer s) (parameters (model s)) grads in
  modify_self (set_optimizer o');;
  modify_self (set_model {| parameters := ps'; training := training (model s) |});;
  emit EWaitForEveryone;;
  s ← get_self;
  (if is_main_process (accelerator s) then
     e ← attr "ema" (ema s);
     em ← attr "ema_model" (ema_model s);
     modify_self
       (set_ema_model (step_ema e em (unwrap_model (accelerator s) (model s))))
   else mret tt);;
  emit EWaitForEveryone;;
  mret loss.

(** [TrainLoop.sample] (lines 144 to 163).  The number of samples is
    [int(n / 10)], a division in floating point.  The sampler and the metric
    function are taken to return. *)
Definition sample : M unit :=
  modify_self (λ s, set_model (eval (model s)) s);;
  s ← get_self;
  emit (EPrint [VStr "saving"]);;
  emit (EPrint [VStr "encoded data"; VList (cell_types (encode_data s))]);;
  emit (EPrint [VDict (numeric_to_tag (encode_data s))]);;
  emit (EPrint [VStr "sampling only from cell number:";
                from_option VInt VNone (selective_sampling_number s)]);;
  let number_of_samples :=
    py_int_truediv (num_sampling_to_compare_cells s) 10 in
  let m := unwrap_model (accelerator s) (model s) in
  let synt_df :=
    create_sample m (numeric_to_tag (encode_data s))
      (cell_types (encode_data s)) (selective_sampling_number s)
      number_of_samples 1 in
  emit (ECreateSample m (numeric_to_tag (encode_data s))
          (cell_types (encode_data s)) (selective_sampling_number s)
          number_of_samples 1);;
  emit (EPrint [VTable synt_df]);;
  match metric_function s with
  | Some f => emit (EMetricFunction f [("input_fasta", VStr "synthetic_motifs.fasta")])
  | None => mret tt
  end.

(** The file name of a checkpoint (line 184). *)
Definition checkpoint_path (epoch : Z) (name : string) : string :=
  "epoch_" +:+ PyStr.str epoch +:+ "_" +:+ name +:+ ".pt".

(** The dict built at lines 176 to 181. *)
Definition checkpoint_dict (s : TrainLoop) (em : nn_Module) (epoch : Z)
  : gmap string PyVal :=
  <["model" := VStateDict (get_state_dict (accelerator s) (model s))]>
  (<["optimizer" := VOptState (optimizer s)]>
  (<["epoch" := VInt epoch]>
  (<["ema_model" := VStateDict (get_state_dict (accelerator s) em)]> ∅))).

(** [TrainLoop.save_model] (lines 175 to 185). *)
Definition save_model (epoch : Z) : M unit :=
  s ← get_self;
  em ← attr "ema_model" (ema_model s);
  torch_save (checkpoint_dict s em epoch)
    (checkpoint_path epoch (model_name s)).

(** The path built at lines 189 to 193 and the one handed to the saver
    at line 194. *)
Definition lora_path_use (lora_path : string) : string :=
  if bool_decide (lora_path = "") then "." else lora_path.

Definition final_path_name_and_file (lora_path : string) (epoch : Z) : string :=
  lora_path_use lora_path +:+ "/" +:+ PyStr.str epoch +:+ "_filepath.pth".

Definition lora_export_path (lora_path : string) (epoch : Z) : string :=
  PyStr.replace "//" "/" (final_path_name_and_file lora_path epoch).

(** [TrainLoop.save_lora_model] (lines 188 to 195). *)
Definition save_lora_model (epoch : Z) : M unit :=
  s ← get_self;
  emit (EMkdir (lora_path_use (lora_path s)));;
  match save_lora_function s with
  | Some f =>
      emit (ESaveLora f (model_model (model s))
              (lora_export_path (lora_path s) epoch))
  | None => raise TypeError
  end;;
  emit (EPrint [VStr ("Lora saved in:  " +:+
                      final_path_name_and_file (lora_path s) epoch)]).

(** One iteration of the inner loop (lines 90 to 96). *)
Definition batch_body (epoch : Z) (sb : Z * Batch) : M unit :=
  s ← get_self;
  let g := epoch * Z.of_nat (length (train_dl s)) + sb.1 in
  modify_self (set_global_step g);;
  emit (EGlobalStep g);;
  loss ← train_step sb.2;
  s ← get_self;
  g ← attr "global_step" (global_step s);
  r ← lift_exn (py_mod g (log_step_show s));
  if (r =? 0) && is_main_process (accelerator s)
  then log_step loss epoch
  else mret tt.

(** The three periodic actions at the end of an epoch (lines 98 to 109).
    In each condition the modulo is evaluated before the main-process test,
    and the LoRA condition is not evaluated past an absent saver. *)
Definition sampling_step (epoch : Z) : M unit :=
  s ← get_self;
  r ← lift_exn (py_mod epoch (sample_epoch s));
  if (r =? 0) && is_main_process (accelerator s) then sample else mret tt.

Definition saving_step (epoch : Z) : M unit :=
  s ← get_self;
  r ← lift_exn (py_mod epoch (save_epoch s));
  if (r =? 0) && is_main_process (accelerator s)
  then save_model epoch else mret tt.

Definition exporting_step (epoch : Z) : M unit :=
  s ← get_self;
  match save_lora_function s with
  | Some _ =>
      r ← lift_exn (py_mod epoch (lora_save_epoch s));
      if (r =? 0) && is_main_process (accelerator s)
      then save_lora_model epoch else mret tt
  | None => mret tt
  end.

(** One iteration of the outer loop (lines 86 to 109). *)
Definition epoch_body (epoch : Z) : M unit :=
  modify_self (λ s, set_model (train (model s)) s);;
  s ← get_self;
  for_each (enumerate (train_dl s)) (batch_body epoch);;
  sampling_step epoch;;
  saving_step epoch;;
  exporting_step epoch.

(** [TrainLoop.train_loop] (lines 74 to 109). *)
Definition train_loop : M unit :=
  s ← get_self;
  let '(m, o, dl) :=
    prepare (accelerator s) (model s, optimizer s, train_dl s) in
  modify_self (set_model m);;
  modify_self (set_optimizer o);;
  modify_self (set_train_dl dl);;
  (if is_main_process (accelerator s)
   then emit (EInitTrackers "dnadiffusion" "testing wandb accelerate script")
   else mret tt);;
  s ← get_self;
  for_each (range (start_epoch s) (epochs s + 1)) epoch_body.

(** [TrainLoop.load] (lines 203 to 215).  A stored value of the wrong kind
    raises [TypeError]; the optimizer's [load_state_dict] (line 205) raises
    [ValueError], before it changes anything, when the saved state does not
    fit the optimizer. *)
Definition load (path : string) (start_train : bool) : M unit :=
  checkpoint_dict ← torch_load path;
  v ← getitem checkpoint_dict "model";
  sd ← match v with VStateDict sd => mret sd | _ => raise TypeError end;
  s ← get_self;
  match load_state_dict (model s) sd false with
  | (m', None) => modify_self (set_model m')
  | (m', Some (mk, uk, sk)) =>
      modify_self (set_model m');; raise (RuntimeError mk uk sk)
  end;;
  v ← getitem checkpoint_dict "optimizer";
  o ← match v with VOptState o => mret o | _ => raise TypeError end;
  s ← get_self;
  (if optimizer_fits (optimizer s) o
   then modify_self (set_optimizer o)
   else raise ValueError);;
  v ← getitem checkpoint_dict "epoch";
  e ← match v with VInt e => mret e | _ => raise TypeError end;
  modify_self (set_start_epoch e);;
  s ← get_self;
  (if is_main_process (accelerator s) then
     em ← attr "ema_model" (ema_model s);
     v ← getitem checkpoint_dict "ema_model";
     sd ← match v with VStateDict sd => mret sd | _ => raise TypeError end;
     match load_state_dict em sd true with
     | (em', None) => modify_self (set_ema_model em')
     | (em', Some (mk, uk, sk)) =>
         modify_self (set_ema_model em');; raise (RuntimeError mk uk sk)
     end
   else mret tt);;
  if start_train then train_loop else mret tt.

End Controller.

Arguments Ok {_ _} a w.
Arguments Raise {_ _} e w.

(** ** Observations on outcomes and traces *)

Section Observations.

Context `{Framework}.

(** The world a method leaves behind, however it ends. *)
Definition world_of {A} (o : Outcome A) : World :=
  match o with
  | Ok _ w => w
  | Raise _ w => w
  end.

(** The four kinds of call reserved to the main process. *)
Definition is_log_call (e : Event) : bool :=
  match e with ELog _ _ => true | _ => false end.

Definition is_sampler_call (e : Event) : bool :=
  match e with ECreateSample _ _ _ _ _ _ => true | _ => false end.

Definition is_checkpoint_write (e : Event) : bool :=
  match e with ETorchSave _ _ => true | _ => false end.

Definition is_adapter_export (e : Event) : bool :=
  match e with ESaveLora _ _ _ => true | _ => false end.

Definition main_only_call (e : Event) : bool :=
  is_log_call e || is_sampler_call e || is_checkpoint_write e
  || is_adapter_export e.

Definition is_metric_call (e : Event) : bool :=
  match e with EMetricFunction _ _ => true | _ => false end.

(** The values assigned to [self.global_step], oldest first. *)
Definition global_steps (tr : list Event) : list Z :=
  omap (λ e, match e with EGlobalStep v => Some v | _ => None end) tr.

(** The attributes that exist only on the main process are there. *)
Definition main_attrs (s : TrainLoop) : Prop :=
  is_main_process (accelerator s) = true →
  is_Some (ema s) ∧ is_Some (ema_model s).

(** The attributes no method assigns once the loop is prepared. *)
Definition frozen (s : TrainLoop) :=
  (accelerator s, epochs s, log_step_show s, sample_epoch s, save_epoch s,
   lora_save_epoch s, save_lora_function s, metric_function s, lora_path s,
   model_name s, start_epoch s, train_dl s, ema s).

(** What the trace of one epoch must show: which of the three periodic
    actions fired in it. *)
Definition epoch_actions (s : TrainLoop) (e : Z) (seg : list Event) : Prop :=
  (existsb is_sampler_call seg = true ↔
     e `mod` sample_epoch s = 0 ∧ is_main_process (accelerator s) = true) ∧
  (existsb is_checkpoint_write seg = true ↔
     e `mod` save_epoch s = 0 ∧ is_main_process (accelerator s) = true) ∧
  (existsb is_adapter_export seg = true ↔
     is_Some (save_lora_function s) ∧ e `mod` lora_save_epoch s = 0 ∧
     is_main_process (accelerator s) = true).

(** The values the global step takes in epoch [e] with [n] batches, and over
    a list of epochs. *)
Definition epoch_steps (n : nat) (e : Z) : list Z :=
  (λ i, e * Z.of_nat n + i) <$> seqZ 0 (Z.of_nat n).

Definition run_steps (n : nat) (es : list Z) : list Z :=
  es ≫= epoch_steps n.

(** A segment of trace with none of the three periodic actions. *)
Definition plain (seg : list Event) : Prop :=
  existsb is_sampler_call seg = false ∧
  existsb is_checkpoint_write seg = false ∧
  existsb is_adapter_export seg = false.

(** The intervals the modulo conditions divide by are non-zero. *)
Definition intervals_ok (s : TrainLoop) : Prop :=
  log_step_show s ≠ 0 ∧ sample_epoch s ≠ 0 ∧ save_epoch s ≠ 0 ∧
  (is_Some (save_lora_function s) → lora_save_epoch s ≠ 0).

(** The batches of an epoch are those of the data loader the accelerator
    hands back from [prepare]. *)
Definition batches_per_epoch (s : TrainLoop) : nat :=
  length (prepare (accelerator s) (model s, optimizer s, train_dl s)).2.

Definition init_events (s : TrainLoop) : list Event :=
  if is_main_process (accelerator s)
  then [EInitTrackers "dnadiffusion" "testing wandb accelerate script"]
  else [].

(** [w'] extends [w] without any call reserved to the main process, on a
    process that is not the main one. *)
Definition quiet (w w' : World) : Prop :=
  is_main_process (accelerator (self w')) = false ∧
  fs w' = fs w ∧
  ∃ seg, trace w' = trace w ++ seg ∧
         Forall (λ ev, main_only_call ev = false) seg.

Definition worker_quiet {A} (m : M A) : Prop :=
  ∀ w, is_main_process (accelerator (self w)) = false →
       quiet w (world_of (m w)).

(** The object after the first three restorations of [load]. *)
Definition restored (s : TrainLoop) (sd : StateDict) (o : OptState) (E : Z)
  : TrainLoop :=
  set_start_epoch E
    (set_optimizer o
       (set_model {| parameters := load_params (parameters (model s)) sd;
                     training := training (model s) |} s)).

(** The claim C9 as the specification words it: every bookkeeping field,
    the global step counter included, holds the sentinel 1 after
    construction. *)
Definition spec_bookkeeping_all_one (s : TrainLoop) : Prop :=
  start_epoch s = 1 ∧ global_step s = Some 1 ∧
  train_kl s = 1 ∧ test_kl s = 1 ∧ shuffle_kl s = 1 ∧ seq_similarity s = 1.

(** The specification's adapter export path: the pattern with its doubled
    separators collapsed. *)
Definition spec_export_path (lora_path : string) (e : Z) : string :=
  PyStr.spec_collapse_seps
    (lora_path_use lora_path +:+ "/" +:+ PyStr.str e +:+ "_filepath.pth").

(** The condition of a periodic action at epoch [e]: a multiple of the
    interval, on the main process; for the export, a saver besides. *)
Definition fires (s : TrainLoop) (e interval : Z) : bool :=
  (e `mod` interval =? 0) && is_main_process (accelerator s).

Definition exports (s : TrainLoop) (e : Z) : bool :=
  match save_lora_function s with
  | Some _ => fires s e (lora_save_epoch s)
  | None => false
  end.

(** The trace of epoch [e] with [n] batches: the training steps, which
    assign the [n] global steps of the epoch and fire no periodic action,
    then the sampling, the saving and the export, in this order, each of
    them empty unless its own condition holds.  The sampling makes one
    sampler call, the saving is one write to the checkpoint file of [e],
    the export makes one call of the LoRA saver with the export path of
    [e]. *)
Definition epoch_segment (s : TrainLoop) (n : nat) (e : Z)
    (seg : list Event) : Prop :=
  ∃ steps sampling saving exporting,
    seg = steps ++ sampling ++ saving ++ exporting ∧
    plain steps ∧ global_steps steps = epoch_steps n e ∧
    global_steps sampling = [] ∧ global_steps exporting = [] ∧
    (if fires s e (sample_epoch s)
     then (∃ ev, filter (λ ev, is_sampler_call ev = true) sampling = [ev]) ∧
          existsb is_checkpoint_write sampling = false ∧
          existsb is_adapter_export sampling = false
     else sampling = []) ∧
    (if fires s e (save_epoch s)
     then ∃ d, saving = [ETorchSave d (checkpoint_path e (model_name s))] ∧
               d !! "epoch" = Some (VInt e)
     else saving = []) ∧
    (if exports s e
     then (∃ f m, save_lora_function s = Some f ∧
             filter (λ ev, is_adapter_export ev = true) exporting
             = [ESaveLora f m (lora_export_path (lora_path s) e)]) ∧
          existsb is_sampler_call exporting = false ∧
          existsb is_checkpoint_write exporting = false
     else exporting = []).

(** ** Further observations *)

(** The record handed to [accelerator.log] (lines 132 to 139). *)
Definition log_values (s : TrainLoop) (loss : Loss) (epoch : Z)
  : gmap string PyVal :=
  <["train" := VInt (train_kl s)]>
  (<["test" := VInt (test_kl s)]>
  (<["shuffle" := VInt (shuffle_kl s)]>
  (<["loss" := VFloat (loss_mean_item loss)]>
  (<["epoch" := VInt epoch]>
  (<["seq_similarity" := VInt (seq_similarity s)]> ∅))))).

(** The steps at which a record was logged, oldest first. *)
Definition log_steps (tr : list Event) : list Z :=
  omap (λ ev, match ev with ELog _ g => Some g | _ => None end) tr.

(** The steps of epoch [e] at which the main process logs. *)
Definition epoch_log_steps (s : TrainLoop) (n : nat) (e : Z) : list Z :=
  if is_main_process (accelerator s)
  then filter (λ g, g `mod` log_step_show s = 0) (epoch_steps n e)
  else [].

(** The attributes given to the constructor that configure a run. *)
Definition config (s : TrainLoop) :=
  (encode_data s, learning_rate s, accelerator s, epochs s, log_step_show s,
   sample_epoch s, save_epoch s, model_name s, image_size s,
   num_sampling_to_compare_cells s, metric_function s,
   selective_sampling_number s, save_lora_function s, lora_path s,
   lora_save_epoch s).

(** The four rolling metrics. *)
Definition metrics (s : TrainLoop) : Z * Z * Z * Z :=
  (train_kl s, test_kl s, shuffle_kl s, seq_similarity s).

(** The EMA model is frozen: evaluation mode, no gradient tracking, and the
    parameter names [D]. *)
Definition ema_frozen (D : gset string) (s : TrainLoop) : Prop :=
  ∃ em, ema_model s = Some em ∧ training em = false ∧
        dom (parameters em) = D ∧
        map_Forall (λ _ p, requires_grad p = false) (parameters em).

(** Run from the world [w], a method keeps the property [I] of the object,
    however it ends, and adds to the trace only events that satisfy [P]. *)
Definition keeps_at {A} (I : TrainLoop → Prop) (P : Event → Prop) (m : M A)
    (w : World) : Prop :=
  I (self w) →
  I (self (world_of (m w))) ∧
  ∃ seg, trace (world_of (m w)) = trace w ++ seg ∧ Forall P seg.

Definition keeps {A} (I : TrainLoop → Prop) (P : Event → Prop) (m : M A)
  : Prop :=
  ∀ w, keeps_at I P m w.

(** [I] survives the attribute stores a training run makes. *)
Definition stable (I : TrainLoop → Prop) : Prop :=
  (∀ m s, I s → I (set_model m s)) ∧
  (∀ o s, I s → I (set_optimizer o s)) ∧
  (∀ dl s, I s → I (set_train_dl dl s)) ∧
  (∀ g s, I s → I (set_global_step g s)) ∧
  (∀ s x em cur, I s → ema s = Some x → ema_model s = Some em →
                 I (set_ema_model (step_ema x em cur) s)).

(** [I] survives the stores [load] makes besides: the starting epoch and
    the EMA model after its state is loaded. *)
Definition stable_load (I : TrainLoop → Prop) : Prop :=
  (∀ e s, I s → I (set_start_epoch e s)) ∧
  (∀ s em sd, I s → ema_model s = Some em →
              I (set_ema_model (load_state_dict em sd true).1 s)).

(** A log record has exactly the six keys of lines 133 to 138 and carries
    the metrics [c]. *)
Definition log_record_ok (c : Z * Z * Z * Z) (ev : Event) : Prop :=
  match ev with
  | ELog values _ =>
      dom values =
        {[ "train"; "test"; "shuffle"; "loss"; "epoch"; "seq_similarity" ]} ∧
      values !! "train" = Some (VInt c.1.1.1) ∧
      values !! "test" = Some (VInt c.1.1.2) ∧
      values !! "shuffle" = Some (VInt c.1.2) ∧
      values !! "seq_similarity" = Some (VInt c.2)
  | _ => True
  end.

(** The object once [train_loop] has called [prepare]. *)
Definition prepared (s : TrainLoop) : TrainLoop :=
  let '(m, o, dl) :=
    prepare (accelerator s) (model s, optimizer s, train_dl s) in
  set_train_dl dl (set_optimizer o (set_model m s)).

(** The checkpoint of epoch [e] is on disk: the file named after [e] and
    [name] holds a dict whose [epoch] entry is [e]. *)
Definition checkpoint_on_disk (files : gmap string (gmap string PyVal))
    (name : string) (e : Z) : Prop :=
  ∃ d, files !! checkpoint_path e name = Some d ∧
       d !! "epoch" = Some (VInt e).

(** A collaborator call that follows the configuration of [s0]: the sampler
    with the configured arguments, the metric function and the LoRA saver
    that were given, a checkpoint under the name of an epoch. *)
Definition call_ok (s0 : TrainLoop) (ev : Event) : Prop :=
  match ev with
  | ECreateSample _ tags cts grp n wgt =>
      tags = numeric_to_tag (encode_data s0) ∧
      cts = cell_types (encode_data s0) ∧
      grp = selective_sampling_number s0 ∧
      n = py_int_truediv (num_sampling_to_compare_cells s0) 10 ∧
      wgt = 1
  | EMetricFunction f kwargs =>
      metric_function s0 = Some f ∧
      kwargs = [("input_fasta", VStr "synthetic_motifs.fasta")]
  | ETorchSave d path =>
      ∃ e, path = checkpoint_path e (model_name s0) ∧
           d !! "epoch" = Some (VInt e) ∧
           dom d = {[ "model"; "optimizer"; "epoch"; "ema_model" ]}
  | ESaveLora f _ path =>
      save_lora_function s0 = Some f ∧
      ∃ e, path = lora_export_path (lora_path s0) e
  | _ => True
  end.

End Observations.

(** ** A one-parameter toy instance

    A model with the single weight [w], batches that are target values,
    plain gradient descent; used to run the definitions on concrete
    inputs.  An optimizer state is the number of parameters of its group
    and the number of steps taken; a saved state fits an optimizer with the
    same number of parameters. *)
Module Toy.

#[global] Instance framework : Framework := {|
  Batch := Q;
  Loss := Q;
  Grads := gmap string Tensor;
  OptState := nat * nat;
  Table := list string;
  Adam := λ ps _, (size ps, 0%nat);
  optimizer_fits := λ own saved, (own.1 =? saved.1)%nat;
  DataLoader := λ xs _ _, (λ x, inject_Z (Z.of_nat (String.length x))) <$> xs;
  model_call := λ m b,
    match parameters m !! "w" with
    | Some {| data := x :: _ |} => (x - b)%Q
    | _ => 0%Q
    end;
  backward := λ m b, (λ p, (λ x, (x - b)%Q) <$> data p) <$> parameters m;
  optimizer_step := λ o ps g,
    ((o.1, S o.2),
     map_imap (λ k p,
       Some match g !! k with
            | Some d =>
                {| data := zip_with (λ x dx, (x - (1 # 10) * dx)%Q) (data p) d;
                   requires_grad := requires_grad p |}
            | None => p
            end) ps);
  loss_mean_item := λ l, l;
  create_sample := λ _ _ _ _ n _, replicate (Z.to_nat n) "ACGT";
  model_model := λ m, m
|}.

Definition net (x : Q) : nn_Module :=
  {| parameters := {[ "w" := {| data := [x]; requires_grad := true |} ]};
     training := true |}.

Definition main : Accelerator :=
  {| is_main_process := true; prepare := λ x, x; unwrap_model := λ m, m |}.

Definition worker : Accelerator :=
  {| is_main_process := false; prepare := λ x, x; unwrap_model := λ m, m |}.

Definition bundle : EncodeData :=
  {| X_train := ["ACGT"; "AC"];
     x_train_cell_type := [1; 2];
     cell_types := [1; 2];
     numeric_to_tag := {[ 1 := "K562"; 2 := "HepG2" ]} |}.

(** Thirty epochs, sampling every 2nd, saving every 3rd, exporting every
    5th. *)
Definition kwargs : Kwargs :=
  {| kw_epochs := 30;
     kw_log_step_show := 4;
     kw_sample_epoch := 2;
     kw_save_epoch := 3;
     kw_model_name := "toy";
     kw_image_size := 200;
     kw_num_sampling_to_compare_cells := 25;
     kw_batch_size := 1;
     kw_metric_function := Some "metric";
     kw_learning_rate := (1 # 10)%Q;
     kw_selective_sampling_number := None;
     kw_save_lora_function := Some "save_lora";
     kw_lora_path := "out/";
     kw_lora_save_epoch := 5 |}.

Definition world (acc : Accelerator) (kw : Kwargs) : World :=
  {| self := init bundle (net 1) acc kw; fs := ∅; trace := [] |}.

(** A model that gained the bias [b] after the checkpoint was written. *)
Definition net_with_bias : nn_Module :=
  {| parameters :=
       {[ "w" := {| data := [1%Q]; requires_grad := true |};
          "b" := {| data := [0%Q]; requires_grad := true |} ]};
     training := true |}.

(** A checkpoint of epoch 5 with the weight [w] only. *)
Definition checkpoint : gmap string PyVal :=
  {[ "model" := VStateDict {[ "w" := [2%Q] ]};
     "optimizer" := VOptState (1%nat, 3%nat);
     "epoch" := VInt 5;
     "ema_model" := VStateDict {[ "w" := [2%Q] ]} ]}.

(** The checkpoint on disk, for the model it was written from and for the
    model with the added bias. *)
Definition world_saved (acc : Accelerator) : World :=
  {| self := init bundle (net 1) acc kwargs;
     fs := {[ "ck.pt" := checkpoint ]};
     trace := [] |}.

Definition world_grown (acc : Accelerator) : World :=
  {| self := init bundle net_with_bias acc kwargs;
     fs := {[ "ck.pt" := checkpoint ]};
     trace := [] |}.

(** A LoRA directory given with two trailing separators. *)
Definition kwargs_two_seps : Kwargs :=
  {| kw_epochs := 30;
     kw_log_step_show := 4;
     kw_sample_epoch := 2;
     kw_save_epoch := 3;
     kw_model_name := "toy";
     kw_image_size := 200;
     kw_num_sampling_to_compare_cells := 25;
     kw_batch_size := 1;
     kw_metric_function := Some "metric";
     kw_learning_rate := (1 # 10)%Q;
     kw_selective_sampling_number := None;
     kw_save_lora_function := Some "save_lora";
     kw_lora_path := "out//";
     kw_lora_save_epoch := 5 |}.

(** The run of [kwargs] with other values for the number of epochs and the
    logging and sampling intervals. *)
Definition kwargs_of (n_epochs log_every sample_every : Z) : Kwargs :=
  {| kw_epochs := n_epochs;
     kw_log_step_show := log_every;
     kw_sample_epoch := sample_every;
     kw_save_epoch := 3;
     kw_model_name := "toy";
     kw_image_size := 200;
     kw_num_sampling_to_compare_cells := 25;
     kw_batch_size := 1;
     kw_metric_function := Some "metric";
     kw_learning_rate := (1 # 10)%Q;
     kw_selective_sampling_number := None;
     kw_save_lora_function := Some "save_lora";
     kw_lora_path := "out/";
     kw_lora_save_epoch := 5 |}.



(** A checkpoint of epoch 5 whose EMA weight has two entries, for a weight
    of one. *)
Definition checkpoint_resized : gmap string PyVal :=
  {[ "model" := VStateDict {[ "w" := [2%Q] ]};
     "optimizer" := VOptState (1%nat, 3%nat);
     "epoch" := VInt 5;
     "ema_model" := VStateDict {[ "w" := [2%Q; 3%Q] ]} ]}.

Definition world_resized (acc : Accelerator) : World :=
  {| self := init bundle (net 1) acc kwargs;
     fs := {[ "ck.pt" := checkpoint_resized ]};
     trace := [] |}.

(** A file that holds a model state and nothing else. *)
Definition checkpoint_model_only : gmap string PyVal :=
  {[ "model" := VStateDict {[ "w" := [2%Q] ]} ]}.

Definition world_truncated (acc : Accelerator) : World :=
  {| self := init bundle (net 1) acc kwargs;
     fs := {[ "ck.pt" := checkpoint_model_only ]};
     trace := [] |}.

End Toy.

(** * Properties *)

Section Properties.

Context `{Framework}.

Implicit Types (w : World) (s : TrainLoop) (e epoch : Z) (seg : list Event).

(** ** Running the monad *)

Ltac unfold_monad :=
  unfold mbind, M_bind, mret, M_ret, get_self, modify_self, emit, raise,
    attr, lift_exn, torch_save, torch_load, getitem in *.

Ltac run := unfold_monad; cbv beta iota zeta.

Lemma bind_ok {A B} (m : M A) (f : A → M B) w a w1 :
  m w = Ok a w1 → (m ≫= f) w = f a w1.
Proof. intros Hm. unfold mbind, M_bind. by rewrite Hm. Qed.

Lemma bind_raise {A B} (m : M A) (f : A → M B) w x w1 :
  m w = Raise x w1 → (m ≫= f) w = Raise x w1.
Proof. intros Hm. unfold mbind, M_bind. by rewrite Hm. Qed.

Lemma for_each_cons {A} (x : A) xs (body : A → M unit) w :
  for_each (x :: xs) body w =
  match body x w with
  | Ok _ w1 => for_each xs body w1
  | Raise x w1 => Raise x w1
  end.
Proof. reflexivity. Qed.

(** A loop whose body always returns and re-establishes an invariant
    indexed by the elements already processed. *)
Lemma for_each_ok {A} (xs : list A) (body : A → M unit)
    (I : list A → World → Prop) w :
  I [] w →
  (∀ pre x w1, I pre w1 → ∃ w2, body x w1 = Ok tt w2 ∧ I (pre ++ [x]) w2) →
  ∃ w', for_each xs body w = Ok tt w' ∧ I xs w'.
Proof.
  intros H0 Hstep.
  cut (∀ pre w1, I pre w1 →
         ∃ w', for_each xs body w1 = Ok tt w' ∧ I (pre ++ xs) w').
  { intros Hgen. apply (Hgen [] w H0). }
  induction xs as [|x xs IH]; intros pre w1 HI.
  - exists w1. by rewrite app_nil_r.
  - destruct (Hstep pre x w1 HI) as (w2 & Hb & HI2).
    destruct (IH (pre ++ [x]) w2 HI2) as (w' & Hf & HI').
    exists w'. rewrite for_each_cons, Hb. split; [done|].
    by rewrite <- app_assoc in HI'.
Qed.

(** ** Traces *)

Lemma global_steps_app (t1 t2 : list Event) :
  global_steps (t1 ++ t2) = global_steps t1 ++ global_steps t2.
Proof. unfold global_steps. apply omap_app. Qed.

Lemma plain_app seg1 seg2 : plain seg1 → plain seg2 → plain (seg1 ++ seg2).
Proof.
  unfold plain. intros (?&?&?) (?&?&?). rewrite !existsb_app.
  repeat split; by apply orb_false_iff.
Qed.

(** ** The gradient step and the log record *)

Lemma train_step_ok batch w :
  main_attrs (self w) →
  ∃ loss w',
    train_step batch w = Ok loss w' ∧
    frozen (self w') = frozen (self w) ∧
    main_attrs (self w') ∧
    global_step (self w') = global_step (self w) ∧
    fs w' = fs w ∧
    trace w' = trace w ++ [EWaitForEveryone; EWaitForEveryone; EWaitForEveryone].
Proof.
  intros Hattrs. unfold train_step. run.
  destruct (optimizer_step _ _ _) as [o' ps'] eqn:Hopt. cbn [self trace fs].
  destruct w as [s f t]. cbn in *.
  destruct (is_main_process (accelerator s)) eqn:Hmain; cbn.
  - destruct (Hattrs Hmain) as [[x Hx] [em Hem]].
    unfold main_attrs in *. cbn. rewrite Hx, Hem. cbn.
    eexists _, _. split; [reflexivity|]. cbn.
    rewrite <- !app_assoc. cbn. rewrite Hmain, Hx. eauto 10.
  - eexists _, _. split; [reflexivity|]. cbn.
    rewrite <- !app_assoc. cbn. unfold main_attrs. cbn. rewrite Hmain.
    repeat split; done.
Qed.

Lemma log_step_ok loss epoch w g :
  global_step (self w) = Some g →
  ∃ seg,
    log_step loss epoch w = Ok tt (mkWorld (self w) (fs w) (trace w ++ seg)) ∧
    plain seg ∧ global_steps seg = [].
Proof.
  intros Hg. unfold log_step. run. rewrite Hg.
  destruct (is_main_process _).
  - eexists [_]. split; [reflexivity|]. by repeat split.
  - exists []. rewrite app_nil_r. destruct w. by repeat split.
Qed.

(** One iteration of the inner loop assigns [epoch * len(train_dl) + step]
    and fires none of the periodic actions. *)
Lemma batch_body_ok epoch (sb : Z * Batch) w :
  main_attrs (self w) →
  log_step_show (self w) ≠ 0 →
  ∃ w' seg,
    batch_body epoch sb w = Ok tt w' ∧
    frozen (self w') = frozen (self w) ∧
    main_attrs (self w') ∧
    fs w' = fs w ∧
    trace w' = trace w ++ seg ∧
    plain seg ∧
    global_steps seg = [epoch * Z.of_nat (length (train_dl (self w))) + sb.1].
Proof.
  intros Hattrs Hshow. unfold batch_body.
  set (g := epoch * Z.of_nat (length (train_dl (self w))) + sb.1).
  set (w1 := mkWorld (set_global_step g (self w)) (fs w)
               (trace w ++ [EGlobalStep g])).
  destruct (train_step_ok sb.2 w1) as (loss & w2 & Hts & Hfr & Hat & Hgs & Hfs & Htr).
  { exact Hattrs. }
  assert (Hshow2 : log_step_show (self w2) = log_step_show (self w)).
  { change (log_step_show (self w)) with (log_step_show (self w1)).
    unfold frozen in Hfr. by simplify_eq. }
  destruct (log_step_ok loss epoch w2 g) as (lseg & Hlog & Hpl & Hlg).
  { by rewrite Hgs. }
  run. fold g. cbn [self fs trace].
  change (train_step sb.2 {| self := _; fs := _; trace := _ |})
    with (train_step sb.2 w1).
  rewrite Hts. run. rewrite Hgs. cbn [global_step set_global_step w1 self].
  unfold py_mod. rewrite Hshow2.
  destruct (Z.eqb_spec (log_step_show (self w)) 0) as [?|_]; [done|]. run.
  case_match.
  - rewrite Hlog. eexists _, _. split; [reflexivity|]. cbn [self fs trace].
    rewrite Htr. cbn [w1 trace]. rewrite <- !app_assoc.
    split_and!; try done.
    rewrite !global_steps_app, Hlg. done.
  - eexists _, _. split; [reflexivity|].
    rewrite Htr. cbn [w1 trace]. rewrite <- !app_assoc.
    split_and!; try done.
Qed.

Lemma enumerate_from_fst {A} (l : list A) (i : Z) :
  (enumerate_from i l).*1 = seqZ i (Z.of_nat (length l)).
Proof.
  revert i. induction l as [|x l IH]; intros i; [done|].
  cbn [enumerate_from fmap list_fmap length]. rewrite seqZ_cons by lia.
  cbn. f_equal. rewrite IH. f_equal; lia.
Qed.

Lemma enumerate_steps {A} (l : list A) epoch :
  (λ sb : Z * A, epoch * Z.of_nat (length l) + sb.1) <$> enumerate l
  = epoch_steps (length l) epoch.
Proof.
  unfold epoch_steps, enumerate. rewrite <- enumerate_from_fst.
  by rewrite <- list_fmap_compose.
Qed.

(** The inner loop of one epoch. *)
Lemma batches_ok epoch w :
  main_attrs (self w) →
  log_step_show (self w) ≠ 0 →
  ∃ w' seg,
    for_each (enumerate (train_dl (self w))) (batch_body epoch) w = Ok tt w' ∧
    frozen (self w') = frozen (self w) ∧
    main_attrs (self w') ∧
    fs w' = fs w ∧
    trace w' = trace w ++ seg ∧
    plain seg ∧
    global_steps seg = epoch_steps (length (train_dl (self w))) epoch.
Proof.
  intros Hattrs Hshow.
  set (n := length (train_dl (self w))).
  destruct (for_each_ok (enumerate (train_dl (self w))) (batch_body epoch)
    (λ pre w',
       frozen (self w') = frozen (self w) ∧ main_attrs (self w') ∧
       fs w' = fs w ∧
       ∃ seg, trace w' = trace w ++ seg ∧ plain seg ∧
         global_steps seg = (λ sb, epoch * Z.of_nat n + sb.1) <$> pre) w)
    as (w' & Hrun & Hfr & Hat & Hfs & seg & Htr & Hpl & Hgs).
  - split_and!; try done. exists []. by rewrite app_nil_r.
  - intros pre sb w1 (Hfr & Hat & Hfs & seg & Htr & Hpl & Hgs).
    assert (Hdl : train_dl (self w1) = train_dl (self w)
                  ∧ log_step_show (self w1) = log_step_show (self w)).
    { unfold frozen in Hfr. by simplify_eq. }
    destruct Hdl as [Hdl Hls].
    destruct (batch_body_ok epoch sb w1) as
      (w2 & seg2 & Hb & Hfr2 & Hat2 & Hfs2 & Htr2 & Hpl2 & Hgs2);
      [done | by rewrite Hls |].
    exists w2. split; [done|]. split_and!; [congruence | done | congruence |].
    exists (seg ++ seg2). split_and!.
    + by rewrite Htr2, Htr, app_assoc.
    + by apply plain_app.
    + rewrite global_steps_app, Hgs, Hgs2, Hdl, fmap_app. done.
  - exists w', seg. split_and!; try done.
    rewrite Hgs. apply enumerate_steps.
Qed.

(** ** The periodic actions *)

Lemma sample_ok w :
  ∃ w' seg,
    sample w = Ok tt w' ∧
    frozen (self w') = frozen (self w) ∧
    ema_model (self w') = ema_model (self w) ∧
    fs w' = fs w ∧
    trace w' = trace w ++ seg ∧
    existsb is_sampler_call seg = true ∧
    existsb is_checkpoint_write seg = false ∧
    existsb is_adapter_export seg = false ∧
    global_steps seg = [].
Proof.
  unfold sample. run. cbn [self fs trace].
  destruct (metric_function _); eexists _, _;
    (split; [reflexivity|]); cbn [self fs trace]; rewrite <- !app_assoc;
    split_and!; done.
Qed.

Lemma save_model_run epoch w em :
  ema_model (self w) = Some em →
  save_model epoch w =
    Ok tt (mkWorld (self w)
             (<[checkpoint_path epoch (model_name (self w)) :=
                  checkpoint_dict (self w) em epoch]> (fs w))
             (trace w ++ [ETorchSave (checkpoint_dict (self w) em epoch)
                            (checkpoint_path epoch (model_name (self w)))])).
Proof. intros Hem. unfold save_model. run. rewrite Hem. by run. Qed.

Lemma save_model_ok epoch w :
  is_Some (ema_model (self w)) →
  ∃ obj,
    save_model epoch w =
      Ok tt (mkWorld (self w)
               (<[checkpoint_path epoch (model_name (self w)) := obj]> (fs w))
               (trace w ++ [ETorchSave obj
                              (checkpoint_path epoch (model_name (self w)))])).
Proof. intros [em Hem]. rewrite (save_model_run _ _ em Hem). eauto. Qed.

Lemma save_lora_model_ok epoch w :
  is_Some (save_lora_function (self w)) →
  ∃ seg,
    save_lora_model epoch w = Ok tt (mkWorld (self w) (fs w) (trace w ++ seg)) ∧
    existsb is_sampler_call seg = false ∧
    existsb is_checkpoint_write seg = false ∧
    existsb is_adapter_export seg = true ∧
    global_steps seg = [].
Proof.
  intros [f Hf]. unfold save_lora_model. run. cbn [self fs trace].
  rewrite Hf. run. eexists. split.
  - cbn [self fs trace]. rewrite <- !app_assoc. reflexivity.
  - done.
Qed.

Lemma sampling_step_ok epoch w :
  sample_epoch (self w) ≠ 0 →
  ∃ w' seg,
    sampling_step epoch w = Ok tt w' ∧
    frozen (self w') = frozen (self w) ∧
    ema_model (self w') = ema_model (self w) ∧
    fs w' = fs w ∧
    trace w' = trace w ++ seg ∧
    (existsb is_sampler_call seg = true ↔
       epoch `mod` sample_epoch (self w) = 0 ∧
       is_main_process (accelerator (self w)) = true) ∧
    existsb is_checkpoint_write seg = false ∧
    existsb is_adapter_export seg = false ∧
    global_steps seg = [].
Proof.
  intros Hnz. unfold sampling_step, py_mod. run.
  destruct (Z.eqb_spec (sample_epoch (self w)) 0) as [?|_]; [done|]. run.
  destruct (Z.eqb_spec (epoch `mod` sample_epoch (self w)) 0) as [Hm|Hm];
    destruct (is_main_process (accelerator (self w))) eqn:Hmain;
    cbn [andb].
  - destruct (sample_ok w) as (w' & seg & Hs & ? & ? & ? & ? & ? & ? & ? & ?).
    exists w', seg. split_and!; done.
  - exists w, []. rewrite app_nil_r. split_and!; try done; cbn; intuition congruence.
  - exists w, []. rewrite app_nil_r. split_and!; try done; cbn; intuition congruence.
  - exists w, []. rewrite app_nil_r. split_and!; try done; cbn; intuition congruence.
Qed.

Lemma saving_step_ok epoch w :
  main_attrs (self w) →
  save_epoch (self w) ≠ 0 →
  ∃ fs' seg,
    saving_step epoch w = Ok tt (mkWorld (self w) fs' (trace w ++ seg)) ∧
    existsb is_sampler_call seg = false ∧
    (existsb is_checkpoint_write seg = true ↔
       epoch `mod` save_epoch (self w) = 0 ∧
       is_main_process (accelerator (self w)) = true) ∧
    existsb is_adapter_export seg = false ∧
    global_steps seg = [].
Proof.
  intros Hattrs Hnz. unfold saving_step, py_mod. run.
  destruct (Z.eqb_spec (save_epoch (self w)) 0) as [?|_]; [done|]. run.
  destruct (Z.eqb_spec (epoch `mod` save_epoch (self w)) 0) as [Hm|Hm];
    destruct (is_main_process (accelerator (self w))) eqn:Hmain;
    cbn [andb].
  - destruct (save_model_ok epoch w) as (obj & Hs); [by apply Hattrs|].
    rewrite Hs. eexists _, [_]. split; [reflexivity|].
    split_and!; done.
  - exists (fs w), []. rewrite app_nil_r. destruct w.
    split_and!; try done; cbn; intuition congruence.
  - exists (fs w), []. rewrite app_nil_r. destruct w.
    split_and!; try done; cbn; intuition congruence.
  - exists (fs w), []. rewrite app_nil_r. destruct w.
    split_and!; try done; cbn; intuition congruence.
Qed.

Lemma exporting_step_ok epoch w :
  (is_Some (save_lora_function (self w)) → lora_save_epoch (self w) ≠ 0) →
  ∃ seg,
    exporting_step epoch w = Ok tt (mkWorld (self w) (fs w) (trace w ++ seg)) ∧
    existsb is_sampler_call seg = false ∧
    existsb is_checkpoint_write seg = false ∧
    (existsb is_adapter_export seg = true ↔
       is_Some (save_lora_function (self w)) ∧
       epoch `mod` lora_save_epoch (self w) = 0 ∧
       is_main_process (accelerator (self w)) = true) ∧
    global_steps seg = [].
Proof.
  intros Hnz. unfold exporting_step, py_mod. run.
  destruct (save_lora_function (self w)) as [f|] eqn:Hf; run.
  2:{ exists []. rewrite app_nil_r. destruct w. split_and!; try done.
      cbn. split; [done|]. intros [[? ?] _]. done. }
  destruct (Z.eqb_spec (lora_save_epoch (self w)) 0) as [Hz|_];
    [by destruct Hnz|]. run.
  destruct (Z.eqb_spec (epoch `mod` lora_save_epoch (self w)) 0) as [Hm|Hm];
    destruct (is_main_process (accelerator (self w))) eqn:Hmain;
    cbn [andb].
  - destruct (save_lora_model_ok epoch w) as (seg & Hs & ? & ? & Hx & ?).
    { by rewrite Hf. }
    rewrite Hs. exists seg. split_and!; done.
  - exists []. rewrite app_nil_r. destruct w.
    split_and!; try done; cbn; intuition congruence.
  - exists []. rewrite app_nil_r. destruct w.
    split_and!; try done; cbn; intuition congruence.
  - exists []. rewrite app_nil_r. destruct w.
    split_and!; try done; cbn; intuition congruence.
Qed.

(** ** One epoch, and the whole loop *)

Lemma frozen_inv s s' :
  frozen s' = frozen s →
  accelerator s' = accelerator s ∧ epochs s' = epochs s ∧
  log_step_show s' = log_step_show s ∧ sample_epoch s' = sample_epoch s ∧
  save_epoch s' = save_epoch s ∧ lora_save_epoch s' = lora_save_epoch s ∧
  save_lora_function s' = save_lora_function s ∧
  start_epoch s' = start_epoch s ∧ train_dl s' = train_dl s ∧
  ema s' = ema s.
Proof. unfold frozen. intros [= ]. by split_and!. Qed.

Lemma main_attrs_frozen s s' :
  frozen s' = frozen s → ema_model s' = ema_model s →
  main_attrs s → main_attrs s'.
Proof.
  intros (Ha & Hrest)%frozen_inv Hem. unfold main_attrs.
  destruct Hrest as (_ & _ & _ & _ & _ & _ & _ & _ & He).
  by rewrite Ha, He, Hem.
Qed.

Lemma frozen_intervals s s' :
  frozen s' = frozen s → intervals_ok s → intervals_ok s'.
Proof.
  intros (_ & _ & Hl & Hs & Hv & Ho & Hf & _)%frozen_inv.
  unfold intervals_ok. by rewrite Hl, Hs, Hv, Ho, Hf.
Qed.

Lemma epoch_actions_ext s s' e seg :
  accelerator s' = accelerator s → sample_epoch s' = sample_epoch s →
  save_epoch s' = save_epoch s → lora_save_epoch s' = lora_save_epoch s →
  save_lora_function s' = save_lora_function s →
  epoch_actions s' e seg → epoch_actions s e seg.
Proof. unfold epoch_actions. by intros -> -> -> -> ->. Qed.

Lemma frozen_epoch_actions s s' e seg :
  frozen s' = frozen s → epoch_actions s' e seg → epoch_actions s e seg.
Proof.
  intros (Ha & _ & _ & Hs & Hv & Ho & Hf & _)%frozen_inv.
  by apply epoch_actions_ext.
Qed.

Lemma epoch_body_ok epoch w :
  main_attrs (self w) →
  intervals_ok (self w) →
  ∃ w' seg,
    epoch_body epoch w = Ok tt w' ∧
    frozen (self w') = frozen (self w) ∧
    main_attrs (self w') ∧
    trace w' = trace w ++ seg ∧
    epoch_actions (self w) epoch seg ∧
    global_steps seg = epoch_steps (length (train_dl (self w))) epoch.
Proof.
  intros Hattrs (Hshow & Hsample & Hsave & Hlora).
  set (w0 := mkWorld (set_model (train (model (self w))) (self w))
               (fs w) (trace w)).
  destruct (batches_ok epoch w0)
    as (w1 & seg1 & Hb & Hfr1 & Hat1 & _ & Htr1 & (Hp1 & Hp2 & Hp3) & Hgs1);
    [done | done |].
  assert (Hi1 : intervals_ok (self w1))
    by (apply (frozen_intervals (self w)); [done | by split_and!]).
  pose proof Hi1 as (_ & Hsample1 & _ & _).
  destruct (sampling_step_ok epoch w1 Hsample1)
    as (w2 & seg2 & Hs & Hfr2 & Hem2 & _ & Htr2 & Hx2 & Hc2 & Ha2 & Hgs2).
  assert (Hat2 : main_attrs (self w2))
    by (by apply (main_attrs_frozen (self w1))).
  assert (Hi2 : intervals_ok (self w2))
    by (by apply (frozen_intervals (self w1))).
  destruct Hi2 as (_ & _ & Hsave2 & Hlora2).
  destruct (saving_step_ok epoch w2 Hat2 Hsave2)
    as (fs3 & seg3 & Hv & Hx3 & Hc3 & Ha3 & Hgs3).
  set (w3 := mkWorld (self w2) fs3 (trace w2 ++ seg3)) in *.
  destruct (exporting_step_ok epoch w3 Hlora2)
    as (seg4 & He & Hx4 & Hc4 & Ha4 & Hgs4).
  eexists _, (seg1 ++ seg2 ++ seg3 ++ seg4).
  split.
  { unfold epoch_body. run. fold w0. cbn [self w0 set_model train_dl].
    change (train_dl (self w)) with (train_dl (self w0)).
    rewrite Hb, Hs, Hv, He. reflexivity. }
  cbn [self fs trace w3].
  assert (Hfr : frozen (self w2) = frozen (self w)) by (by rewrite Hfr2, Hfr1).
  split_and!; try done.
  - rewrite Htr2, Htr1. cbn [w0 trace]. by rewrite <- !app_assoc.
  - apply (frozen_epoch_actions _ (self w2)); [done|].
    apply frozen_inv in Hfr2 as (Ha21 & _ & _ & Hs21 & _).
    rewrite <- Ha21, <- Hs21 in Hx2.
    unfold epoch_actions. rewrite !existsb_app.
    rewrite Hp1, Hp2, Hp3, Hc2, Ha2, Hx3, Ha3, Hx4, Hc4. cbn [orb].
    rewrite !orb_false_r. done.
  - rewrite !global_steps_app, Hgs1, Hgs2, Hgs3, Hgs4, !app_nil_r. done.
Qed.

(** The whole loop returns, and its trace is the tracker initialisation
    followed by one segment per epoch of [range(start_epoch, epochs + 1)],
    in order. *)
Lemma train_loop_ok w :
  main_attrs (self w) →
  intervals_ok (self w) →
  ∃ w' segs,
    train_loop w = Ok tt w' ∧
    trace w' = trace w ++ init_events (self w) ++ concat segs ∧
    Forall2 (λ e seg, epoch_actions (self w) e seg ∧
                      global_steps seg = epoch_steps (batches_per_epoch (self w)) e)
      (range (start_epoch (self w)) (epochs (self w) + 1)) segs.
Proof.
  intros Hattrs Hint. unfold train_loop, batches_per_epoch. run.
  destruct (prepare _ _) as [[m o] dl] eqn:Hprep. cbn [snd]. run.
  cbn [self fs trace].
  set (s0 := set_train_dl dl (set_optimizer o (set_model m (self w)))).
  set (w0 := mkWorld s0 (fs w) (trace w ++ init_events (self w))).
  destruct (for_each_ok (range (start_epoch (self w0)) (epochs (self w0) + 1))
    epoch_body
    (λ pre w',
       frozen (self w') = frozen (self w0) ∧ main_attrs (self w') ∧
       ∃ segs, trace w' = trace w0 ++ concat segs ∧
         Forall2 (λ e seg, epoch_actions (self w) e seg ∧
                    global_steps seg = epoch_steps (length dl) e) pre segs) w0)
    as (w' & Hrun & _ & _ & segs & Htr & Hall).
  - split_and!; [done | done |]. exists []. cbn. by rewrite app_nil_r.
  - intros pre e w1 (Hfr & Hat & segs & Htr & Hall).
    destruct (epoch_body_ok e w1) as (w2 & seg & Hb & Hfr2 & Hat2 & Htr2 & Hact & Hgs);
      [done | by apply (frozen_intervals s0) |].
    exists w2. split; [done|].
    split; [by rewrite Hfr2 | split; [exact Hat2|]].
    exists (segs ++ [seg]). split.
    + rewrite Htr2, Htr, concat_app, <- app_assoc. cbn. by rewrite app_nil_r.
    + apply Forall2_app; [done|]. constructor; [|constructor]. split.
      * apply (epoch_actions_ext _ s0); [done..|].
        by apply (frozen_epoch_actions _ (self w1)).
      * rewrite Hgs. apply frozen_inv in Hfr as (_&_&_&_&_&_&_&_&Hdl&_).
        by rewrite Hdl.
  - exists w', segs. split; [|split; [|done]].
    + rewrite <- Hrun. unfold w0, init_events.
      destruct (is_main_process _); [done|]. by rewrite app_nil_r.
    + rewrite Htr. cbn [w0 trace]. by rewrite <- app_assoc.
Qed.

(** ** The values of the global step *)






Lemma global_steps_concat (segs : list (list Event)) :
  global_steps (concat segs) = segs ≫= global_steps.
Proof.
  induction segs as [|seg segs IH]; [done|].
  change (global_steps (seg ++ concat segs)
          = global_steps seg ++ (segs ≫= global_steps)).
  by rewrite global_steps_app, IH.
Qed.

Lemma global_steps_segments n (es : list Z) (segs : list (list Event))
    (P : Z → list Event → Prop) :
  Forall2 (λ e seg, P e seg ∧ global_steps seg = epoch_steps n e) es segs →
  global_steps (concat segs) = run_steps n es.
Proof.
  rewrite global_steps_concat. unfold run_steps.
  induction 1 as [|e seg es segs [_ Hseg] _ IH]; [done|].
  cbn. by rewrite Hseg, IH.
Qed.


(** ** The trace of an epoch *)

Lemma fires_true s e i :
  fires s e i = true ↔
  e `mod` i = 0 ∧ is_main_process (accelerator s) = true.
Proof. unfold fires. by rewrite andb_true_iff, Z.eqb_eq. Qed.

Lemma existsb_filter_singleton (f : Event → bool) (l : list Event) ev :
  filter (λ x, f x = true) l = [ev] → existsb f l = true.
Proof.
  intros Hf. apply existsb_exists. exists ev.
  assert (Hin : ev ∈ filter (λ x, f x = true) l) by (rewrite Hf; left).
  apply list_elem_of_filter in Hin as [? ?].
  split; [by apply list_elem_of_In|done].
Qed.

Lemma frozen_segment_fields s s' :
  frozen s' = frozen s →
  accelerator s' = accelerator s ∧ sample_epoch s' = sample_epoch s ∧
  save_epoch s' = save_epoch s ∧ lora_save_epoch s' = lora_save_epoch s ∧
  save_lora_function s' = save_lora_function s ∧
  lora_path s' = lora_path s ∧ model_name s' = model_name s.
Proof. unfold frozen. intros [= ]. by split_and!. Qed.

Lemma epoch_segment_ext s s' n e seg :
  accelerator s' = accelerator s → sample_epoch s' = sample_epoch s →
  save_epoch s' = save_epoch s → lora_save_epoch s' = lora_save_epoch s →
  save_lora_function s' = save_lora_function s →
  lora_path s' = lora_path s → model_name s' = model_name s →
  epoch_segment s' n e seg → epoch_segment s n e seg.
Proof.
  unfold epoch_segment, exports, fires. by intros -> -> -> -> -> -> ->.
Qed.

(** The segment shows which actions fired. *)
Lemma epoch_segment_actions s n e seg :
  epoch_segment s n e seg → epoch_actions s e seg.
Proof.
  intros (steps & sampling & saving & exporting & -> & (Hp1 & Hp2 & Hp3) & _
          & _ & _ & Hsample & Hsave & Hexport).
  unfold epoch_actions. rewrite !existsb_app, Hp1, Hp2, Hp3. cbn [orb].
  assert (Hs : existsb is_sampler_call sampling
               = fires s e (sample_epoch s) ∧
               existsb is_checkpoint_write sampling = false ∧
               existsb is_adapter_export sampling = false).
  { destruct (fires s e (sample_epoch s)).
    - destruct Hsample as ([ev Hev] & ? & ?).
      by rewrite (existsb_filter_singleton _ _ ev Hev).
    - by subst sampling. }
  assert (Hv : existsb is_sampler_call saving = false ∧
               existsb is_checkpoint_write saving
               = fires s e (save_epoch s) ∧
               existsb is_adapter_export saving = false).
  { destruct (fires s e (save_epoch s)).
    - by destruct Hsave as (d & -> & _).
    - by subst saving. }
  assert (Hx : existsb is_sampler_call exporting = false ∧
               existsb is_checkpoint_write exporting = false ∧
               existsb is_adapter_export exporting = exports s e).
  { destruct (exports s e).
    - destruct Hexport as ((f & m & _ & Hev) & ? & ?).
      by rewrite (existsb_filter_singleton _ _ _ Hev).
    - by subst exporting. }
  destruct Hs as (-> & -> & ->), Hv as (-> & -> & ->), Hx as (-> & -> & ->).
  rewrite !orb_false_r. cbn [orb]. split_and!.
  - apply fires_true.
  - apply fires_true.
  - unfold exports. destruct (save_lora_function s) as [f|].
    + rewrite fires_true. split; [by intros [? ?]|by intros (_ & ? & ?)].
    + split; [done|]. by intros [[? ?] _].
Qed.

Lemma sampling_step_exact epoch w :
  sample_epoch (self w) ≠ 0 →
  ∃ w' seg,
    sampling_step epoch w = Ok tt w' ∧
    frozen (self w') = frozen (self w) ∧
    ema_model (self w') = ema_model (self w) ∧
    ema (self w') = ema (self w) ∧
    fs w' = fs w ∧
    trace w' = trace w ++ seg ∧
    global_steps seg = [] ∧
    if fires (self w) epoch (sample_epoch (self w))
    then (∃ ev, filter (λ ev, is_sampler_call ev = true) seg = [ev]) ∧
         existsb is_checkpoint_write seg = false ∧
         existsb is_adapter_export seg = false
    else seg = [].
Proof.
  intros Hnz. unfold sampling_step, py_mod, fires. run.
  destruct (Z.eqb_spec (sample_epoch (self w)) 0) as [?|_]; [done|]. run.
  destruct ((epoch `mod` sample_epoch (self w) =? 0)
            && is_main_process (accelerator (self w))).
  - unfold sample. run. cbn [self fs trace].
    destruct (metric_function _); eexists _, _;
      (split; [reflexivity|]); cbn [self fs trace]; rewrite <- !app_assoc;
      split_and!; try done; by eexists.
  - exists w, []. rewrite app_nil_r. by split_and!.
Qed.

Lemma saving_step_exact epoch w :
  main_attrs (self w) →
  save_epoch (self w) ≠ 0 →
  ∃ fs' seg,
    saving_step epoch w = Ok tt (mkWorld (self w) fs' (trace w ++ seg)) ∧
    if fires (self w) epoch (save_epoch (self w))
    then ∃ d,
      seg = [ETorchSave d (checkpoint_path epoch (model_name (self w)))] ∧
      d !! "epoch" = Some (VInt epoch)
    else seg = [].
Proof.
  intros Hattrs Hnz. unfold saving_step, py_mod, fires. run.
  destruct (Z.eqb_spec (save_epoch (self w)) 0) as [?|_]; [done|]. run.
  destruct (epoch `mod` save_epoch (self w) =? 0);
    destruct (is_main_process (accelerator (self w))) eqn:Hmain; cbn [andb].
  - destruct (Hattrs Hmain) as [_ [em Hem]].
    rewrite (save_model_run _ _ em Hem).
    eexists _, [_]. split; [reflexivity|]. by eexists.
  - exists (fs w), []. rewrite app_nil_r. by destruct w.
  - exists (fs w), []. rewrite app_nil_r. by destruct w.
  - exists (fs w), []. rewrite app_nil_r. by destruct w.
Qed.

Lemma exporting_step_exact epoch w :
  (is_Some (save_lora_function (self w)) → lora_save_epoch (self w) ≠ 0) →
  ∃ seg,
    exporting_step epoch w = Ok tt (mkWorld (self w) (fs w) (trace w ++ seg)) ∧
    global_steps seg = [] ∧
    if exports (self w) epoch
    then (∃ f m, save_lora_function (self w) = Some f ∧
            filter (λ ev, is_adapter_export ev = true) seg
            = [ESaveLora f m (lora_export_path (lora_path (self w)) epoch)]) ∧
         existsb is_sampler_call seg = false ∧
         existsb is_checkpoint_write seg = false
    else seg = [].
Proof.
  intros Hnz. unfold exporting_step, py_mod, exports, fires. run.
  destruct (save_lora_function (self w)) as [f|] eqn:Hf; run.
  2:{ exists []. rewrite app_nil_r. by destruct w. }
  destruct (Z.eqb_spec (lora_save_epoch (self w)) 0) as [Hz|_];
    [by destruct Hnz|]. run.
  destruct ((epoch `mod` lora_save_epoch (self w) =? 0)
            && is_main_process (accelerator (self w))).
  - unfold save_lora_model. run. cbn [self fs trace]. rewrite Hf. run.
    eexists. split; [cbn [self fs trace]; by rewrite <- !app_assoc|].
    split; [done|]. split; [|done]. by eexists _, _.
  - exists []. rewrite app_nil_r. by destruct w.
Qed.

Lemma epoch_body_segment epoch w :
  main_attrs (self w) →
  intervals_ok (self w) →
  ∃ w' seg,
    epoch_body epoch w = Ok tt w' ∧
    frozen (self w') = frozen (self w) ∧
    main_attrs (self w') ∧
    trace w' = trace w ++ seg ∧
    epoch_segment (self w) (length (train_dl (self w))) epoch seg.
Proof.
  intros Hattrs (Hshow & Hsample & Hsave & Hlora).
  set (w0 := mkWorld (set_model (train (model (self w))) (self w))
               (fs w) (trace w)).
  destruct (batches_ok epoch w0)
    as (w1 & seg1 & Hb & Hfr1 & Hat1 & _ & Htr1 & Hpl & Hgs1);
    [done | done |].
  assert (Hi1 : intervals_ok (self w1))
    by (apply (frozen_intervals (self w)); [done | by split_and!]).
  pose proof Hi1 as (_ & Hsample1 & _ & _).
  destruct (sampling_step_exact epoch w1 Hsample1)
    as (w2 & seg2 & Hs & Hfr2 & Hem2 & _ & _ & Htr2 & Hgs2 & Hseg2).
  assert (Hat2 : main_attrs (self w2))
    by (by apply (main_attrs_frozen (self w1))).
  assert (Hi2 : intervals_ok (self w2))
    by (by apply (frozen_intervals (self w1))).
  destruct Hi2 as (_ & _ & Hsave2 & Hlora2).
  destruct (saving_step_exact epoch w2 Hat2 Hsave2) as (fs3 & seg3 & Hv & Hseg3).
  set (w3 := mkWorld (self w2) fs3 (trace w2 ++ seg3)) in *.
  destruct (exporting_step_exact epoch w3 Hlora2) as (seg4 & He & Hgs4 & Hseg4).
  assert (Hfr : frozen (self w2) = frozen (self w)) by (by rewrite Hfr2, Hfr1).
  eexists _, (seg1 ++ seg2 ++ seg3 ++ seg4).
  split.
  { unfold epoch_body. run. fold w0. cbn [self w0 set_model train_dl].
    change (train_dl (self w)) with (train_dl (self w0)).
    rewrite Hb, Hs, Hv, He. reflexivity. }
  cbn [self fs trace w3]. split_and!; [done | done | |].
  - rewrite Htr2, Htr1. cbn [w0 trace]. by rewrite <- !app_assoc.
  - assert (Hfrw : frozen (self w1) = frozen (self w)) by (by rewrite Hfr1).
    pose proof (frozen_segment_fields _ _ Hfrw)
      as (A1 & S1 & V1 & L1 & F1 & P1 & N1).
    pose proof (frozen_segment_fields _ _ Hfr)
      as (A2 & S2 & V2 & L2 & F2 & P2 & N2).
    exists seg1, seg2, seg3, seg4. split_and!; try done.
    + unfold fires in *. by rewrite <- A1, <- S1.
    + unfold fires in *. by rewrite <- A2, <- V2, <- N2.
    + cbn [w3 self] in Hseg4. unfold exports, fires in *.
      by rewrite <- A2, <- L2, <- F2, <- P2.
Qed.

(** The whole loop: one such segment per epoch, in order. *)
Lemma train_loop_segments w :
  main_attrs (self w) →
  intervals_ok (self w) →
  ∃ w' segs,
    train_loop w = Ok tt w' ∧
    trace w' = trace w ++ init_events (self w) ++ concat segs ∧
    Forall2 (epoch_segment (self w) (batches_per_epoch (self w)))
      (range (start_epoch (self w)) (epochs (self w) + 1)) segs.
Proof.
  intros Hattrs Hint. unfold train_loop, batches_per_epoch. run.
  destruct (prepare _ _) as [[m o] dl] eqn:Hprep. cbn [snd]. run.
  cbn [self fs trace].
  set (s0 := set_train_dl dl (set_optimizer o (set_model m (self w)))).
  set (w0 := mkWorld s0 (fs w) (trace w ++ init_events (self w))).
  destruct (for_each_ok (range (start_epoch (self w0)) (epochs (self w0) + 1))
    epoch_body
    (λ pre w',
       frozen (self w') = frozen (self w0) ∧ main_attrs (self w') ∧
       ∃ segs, trace w' = trace w0 ++ concat segs ∧
         Forall2 (epoch_segment (self w) (length dl)) pre segs) w0)
    as (w' & Hrun & _ & _ & segs & Htr & Hall).
  - split_and!; [done | done |]. exists []. cbn. by rewrite app_nil_r.
  - intros pre e w1 (Hfr & Hat & segs & Htr & Hall).
    destruct (epoch_body_segment e w1)
      as (w2 & seg & Hb & Hfr2 & Hat2 & Htr2 & Hseg);
      [done | by apply (frozen_intervals s0) |].
    exists w2. split; [done|].
    split; [by rewrite Hfr2 | split; [exact Hat2|]].
    exists (segs ++ [seg]). split.
    + rewrite Htr2, Htr, concat_app, <- app_assoc. cbn. by rewrite app_nil_r.
    + apply Forall2_app; [done|]. constructor; [|constructor].
      pose proof (frozen_segment_fields _ _ Hfr) as (A & S & V & L & F & P & N).
      pose proof Hfr as (_&_&_&_&_&_&_&_&Hdl&_)%frozen_inv.
      cbn [w0 self s0] in Hdl. rewrite Hdl in Hseg.
      by apply (epoch_segment_ext _ (self w1)).
  - exists w', segs. split; [|split; [|done]].
    + rewrite <- Hrun. unfold w0, init_events.
      destruct (is_main_process _); [done|]. by rewrite app_nil_r.
    + rewrite Htr. cbn [w0 trace]. by rewrite <- app_assoc.
Qed.

(** ** The claims about the control loop *)

(** C1: the run of [train_loop] returns, and its trace is the tracker
    initialisation followed by one segment per epoch [e] of
    [range(start_epoch, epochs + 1)], in order.  The segment of [e] is made
    of the training steps of [e], which assign its global steps and make no
    sampler call, checkpoint write or adapter export, then of the sampling,
    present (with one sampler call) iff [e mod sample_epoch = 0] on the main
    process, of the saving, one write to the checkpoint file of [e], present
    iff [e mod save_epoch = 0] on the main process, and of the export, with
    one call of the LoRA saver on the export path of [e], present iff a
    saver was supplied and [e mod lora_save_epoch = 0] on the main process.
    Each of the three is decided by its own condition alone. *)
Theorem periodic_actions_by_modulo w :
  main_attrs (self w) →
  intervals_ok (self w) →
  ∃ w' segs,
    train_loop w = Ok tt w' ∧
    trace w' = trace w ++ init_events (self w) ++ concat segs ∧
    Forall2 (λ e seg,
               epoch_actions (self w) e seg ∧
               epoch_segment (self w) (batches_per_epoch (self w)) e seg)
      (range (start_epoch (self w)) (epochs (self w) + 1)) segs.
Proof.
  intros Hattrs Hint.
  destruct (train_loop_segments w Hattrs Hint) as (w' & segs & Hrun & Htr & Hall).
  exists w', segs. split_and!; [done..|].
  eapply Forall2_impl; [exact Hall|]. intros e seg Hseg.
  split; [by apply (epoch_segment_actions _ _ _ _ Hseg)|done].
Qed.


(** ** Processes other than the main one *)

Lemma quiet_refl w :
  is_main_process (accelerator (self w)) = false → quiet w w.
Proof. intros. split_and!; [done..|]. exists []. by rewrite app_nil_r. Qed.

Lemma quiet_trans w1 w2 w3 : quiet w1 w2 → quiet w2 w3 → quiet w1 w3.
Proof.
  intros (_ & Hfs1 & seg1 & Htr1 & Hq1) (Hm & Hfs2 & seg2 & Htr2 & Hq2).
  split_and!; [done | congruence |].
  exists (seg1 ++ seg2). split; [by rewrite Htr2, Htr1, app_assoc|].
  by apply Forall_app.
Qed.

Lemma wq_ret {A} (a : A) : worker_quiet (mret a).
Proof. intros w Hw. by apply quiet_refl. Qed.

Lemma wq_raise {A} x : worker_quiet (raise (A:=A) x).
Proof. intros w Hw. by apply quiet_refl. Qed.

Lemma wq_bind {A B} (m : M A) (f : A → M B) :
  worker_quiet m → (∀ a, worker_quiet (f a)) → worker_quiet (m ≫= f).
Proof.
  intros Hm Hf w Hw. specialize (Hm w Hw). unfold mbind, M_bind.
  destruct (m w) as [a w1|x w1]; [|done].
  eapply quiet_trans; [exact Hm|]. apply Hf. by destruct Hm.
Qed.

Lemma wq_get_self {A} (f : TrainLoop → M A) :
  (∀ s, is_main_process (accelerator s) = false → worker_quiet (f s)) →
  worker_quiet (get_self ≫= f).
Proof. intros Hf w Hw. unfold mbind, M_bind, get_self. by apply Hf. Qed.

Lemma wq_modify_self (g : TrainLoop → TrainLoop) :
  (∀ s, accelerator (g s) = accelerator s) → worker_quiet (modify_self g).
Proof.
  intros Hg w Hw. unfold modify_self. cbn. split_and!; cbn; [|done|].
  - by rewrite Hg.
  - exists []. by rewrite app_nil_r.
Qed.

Lemma wq_emit ev : main_only_call ev = false → worker_quiet (emit ev).
Proof.
  intros Hev w Hw. unfold emit. cbn. split_and!; cbn; [done..|].
  exists [ev]. split; [done|]. by constructor.
Qed.

Lemma wq_lift_exn {A} (r : Exn + A) : worker_quiet (lift_exn r).
Proof. destruct r; [apply wq_raise | apply wq_ret]. Qed.

Lemma wq_attr {A} name (o : option A) : worker_quiet (attr name o).
Proof. destruct o; [apply wq_ret | apply wq_raise]. Qed.

Lemma wq_for_each {A} (xs : list A) (body : A → M unit) :
  (∀ x, worker_quiet (body x)) → worker_quiet (for_each xs body).
Proof.
  intros Hb. induction xs as [|x xs IH]; [apply wq_ret|].
  by apply wq_bind.
Qed.

Lemma wq_train_step batch : worker_quiet (train_step batch).
Proof.
  unfold train_step. apply wq_get_self. intros s Hs.
  apply wq_bind; [by apply wq_emit|intros _].
  destruct (optimizer_step _ _ _) as [o' ps'].
  apply wq_bind; [by apply wq_modify_self|intros _].
  apply wq_bind; [by apply wq_modify_self|intros _].
  apply wq_bind; [by apply wq_emit|intros _].
  apply wq_get_self. intros s' Hs'. rewrite Hs'.
  apply wq_bind; [apply wq_ret|intros _].
  apply wq_bind; [by apply wq_emit|intros _].
  apply wq_ret.
Qed.

Lemma wq_batch_body epoch (sb : Z * Batch) : worker_quiet (batch_body epoch sb).
Proof.
  unfold batch_body. apply wq_get_self. intros s Hs.
  apply wq_bind; [by apply wq_modify_self|intros _].
  apply wq_bind; [by apply wq_emit|intros _].
  apply wq_bind; [apply wq_train_step|intros loss].
  apply wq_get_self. intros s' Hs'.
  apply wq_bind; [apply wq_attr|intros g].
  apply wq_bind; [apply wq_lift_exn|intros r].
  rewrite Hs', andb_false_r. apply wq_ret.
Qed.

Lemma wq_sampling_step epoch : worker_quiet (sampling_step epoch).
Proof.
  unfold sampling_step. apply wq_get_self. intros s Hs.
  apply wq_bind; [apply wq_lift_exn|intros r].
  rewrite Hs, andb_false_r. apply wq_ret.
Qed.

Lemma wq_saving_step epoch : worker_quiet (saving_step epoch).
Proof.
  unfold saving_step. apply wq_get_self. intros s Hs.
  apply wq_bind; [apply wq_lift_exn|intros r].
  rewrite Hs, andb_false_r. apply wq_ret.
Qed.

Lemma wq_exporting_step epoch : worker_quiet (exporting_step epoch).
Proof.
  unfold exporting_step. apply wq_get_self. intros s Hs.
  destruct (save_lora_function s); [|apply wq_ret].
  apply wq_bind; [apply wq_lift_exn|intros r].
  rewrite Hs, andb_false_r. apply wq_ret.
Qed.

Lemma wq_epoch_body epoch : worker_quiet (epoch_body epoch).
Proof.
  unfold epoch_body.
  apply wq_bind; [by apply wq_modify_self|intros _].
  apply wq_get_self. intros s Hs.
  apply wq_bind; [apply wq_for_each, wq_batch_body|intros _].
  apply wq_bind; [apply wq_sampling_step|intros _].
  apply wq_bind; [apply wq_saving_step|intros _].
  apply wq_exporting_step.
Qed.

Lemma wq_train_loop : worker_quiet train_loop.
Proof.
  unfold train_loop. apply wq_get_self. intros s Hs.
  destruct (prepare _ _) as [[m o] dl].
  apply wq_bind; [by apply wq_modify_self|intros _].
  apply wq_bind; [by apply wq_modify_self|intros _].
  apply wq_bind; [by apply wq_modify_self|intros _].
  apply wq_bind; [rewrite Hs; apply wq_ret|intros _].
  apply wq_get_self. intros s' Hs'.
  apply wq_for_each, wq_epoch_body.
Qed.

Lemma wq_torch_load path : worker_quiet (torch_load path).
Proof.
  intros w Hw. unfold torch_load. destruct (fs w !! path); by apply quiet_refl.
Qed.

Lemma wq_getitem d key : worker_quiet (getitem d key).
Proof. unfold getitem. destruct (d !! key); [apply wq_ret | apply wq_raise]. Qed.

Lemma wq_load path b : worker_quiet (load path b).
Proof.
  unfold load.
  apply wq_bind; [apply wq_torch_load|intros ckpt].
  apply wq_bind; [apply wq_getitem|intros v].
  apply wq_bind; [destruct v; (apply wq_ret || apply wq_raise)|intros sd].
  apply wq_get_self. intros s Hs.
  apply wq_bind.
  { destruct (load_state_dict _ _ _) as [m' [[[mk uk] sk]|]].
    - apply wq_bind; [by apply wq_modify_self|intros _; apply wq_raise].
    - by apply wq_modify_self. }
  intros _.
  apply wq_bind; [apply wq_getitem|intros v'].
  apply wq_bind; [destruct v'; (apply wq_ret || apply wq_raise)|intros o].
  apply wq_get_self. intros s1 Hs1.
  apply wq_bind;
    [destruct (optimizer_fits _ _); [by apply wq_modify_self | apply wq_raise]
    |intros _].
  apply wq_bind; [apply wq_getitem|intros v''].
  apply wq_bind; [destruct v''; (apply wq_ret || apply wq_raise)|intros E].
  apply wq_bind; [by apply wq_modify_self|intros _].
  apply wq_get_self. intros s' Hs'. rewrite Hs'.
  apply wq_bind; [apply wq_ret|intros _].
  destruct b; [apply wq_train_loop | apply wq_ret].
Qed.

(** C8: on a process whose [is_main_process] is false, a run, whether
    started by [train_loop] or resumed by [load] and however it ends, makes
    no call to the telemetry sink, to the sampler, to the checkpoint writer
    or to the adapter exporter, and writes no file; so a run that makes one
    is on the main process. *)
Theorem side_effects_main_process_only w path b :
  is_main_process (accelerator (self w)) = false →
  ∀ w', w' = world_of (train_loop w) ∨ w' = world_of (load path b w) →
    fs w' = fs w ∧
    ∃ seg, trace w' = trace w ++ seg ∧
      Forall (λ ev, is_log_call ev = false ∧ is_sampler_call ev = false ∧
                    is_checkpoint_write ev = false ∧
                    is_adapter_export ev = false) seg.
Proof.
  intros Hw w' Hw'.
  assert (Hq : quiet w w').
  { destruct Hw' as [->| ->]; [by apply wq_train_loop | by apply wq_load]. }
  destruct Hq as (_ & Hfs & seg & Htr & Hq).
  split; [done|]. exists seg. split; [done|].
  eapply Forall_impl; [exact Hq|]. intros ev. unfold main_only_call.
  rewrite !orb_false_iff. tauto.
Qed.

(** ** The EMA update *)

Lemma update_average_lookup x (old new : Tensor) i (s c : Q) :
  old !! i = Some s → new !! i = Some c →
  update_average x old new !! i = Some (beta x * s + (1 - beta x) * c)%Q.
Proof.
  intros Hs Hc. unfold update_average. rewrite lookup_zip_with, Hs. cbn.
  by rewrite Hc.
Qed.

Lemma step_ema_lookup x em cur k shadow c :
  parameters em !! k = Some shadow →
  parameters cur !! k = Some c →
  parameters (step_ema x em cur) !! k =
    Some {| data := update_average x (data shadow) (data c);
            requires_grad := requires_grad shadow |}.
Proof.
  intros Hs Hc. unfold step_ema. cbn [parameters].
  rewrite map_lookup_imap, Hs. cbn. by rewrite Hc.
Qed.

(** C3: on the main process, with the EMA object the constructor builds
    (decay 995/1000), every gradient step replaces each entry [s] of each
    shadow parameter by [0.995 * s + 0.005 * c], where [c] is the matching
    entry of the trained model after the optimizer step; the EMA object is
    unchanged, so the same holds at the next step, from the first one on. *)
Theorem ema_update_affine batch w em :
  is_main_process (accelerator (self w)) = true →
  ema (self w) = Some (mkEMA (995 # 1000)) →
  ema_model (self w) = Some em →
  ∃ loss w' em',
    train_step batch w = Ok loss w' ∧
    ema (self w') = Some (mkEMA (995 # 1000)) ∧
    ema_model (self w') = Some em' ∧
    ∀ k shadow cur i (s c : Q),
      parameters em !! k = Some shadow →
      parameters (unwrap_model (accelerator (self w')) (model (self w'))) !! k
        = Some cur →
      data shadow !! i = Some s →
      data cur !! i = Some c →
      ∃ p', parameters em' !! k = Some p' ∧
            data p' !! i = Some ((995 # 1000) * s + (5 # 1000) * c)%Q.
Proof.
  intros Hmain Hema Hem. unfold train_step. run.
  destruct (optimizer_step _ _ _) as [o' ps'] eqn:Hopt.
  destruct w as [s0 f t]. cbn in *. rewrite Hmain, Hema, Hem. cbn.
  eexists _, _, _. split; [reflexivity|]. cbn.
  split_and!; [done..|].
  intros k shadow cur i s c Hk Hcur Hs Hc.
  eexists. split; [by apply step_ema_lookup|]. cbn [data].
  by rewrite (update_average_lookup _ _ _ _ s c).
Qed.

(** ** Sampling *)

(** C10: when a metric function [f] is configured, [sample] calls it
    exactly once, with the single keyword argument
    [input_fasta = "synthetic_motifs.fasta"], whatever the object's
    configuration and whatever table the sampler returned; the table is
    printed but is not among the arguments. *)
Theorem sample_metric_constant_path w f :
  metric_function (self w) = Some f →
  ∃ w' seg,
    sample w = Ok tt w' ∧
    trace w' = trace w ++ seg ∧
    filter (λ ev, is_metric_call ev = true) seg =
      [EMetricFunction f [("input_fasta", VStr "synthetic_motifs.fasta")]] ∧
    (∀ g kwargs t, EMetricFunction g kwargs ∈ seg →
                   ∀ name, (name, VTable t) ∉ kwargs).
Proof.
  intros Hf. unfold sample. run. cbn [self fs trace metric_function set_model].
  rewrite Hf. eexists _, _. split; [reflexivity|]. cbn [trace].
  rewrite <- !app_assoc. split; [reflexivity|]. split; [done|].
  intros g kwargs t Hin name Hk. cbn in Hin.
  repeat (apply elem_of_cons in Hin as [Hin|Hin]; [try discriminate|]).
  - injection Hin as -> ->. apply list_elem_of_singleton in Hk. discriminate.
  - by apply elem_of_nil in Hin.
Qed.

(** ** Checkpoints *)

(** C5: on the main process, [save_model E] writes to
    [epoch_{E}_{model_name}.pt] a record with exactly the keys model,
    optimizer, epoch and ema_model, holding the parameters of the trained
    model, the optimizer state, [E] and the parameters of the EMA model;
    saving again at the same epoch writes the same path, so the file system
    is the one a single save leaves. *)
Theorem save_model_checkpoint w E em :
  ema_model (self w) = Some em →
  let s := self w in
  let path := "epoch_" +:+ PyStr.str E +:+ "_" +:+ model_name s +:+ ".pt" in
  ∃ record : gmap string PyVal,
    save_model E w =
      Ok tt (mkWorld s (<[path := record]> (fs w))
               (trace w ++ [ETorchSave record path])) ∧
    dom record = {[ "model"; "optimizer"; "epoch"; "ema_model" ]} ∧
    record !! "model" =
      Some (VStateDict (state_dict (unwrap_model (accelerator s) (model s)))) ∧
    record !! "optimizer" = Some (VOptState (optimizer s)) ∧
    record !! "epoch" = Some (VInt E) ∧
    record !! "ema_model" =
      Some (VStateDict (state_dict (unwrap_model (accelerator s) em))) ∧
    fs (world_of ((save_model E;; save_model E) w)) = <[path := record]> (fs w).
Proof.
  intros Hem s path. subst s path.
  exists (checkpoint_dict (self w) em E). split_and!.
  - by apply save_model_run.
  - unfold checkpoint_dict. rewrite !dom_insert_L, dom_empty_L. set_solver.
  - unfold checkpoint_dict. by simplify_map_eq.
  - unfold checkpoint_dict. by simplify_map_eq.
  - unfold checkpoint_dict. by simplify_map_eq.
  - unfold checkpoint_dict. by simplify_map_eq.
  - unfold mbind, M_bind. rewrite (save_model_run _ _ em Hem).
    rewrite (save_model_run _ _ em) by done.
    cbn [world_of fs]. apply insert_insert_eq.
Qed.

(** ** The constructor *)

Lemma state_dict_requires_grad_ flag m :
  state_dict (requires_grad_ flag m) = state_dict m.
Proof.
  unfold state_dict, requires_grad_. cbn [parameters].
  rewrite <- map_fmap_compose. by apply map_fmap_ext.
Qed.

(** C9, amended: after construction the epoch counter [start_epoch] is 1
    and the four rolling metrics are 1; the global step counter is not
    assigned by the constructor; on the main process the EMA model has the
    weights of the model, is in evaluation mode and tracks no gradient, and
    on any other process there is no EMA model. *)
Theorem init_bookkeeping bundle m acc kw :
  let s := init bundle m acc kw in
  start_epoch s = 1 ∧ global_step s = None ∧
  train_kl s = 1 ∧ test_kl s = 1 ∧ shuffle_kl s = 1 ∧ seq_similarity s = 1 ∧
  if is_main_process acc
  then ∃ em, ema_model s = Some em ∧
             state_dict em = state_dict m ∧
             training em = false ∧
             map_Forall (λ _ p, requires_grad p = false) (parameters em)
  else ema_model s = None.
Proof.
  cbn. split_and!; [done..|]. destruct (is_main_process acc); [|done].
  eexists. split; [reflexivity|]. split_and!.
  - by rewrite state_dict_requires_grad_.
  - done.
  - intros k p. cbn. rewrite lookup_fmap.
    destruct (parameters (deepcopy m) !! k); cbn; intros Hp; by simplify_eq.
Qed.

Lemma init_main_attrs bundle m acc kw : main_attrs (init bundle m acc kw).
Proof. intros Hm. cbn in *. rewrite Hm. eauto. Qed.

(** ** Resume *)

Lemma load_params_lookup own (sd : StateDict) k :
  load_params own sd !! k =
  (λ p, match sd !! k with
        | Some t =>
            if fits t p
            then {| data := t; requires_grad := requires_grad p |}
            else p
        | None => p
        end) <$> own !! k.
Proof. unfold load_params. rewrite map_lookup_imap. by destruct (own !! k). Qed.

Lemma filter_none {A} (P : A → Prop) `{∀ x, Decision (P x)} (l : list A) :
  (∀ x, x ∈ l → ¬ P x) → filter P l = [].
Proof.
  intros Hl. destruct (filter P l) as [|x l'] eqn:Hf; [done|].
  assert (Hx : x ∈ filter P l) by (rewrite Hf; left).
  apply list_elem_of_filter in Hx as [HP Hx]. by destruct (Hl x Hx).
Qed.

(** No size mismatch: every tensor of the checkpoint fits the parameter of
    its name. *)
Lemma size_mismatches_nil own (sd : StateDict) k p t :
  size_mismatches own sd = [] →
  own !! k = Some p → sd !! k = Some t → fits t p = true.
Proof.
  intros Hnil Hp Ht. destruct (fits t p) eqn:Hfit; [done|].
  assert (Hin : k ∈ size_mismatches own sd).
  { apply list_elem_of_filter. split.
    - unfold mismatched. by rewrite Hp, Ht, Hfit.
    - apply elem_of_elements, elem_of_dom. eauto. }
  rewrite Hnil in Hin. by apply elem_of_nil in Hin.
Qed.

Lemma load_params_fit own (sd : StateDict) k p t :
  size_mismatches own sd = [] →
  own !! k = Some p → sd !! k = Some t →
  load_params own sd !! k
  = Some {| data := t; requires_grad := requires_grad p |}.
Proof.
  intros Hnil Hp Ht. rewrite load_params_lookup, Hp, Ht. cbn.
  by rewrite (size_mismatches_nil own sd k p t).
Qed.

Lemma load_params_keep own (sd : StateDict) k p :
  own !! k = Some p → sd !! k = None → load_params own sd !! k = Some p.
Proof. intros Hp Hk. by rewrite load_params_lookup, Hp, Hk. Qed.

Lemma load_state_dict_nonstrict m sd :
  load_state_dict m sd false =
    ({| parameters := load_params (parameters m) sd;
        training := training m |}, None).
Proof. reflexivity. Qed.

Lemma load_state_dict_strict_ok m (sd : StateDict) :
  dom sd = dom (parameters m) →
  size_mismatches (parameters m) sd = [] →
  load_state_dict m sd true =
    ({| parameters := load_params (parameters m) sd;
        training := training m |}, None).
Proof.
  intros Hdom Hsz. unfold load_state_dict.
  assert (Hm : missing_keys (parameters m) sd = []).
  { apply filter_none. intros k Hk%elem_of_elements.
    rewrite <- Hdom in Hk. apply elem_of_dom in Hk as [t Ht]. by rewrite Ht. }
  assert (Hu : unexpected_keys (parameters m) sd = []).
  { apply filter_none. intros k Hk%elem_of_elements.
    rewrite Hdom in Hk. apply elem_of_dom in Hk as [t Ht]. by rewrite Ht. }
  rewrite Hm, Hu, Hsz. by rewrite bool_decide_eq_true_2.
Qed.


(** A strict load fails on a tensor of another size than its parameter. *)
Lemma load_state_dict_strict_mismatch m (sd : StateDict) k p t :
  parameters m !! k = Some p → sd !! k = Some t →
  length t ≠ length (data p) →
  ∃ mk uk sk,
    load_state_dict m sd true =
      ({| parameters := load_params (parameters m) sd;
          training := training m |}, Some (mk, uk, sk)) ∧
    k ∈ sk ∧
    parameters (load_state_dict m sd true).1 !! k = Some p.
Proof.
  intros Hp Ht Hlen. unfold load_state_dict.
  assert (Hfit : fits t p = false) by (by apply bool_decide_eq_false_2).
  assert (Hin : k ∈ size_mismatches (parameters m) sd).
  { apply list_elem_of_filter. split.
    - unfold mismatched. by rewrite Hp, Ht, Hfit.
    - apply elem_of_elements, elem_of_dom. eauto. }
  rewrite bool_decide_eq_false_2.
  - eexists _, _, _. split; [reflexivity|]. split; [done|]. cbn.
    by rewrite load_params_lookup, Hp, Ht; cbn; rewrite Hfit.
  - intros (_ & _ & Hnil). rewrite Hnil in Hin. by apply elem_of_nil in Hin.
Qed.

(** [load] as far as the optimizer: the model is restored, and the
    optimizer's own check decides. *)
Lemma load_optimizer_rejects path b w ckpt sd o :
  fs w !! path = Some ckpt →
  ckpt !! "model" = Some (VStateDict sd) →
  ckpt !! "optimizer" = Some (VOptState o) →
  optimizer_fits (optimizer (self w)) o = false →
  load path b w =
    Raise ValueError
      (mkWorld
         (set_model {| parameters := load_params (parameters (model (self w))) sd;
                       training := training (model (self w)) |} (self w))
         (fs w) (trace w)).
Proof.
  intros Hfs Hm Ho Hfit. unfold load. run. rewrite Hfs. run.
  rewrite Hm. run. rewrite load_state_dict_nonstrict. run.
  rewrite Ho. run. cbn [self optimizer set_model]. by rewrite Hfit.
Qed.

Lemma load_worker path b w ckpt sd o E :
  fs w !! path = Some ckpt →
  ckpt !! "model" = Some (VStateDict sd) →
  ckpt !! "optimizer" = Some (VOptState o) →
  ckpt !! "epoch" = Some (VInt E) →
  optimizer_fits (optimizer (self w)) o = true →
  is_main_process (accelerator (self w)) = false →
  load path b w =
    (if b then train_loop else mret tt)
      (mkWorld (restored (self w) sd o E) (fs w) (trace w)).
Proof.
  intros Hfs Hm Ho He Hfit Hmain. unfold load. run. rewrite Hfs. run.
  rewrite Hm. run. rewrite load_state_dict_nonstrict. run.
  rewrite Ho. run. cbn [self optimizer set_model]. rewrite Hfit. run.
  rewrite He. run.
  cbn [self accelerator set_start_epoch set_optimizer set_model].
  rewrite Hmain. run. reflexivity.
Qed.

Lemma load_main path b w ckpt sd o E em sde :
  fs w !! path = Some ckpt →
  ckpt !! "model" = Some (VStateDict sd) →
  ckpt !! "optimizer" = Some (VOptState o) →
  ckpt !! "epoch" = Some (VInt E) →
  optimizer_fits (optimizer (self w)) o = true →
  is_main_process (accelerator (self w)) = true →
  ema_model (self w) = Some em →
  ckpt !! "ema_model" = Some (VStateDict sde) →
  load path b w =
    match load_state_dict em sde true with
    | (em', None) =>
        (if b then train_loop else mret tt)
          (mkWorld (set_ema_model em' (restored (self w) sd o E))
             (fs w) (trace w))
    | (em', Some (mk, uk, sk)) =>
        Raise (RuntimeError mk uk sk)
          (mkWorld (set_ema_model em' (restored (self w) sd o E))
             (fs w) (trace w))
    end.
Proof.
  intros Hfs Hm Ho He Hfit Hmain Hem Hme. unfold load. run. rewrite Hfs. run.
  rewrite Hm. run. rewrite load_state_dict_nonstrict. run.
  rewrite Ho. run. cbn [self optimizer set_model]. rewrite Hfit. run.
  rewrite He. run.
  cbn [self accelerator ema_model set_start_epoch set_optimizer set_model].
  rewrite Hmain. run. rewrite Hem. run. rewrite Hme. run.
  destruct (load_state_dict em sde true) as [em' [[[mk uk] sk]|]]; by run.
Qed.

(** What the non-strict load does to the trained model, tensor sizes
    agreeing: a parameter named in the checkpoint takes the checkpoint's
    tensor, any other keeps its value, and no parameter is added or
    removed. *)
Lemma restored_model s (sd : StateDict) o E :
  size_mismatches (parameters (model s)) sd = [] →
  (∀ k p t, parameters (model s) !! k = Some p → sd !! k = Some t →
     parameters (model (restored s sd o E)) !! k
     = Some {| data := t; requires_grad := requires_grad p |}) ∧
  (∀ k p, parameters (model s) !! k = Some p → sd !! k = None →
     parameters (model (restored s sd o E)) !! k = Some p) ∧
  dom (parameters (model (restored s sd o E))) = dom (parameters (model s)).
Proof.
  intros Hsz. cbn. split_and!.
  - intros k p t Hp Ht. by apply load_params_fit.
  - intros k p Hp Hk. by apply load_params_keep.
  - apply set_eq. intros k. rewrite !elem_of_dom, load_params_lookup.
    by rewrite fmap_is_Some.
Qed.

(** C7: from a checkpoint file holding a state dict whose tensors have the
    sizes of the model's parameters, an optimizer state that fits the
    optimizer and an epoch number (and, on the main process, an EMA state
    dict with the names and sizes of the EMA model), [load] with the flag
    false returns having restored the model's parameters of the names in the
    checkpoint (the others keep their values), the optimizer state and the
    starting epoch, with no call made to any collaborator and no epoch run;
    with the flag true it is [train_loop] run from that same restored
    object, whose epochs therefore start at the stored epoch. *)
Theorem load_resumes w path ckpt sd o E :
  fs w !! path = Some ckpt →
  ckpt !! "model" = Some (VStateDict sd) →
  ckpt !! "optimizer" = Some (VOptState o) →
  ckpt !! "epoch" = Some (VInt E) →
  size_mismatches (parameters (model (self w))) sd = [] →
  optimizer_fits (optimizer (self w)) o = true →
  (is_main_process (accelerator (self w)) = true →
   ∃ em sde, ema_model (self w) = Some em ∧
             ckpt !! "ema_model" = Some (VStateDict sde) ∧
             dom sde = dom (parameters em) ∧
             size_mismatches (parameters em) sde = []) →
  ∃ w1,
    load path false w = Ok tt w1 ∧
    trace w1 = trace w ∧ fs w1 = fs w ∧
    (∀ k p t, parameters (model (self w)) !! k = Some p → sd !! k = Some t →
       parameters (model (self w1)) !! k
       = Some {| data := t; requires_grad := requires_grad p |}) ∧
    (∀ k p, parameters (model (self w)) !! k = Some p → sd !! k = None →
       parameters (model (self w1)) !! k = Some p) ∧
    dom (parameters (model (self w1))) = dom (parameters (model (self w))) ∧
    optimizer (self w1) = o ∧
    start_epoch (self w1) = E ∧
    epochs (self w1) = epochs (self w) ∧
    load path true w = train_loop w1.
Proof.
  intros Hfs Hm Ho He Hsz Hfit Hema.
  destruct (restored_model (self w) sd o E Hsz) as (Hload & Hkeep & Hdom).
  destruct (is_main_process (accelerator (self w))) eqn:Hmain.
  - destruct (Hema eq_refl) as (em & sde & Hem & Hme & Hdome & Hsze).
    rewrite !(load_main path _ w ckpt sd o E em sde) by done.
    rewrite (load_state_dict_strict_ok em sde Hdome Hsze).
    eexists. split; [reflexivity|]. by split_and!.
  - rewrite !(load_worker path _ w ckpt sd o E) by done.
    eexists. split; [reflexivity|]. by split_and!.
Qed.


(** ** The adapter export path *)

Lemma prefix_dslash_cons2 c d u :
  String.prefix "//" (String c (String d u)) =
  Ascii.eqb c "/" && Ascii.eqb d "/".
Proof.
  change (String.prefix "//" (String c (String d u))) with
    (match ascii_dec "/" c with
     | left _ => match ascii_dec "/" d with
                 | left _ => String.prefix "" u
                 | right _ => false
                 end
     | right _ => false
     end).
  destruct (ascii_dec "/" c) as [<-|Hc].
  - destruct (ascii_dec "/" d) as [<-|Hd]; [by destruct u|].
    symmetry. apply andb_false_iff. right. apply Ascii.eqb_neq. congruence.
  - symmetry. apply andb_false_iff. left. apply Ascii.eqb_neq. congruence.
Qed.

Lemma prefix_dslash_cons1 c : String.prefix "//" (String c "") = false.
Proof.
  change (String.prefix "//" (String c "")) with
    (match ascii_dec "/" c with left _ => false | right _ => false end).
  by destruct (ascii_dec "/" c).
Qed.

Lemma append_cons c u1 u2 : String c u1 +:+ u2 = String c (u1 +:+ u2).
Proof. reflexivity. Qed.

Lemma append_nil u : "" +:+ u = u.
Proof. reflexivity. Qed.

Lemma no_sep_app u1 u2 :
  PyStr.no_sep (u1 +:+ u2) = PyStr.no_sep u1 && PyStr.no_sep u2.
Proof.
  induction u1 as [|c u1 IH]; [done|].
  rewrite append_cons. cbn [PyStr.no_sep]. by rewrite IH, andb_assoc.
Qed.

Lemma no_double_sep_cons2 c d r :
  PyStr.no_double_sep (String c (String d r)) =
  negb (Ascii.eqb c "/" && Ascii.eqb d "/") && PyStr.no_double_sep (String d r).
Proof. reflexivity. Qed.

Lemma replace_scan_cons2 c d u :
  PyStr.replace_scan "//" "/" 0 (String c (String d u)) =
  if Ascii.eqb c "/" && Ascii.eqb d "/"
  then String "/" (PyStr.replace_scan "//" "/" 0 u)
  else String c (PyStr.replace_scan "//" "/" 0 (String d u)).
Proof.
  change (PyStr.replace_scan "//" "/" 0 (String c (String d u))) with
    (if String.prefix "//" (String c (String d u))
     then String "/" (PyStr.replace_scan "//" "/" 0 u)
     else String c (PyStr.replace_scan "//" "/" 0 (String d u))).
  by rewrite prefix_dslash_cons2.
Qed.

Lemma replace_scan_cons1 c :
  PyStr.replace_scan "//" "/" 0 (String c "") = String c "".
Proof.
  change (PyStr.replace_scan "//" "/" 0 (String c "")) with
    (if String.prefix "//" (String c "") then String "/" "" else String c "").
  by rewrite prefix_dslash_cons1.
Qed.

Lemma spec_collapse_seps_cons2 c d u :
  PyStr.spec_collapse_seps (String c (String d u)) =
  if Ascii.eqb c "/" && Ascii.eqb d "/"
  then PyStr.spec_collapse_seps (String d u)
  else String c (PyStr.spec_collapse_seps (String d u)).
Proof. reflexivity. Qed.

Lemma sep_runs_ok_cons k c u :
  PyStr.sep_runs_ok k (String c u) =
  if Ascii.eqb c "/"
  then (k <? 2)%nat && PyStr.sep_runs_ok (S k) u
  else PyStr.sep_runs_ok 0 u.
Proof. reflexivity. Qed.

Lemma length_cons c u : String.length (String c u) = S (String.length u).
Proof. reflexivity. Qed.

(** The pass keeps the first character. *)
Lemma replace_scan_first c u :
  ∃ r, PyStr.replace_scan "//" "/" 0 (String c u) = String c r.
Proof.
  destruct u as [|d u]; [rewrite replace_scan_cons1; eauto|].
  rewrite replace_scan_cons2.
  destruct (Ascii.eqb c "/") eqn:Hc; [|cbn [andb]; eauto].
  apply Ascii.eqb_eq in Hc as ->. destruct (Ascii.eqb d "/"); cbn [andb]; eauto.
Qed.

(** A separator in front of a string that starts with another character
    adds no doubled separator. *)
Lemma no_double_sep_cons_other c x r :
  Ascii.eqb c "/" && Ascii.eqb x "/" = false →
  PyStr.no_double_sep (String c (String x r)) =
  PyStr.no_double_sep (String x r).
Proof. intros Hcx. by rewrite no_double_sep_cons2, Hcx. Qed.

(** What one pass of [replace("//", "/")] achieves: the result has no
    doubled separator exactly when the input has no run of three or more,
    and then it is the input with its separators collapsed. *)
Lemma replace_scan_runs (n : nat) u :
  (String.length u ≤ n)%nat →
  PyStr.no_double_sep (PyStr.replace_scan "//" "/" 0 u)
    = PyStr.no_triple_sep u ∧
  (PyStr.no_triple_sep u = true →
   PyStr.replace_scan "//" "/" 0 u = PyStr.spec_collapse_seps u).
Proof.
  unfold PyStr.no_triple_sep. revert u.
  induction n as [|n IH]; intros u Hlen.
  { destruct u; [done|]. rewrite length_cons in Hlen.
    by apply Nat.nle_succ_0 in Hlen. }
  destruct u as [|c [|d u]].
  - done.
  - rewrite replace_scan_cons1, sep_runs_ok_cons.
    by destruct (Ascii.eqb c "/").
  - rewrite !length_cons in Hlen.
    rewrite replace_scan_cons2, spec_collapse_seps_cons2.
    rewrite (sep_runs_ok_cons 0 c).
    destruct (Ascii.eqb c "/") eqn:Hc; cbn [andb Nat.ltb Nat.leb].
    2:{ (* an ordinary character *)
      destruct (IH (String d u)) as [Hnd Hcol]; [rewrite ?length_cons in *; lia|].
      destruct (replace_scan_first d u) as [r Hr].
      rewrite Hr in Hnd |- *. rewrite no_double_sep_cons_other by (by rewrite Hc).
      split; [done|]. intros Hok. rewrite <- Hr. by rewrite Hcol. }
    rewrite (sep_runs_ok_cons 1 d).
    destruct (Ascii.eqb d "/") eqn:Hd; cbn [andb Nat.ltb Nat.leb].
    2:{ (* one separator, then an ordinary character *)
      destruct (IH (String d u)) as [Hnd Hcol]; [rewrite ?length_cons in *; lia|].
      rewrite (sep_runs_ok_cons 0 d), Hd in Hnd, Hcol.
      destruct (replace_scan_first d u) as [r Hr].
      rewrite Hr in Hnd |- *.
      rewrite no_double_sep_cons_other by (by rewrite Hd, andb_false_r).
      split; [done|]. intros Hok. rewrite <- Hr. by rewrite Hcol. }
    (* two separators: the pass emits one and goes on after them *)
    apply Ascii.eqb_eq in Hd as ->.
    destruct u as [|x u]; [done|].
    destruct (IH (String x u)) as [Hnd Hcol]; [rewrite ?length_cons in *; lia|].
    destruct (replace_scan_first x u) as [r Hr].
    rewrite Hr in Hnd |- *.
    rewrite (sep_runs_ok_cons 2 x). rewrite (sep_runs_ok_cons 0 x) in Hnd, Hcol.
    rewrite spec_collapse_seps_cons2, no_double_sep_cons2.
    change (Ascii.eqb "/" "/") with true. cbn [andb].
    destruct (Ascii.eqb x "/") eqn:Hx; cbn [andb negb Nat.ltb Nat.leb].
    + by split.
    + split; [done|]. intros Hok. rewrite <- Hr. by rewrite Hcol.
Qed.

Lemma no_sep_runs_ok k t :
  PyStr.no_sep t = true → PyStr.sep_runs_ok k t = true.
Proof.
  revert k. induction t as [|c t IH]; intros k; [done|].
  cbn [PyStr.no_sep]. intros [Hc Ht]%andb_true_iff.
  apply negb_true_iff in Hc. rewrite sep_runs_ok_cons, Hc. by apply IH.
Qed.

(** A name without separator after the joining separator adds no run. *)
Lemma sep_runs_ok_name k l t :
  PyStr.no_sep t = true →
  PyStr.sep_runs_ok k (l +:+ String "/" t) = PyStr.sep_runs_ok k (l +:+ "/").
Proof.
  intros Ht. revert k. induction l as [|c l IH]; intros k.
  - rewrite !append_nil, !sep_runs_ok_cons.
    change (Ascii.eqb "/" "/") with true. cbn iota.
    by rewrite (no_sep_runs_ok _ t Ht).
  - rewrite !append_cons, !sep_runs_ok_cons. by rewrite !IH.
Qed.

Lemma pretty_N_char_no_sep x : Ascii.eqb (pretty_N_char x) "/" = false.
Proof. unfold pretty_N_char. by repeat case_match. Qed.

Lemma pretty_N_go_no_sep x u :
  PyStr.no_sep u = true → PyStr.no_sep (pretty_N_go x u) = true.
Proof.
  revert u. induction (N.lt_wf_0 x) as [x _ IH]; intros u Hu.
  destruct (decide (x = 0)%N) as [->|Hx]; [by rewrite pretty_N_go_0|].
  rewrite pretty_N_go_step by lia. apply IH; [apply N.div_lt; lia|].
  cbn [PyStr.no_sep]. by rewrite pretty_N_char_no_sep, Hu.
Qed.

(** The decimal numeral of an integer has no separator. *)
Lemma str_no_sep (z : Z) : PyStr.no_sep (PyStr.str z) = true.
Proof.
  unfold PyStr.str, pretty, pretty_Z.
  destruct z as [|p|p]; [done| |];
    unfold pretty, pretty_positive, pretty, pretty_N;
    (destruct (decide _); [done|]).
  - by apply pretty_N_go_no_sep.
  - rewrite append_cons, append_nil. cbn [PyStr.no_sep].
    by rewrite pretty_N_go_no_sep.
Qed.

Lemma file_name_no_sep (e : Z) :
  PyStr.no_sep (PyStr.str e +:+ "_filepath.pth") = true.
Proof. by rewrite no_sep_app, str_no_sep. Qed.

(** C6, amended: [save_lora_model] hands the saver the pattern
    [{lora_path or "."}/{epoch}_filepath.pth] after one pass of
    [replace("//", "/")].  That path has no doubled separator exactly when
    [lora_path], followed by the joining separator, has no run of three or
    more separators, and it is then the pattern with its doubled separators
    collapsed; it is [./7_filepath.pth] for an empty [lora_path] at epoch 7
    and [out/7_filepath.pth] for [out/]. *)
Theorem adapter_export_path w f e :
  save_lora_function (self w) = Some f →
  let lp := lora_path (self w) in
  let p := PyStr.replace "//" "/"
             (lora_path_use lp +:+ "/" +:+ PyStr.str e +:+ "_filepath.pth") in
  ∃ w' seg,
    save_lora_model e w = Ok tt w' ∧
    trace w' = trace w ++ seg ∧
    filter (λ ev, is_adapter_export ev = true) seg =
      [ESaveLora f (model_model (model (self w))) p] ∧
    PyStr.no_double_sep p = PyStr.no_triple_sep (lora_path_use lp +:+ "/") ∧
    (PyStr.no_triple_sep (lora_path_use lp +:+ "/") = true →
     p = spec_export_path lp e) ∧
    (lp = "" → e = 7 → p = "./7_filepath.pth") ∧
    (lp = "out/" → e = 7 → p = "out/7_filepath.pth").
Proof.
  intros Hf lp p.
  set (pattern := lora_path_use lp +:+ "/" +:+ PyStr.str e +:+ "_filepath.pth").
  destruct (replace_scan_runs (String.length pattern) pattern (le_n _))
    as (Hnds & Hcollapse).
  assert (Hruns : PyStr.no_triple_sep pattern
                  = PyStr.no_triple_sep (lora_path_use lp +:+ "/")).
  { apply (sep_runs_ok_name 0 (lora_path_use lp)), file_name_no_sep. }
  eexists _, _. split_and!.
  - unfold save_lora_model. run. cbn [self fs trace]. rewrite Hf. run.
    reflexivity.
  - cbn [trace]. rewrite <- !app_assoc. reflexivity.
  - done.
  - by rewrite <- Hruns.
  - rewrite <- Hruns. exact Hcollapse.
  - subst p. intros -> ->. by vm_compute.
  - subst p. intros -> ->. by vm_compute.
Qed.

(** * Further properties of the code *)

(** ** Invariants of a run, however it ends *)

Lemma keeps_ret {A} I P (a : A) : keeps I P (mret a).
Proof. intros w HI. split; [done|]. exists []. by rewrite app_nil_r. Qed.

Lemma keeps_raise {A} I P x : keeps I P (raise (A:=A) x).
Proof. intros w HI. split; [done|]. exists []. by rewrite app_nil_r. Qed.

Lemma keeps_bind {A B} I P (m : M A) (f : A → M B) :
  keeps I P m → (∀ a, keeps I P (f a)) → keeps I P (m ≫= f).
Proof.
  intros Hm Hf w HI. destruct (Hm w HI) as (HI1 & seg1 & Htr1 & HP1).
  unfold mbind, M_bind. destruct (m w) as [a w1|x w1]; cbn [world_of] in *.
  - destruct (Hf a w1 HI1) as (HI2 & seg2 & Htr2 & HP2).
    split; [done|]. exists (seg1 ++ seg2).
    split; [by rewrite Htr2, Htr1, app_assoc | by apply Forall_app].
  - split; [done|]. by exists seg1.
Qed.

Lemma keeps_get_self {A} I P (f : TrainLoop → M A) :
  (∀ s, I s → keeps I P (f s)) → keeps I P (get_self ≫= f).
Proof. intros Hf w HI. unfold mbind, M_bind, get_self. by apply Hf. Qed.

Lemma keeps_modify_self I P (g : TrainLoop → TrainLoop) :
  (∀ s, I s → I (g s)) → keeps I P (modify_self g).
Proof.
  intros Hg w HI. split; [by apply Hg|]. exists []. cbn. by rewrite app_nil_r.
Qed.

Lemma keeps_emit I P ev : P ev → keeps I P (emit ev).
Proof.
  intros Hev w HI. split; [done|]. exists [ev]. split; [done|]. by constructor.
Qed.

Lemma keeps_lift_exn {A} I P (r : Exn + A) : keeps I P (lift_exn r).
Proof. destruct r; [apply keeps_raise | apply keeps_ret]. Qed.

Lemma keeps_attr {A} I P name (o : option A) : keeps I P (attr name o).
Proof. destruct o; [apply keeps_ret | apply keeps_raise]. Qed.

Lemma keeps_attr_bind {A B} I P name (o : option A) (f : A → M B) :
  (∀ a, o = Some a → keeps I P (f a)) → keeps I P (attr name o ≫= f).
Proof.
  intros Hf. destruct o as [a|].
  - intros w Hw. unfold mbind, M_bind, attr, mret, M_ret. by apply Hf.
  - intros w Hw. unfold mbind, M_bind, attr, raise. cbn.
    split; [done|]. exists []. by rewrite app_nil_r.
Qed.

Lemma keeps_get_self_at {A} I P (f : TrainLoop → M A) :
  (∀ w, keeps_at I P (f (self w)) w) → keeps I P (get_self ≫= f).
Proof. intros Hf w. unfold mbind, M_bind, get_self. apply Hf. Qed.

Lemma keeps_bind_at {A B} I P (m : M A) (f : A → M B) w :
  keeps_at I P m w → (∀ a, keeps I P (f a)) → keeps_at I P (m ≫= f) w.
Proof.
  intros Hm Hf HI. destruct (Hm HI) as (HI1 & seg1 & Htr1 & HP1).
  unfold mbind, M_bind. destruct (m w) as [a w1|x w1]; cbn [world_of] in *.
  - destruct (Hf a w1 HI1) as (HI2 & seg2 & Htr2 & HP2).
    split; [done|]. exists (seg1 ++ seg2).
    split; [by rewrite Htr2, Htr1, app_assoc | by apply Forall_app].
  - split; [done|]. by exists seg1.
Qed.

Lemma keeps_getitem I P d key : keeps I P (getitem d key).
Proof.
  unfold getitem. destruct (d !! key); [apply keeps_ret | apply keeps_raise].
Qed.

Lemma keeps_torch_load I P path : keeps I P (torch_load path).
Proof.
  intros w HI. unfold torch_load.
  destruct (fs w !! path); (split; [done|]); exists []; by rewrite app_nil_r.
Qed.

Lemma keeps_torch_save I P obj path :
  P (ETorchSave obj path) → keeps I P (torch_save obj path).
Proof.
  intros Hev w HI. split; [done|]. exists [ETorchSave obj path].
  split; [done|]. by constructor.
Qed.

Lemma keeps_for_each {A} I P (xs : list A) (body : A → M unit) :
  (∀ x, keeps I P (body x)) → keeps I P (for_each xs body).
Proof.
  intros Hb. induction xs as [|x xs IH]; [apply keeps_ret|].
  by apply keeps_bind.
Qed.

Section Keeps.

Variable I : TrainLoop → Prop.
Variable P : Event → Prop.
Hypothesis HI : stable I.
Hypothesis Hother : ∀ ev,
  is_log_call ev = false → is_sampler_call ev = false →
  is_metric_call ev = false → is_checkpoint_write ev = false →
  is_adapter_export ev = false → P ev.
Hypothesis Hlog : ∀ s loss epoch g, I s → P (ELog (log_values s loss epoch) g).
Hypothesis Hsample : ∀ s m, I s →
  P (ECreateSample m (numeric_to_tag (encode_data s))
       (cell_types (encode_data s)) (selective_sampling_number s)
       (py_int_truediv (num_sampling_to_compare_cells s) 10) 1).
Hypothesis Hmetric : ∀ s f, I s → metric_function s = Some f →
  P (EMetricFunction f [("input_fasta", VStr "synthetic_motifs.fasta")]).
Hypothesis Hsave : ∀ s em epoch, I s →
  P (ETorchSave (checkpoint_dict s em epoch)
       (checkpoint_path epoch (model_name s))).
Hypothesis Hexport : ∀ s f epoch, I s → save_lora_function s = Some f →
  P (ESaveLora f (model_model (model s))
       (lora_export_path (lora_path s) epoch)).

Ltac keeps_step :=
  first
    [ apply keeps_ret
    | apply keeps_raise
    | apply keeps_lift_exn
    | apply keeps_attr
    | apply keeps_getitem
    | apply keeps_torch_load
    | apply keeps_emit; by apply Hother
    | apply keeps_torch_save; by apply Hother
    | apply keeps_modify_self; intros ? ?; by apply HI ].

Lemma keeps_log_step loss epoch : keeps I P (log_step loss epoch).
Proof.
  unfold log_step. apply keeps_get_self. intros s Hs.
  destruct (is_main_process _); [|keeps_step].
  apply keeps_bind; [keeps_step|intros g]. apply keeps_emit.
  by apply (Hlog s loss epoch g).
Qed.

Lemma keeps_train_step batch : keeps I P (train_step batch).
Proof.
  unfold train_step. apply keeps_get_self. intros s Hs.
  apply keeps_bind; [keeps_step|intros _].
  destruct (optimizer_step _ _ _) as [o' ps'].
  apply keeps_bind; [keeps_step|intros _].
  apply keeps_bind; [keeps_step|intros _].
  apply keeps_bind; [keeps_step|intros _].
  apply keeps_get_self_at. intros w.
  apply keeps_bind_at;
    [|intros _; apply keeps_bind; [keeps_step|intros _; keeps_step]].
  intros Hw. destruct (is_main_process _); [|by apply keeps_ret].
  unfold mbind, M_bind, attr, raise, mret, M_ret.
  destruct (ema (self w)) as [x|] eqn:Hx;
    [|cbn; split; [done|]; exists []; by rewrite app_nil_r].
  destruct (ema_model (self w)) as [em|] eqn:Hem;
    [|cbn; split; [done|]; exists []; by rewrite app_nil_r].
  cbn. split; [by apply HI|]. exists []. by rewrite app_nil_r.
Qed.

Lemma keeps_batch_body epoch (sb : Z * Batch) : keeps I P (batch_body epoch sb).
Proof.
  unfold batch_body. apply keeps_get_self. intros s Hs.
  apply keeps_bind; [keeps_step|intros _].
  apply keeps_bind; [keeps_step|intros _].
  apply keeps_bind; [apply keeps_train_step|intros loss].
  apply keeps_get_self. intros s' Hs'.
  apply keeps_bind; [keeps_step|intros g].
  apply keeps_bind; [keeps_step|intros r].
  destruct (_ && _); [apply keeps_log_step | keeps_step].
Qed.

Lemma keeps_sample : keeps I P sample.
Proof.
  unfold sample.
  apply keeps_bind; [keeps_step|intros _].
  apply keeps_get_self. intros s Hs.
  do 4 (apply keeps_bind; [keeps_step|intros _]).
  apply keeps_bind; [apply keeps_emit; by apply Hsample|intros _].
  apply keeps_bind; [keeps_step|intros _].
  destruct (metric_function s) as [f|] eqn:Hf; [|keeps_step].
  apply keeps_emit. by apply (Hmetric s).
Qed.

Lemma keeps_save_model epoch : keeps I P (save_model epoch).
Proof.
  unfold save_model. apply keeps_get_self. intros s Hs.
  apply keeps_bind; [keeps_step|intros em].
  apply keeps_torch_save. by apply Hsave.
Qed.

Lemma keeps_save_lora_model epoch : keeps I P (save_lora_model epoch).
Proof.
  unfold save_lora_model. apply keeps_get_self. intros s Hs.
  apply keeps_bind; [keeps_step|intros _].
  apply keeps_bind; [|intros _; keeps_step].
  destruct (save_lora_function s) as [f|] eqn:Hf; [|keeps_step].
  apply keeps_emit. by apply (Hexport s).
Qed.

Lemma keeps_sampling_step epoch : keeps I P (sampling_step epoch).
Proof.
  unfold sampling_step. apply keeps_get_self. intros s Hs.
  apply keeps_bind; [keeps_step|intros r].
  destruct (_ && _); [apply keeps_sample | keeps_step].
Qed.

Lemma keeps_saving_step epoch : keeps I P (saving_step epoch).
Proof.
  unfold saving_step. apply keeps_get_self. intros s Hs.
  apply keeps_bind; [keeps_step|intros r].
  destruct (_ && _); [apply keeps_save_model | keeps_step].
Qed.

Lemma keeps_exporting_step epoch : keeps I P (exporting_step epoch).
Proof.
  unfold exporting_step. apply keeps_get_self. intros s Hs.
  destruct (save_lora_function s); [|keeps_step].
  apply keeps_bind; [keeps_step|intros r].
  destruct (_ && _); [apply keeps_save_lora_model | keeps_step].
Qed.

Lemma keeps_epoch_body epoch : keeps I P (epoch_body epoch).
Proof.
  unfold epoch_body.
  apply keeps_bind; [keeps_step|intros _].
  apply keeps_get_self. intros s Hs.
  apply keeps_bind; [apply keeps_for_each, keeps_batch_body|intros _].
  apply keeps_bind; [apply keeps_sampling_step|intros _].
  apply keeps_bind; [apply keeps_saving_step|intros _].
  apply keeps_exporting_step.
Qed.

Lemma keeps_train_loop : keeps I P train_loop.
Proof.
  unfold train_loop. apply keeps_get_self. intros s Hs.
  destruct (prepare _ _) as [[m o] dl].
  do 3 (apply keeps_bind; [keeps_step|intros _]).
  apply keeps_bind; [destruct (is_main_process _); keeps_step|intros _].
  apply keeps_get_self. intros s' Hs'.
  apply keeps_for_each, keeps_epoch_body.
Qed.

Hypothesis HL : stable_load I.

Lemma keeps_load path b : keeps I P (load path b).
Proof.
  unfold load.
  apply keeps_bind; [keeps_step|intros ckpt].
  apply keeps_bind; [keeps_step|intros v].
  apply keeps_bind; [destruct v; keeps_step|intros sd].
  apply keeps_get_self. intros s Hs.
  apply keeps_bind.
  { destruct (load_state_dict _ _ _) as [m' [[[mk uk] sk]|]]; [|keeps_step].
    apply keeps_bind; [keeps_step|intros _; keeps_step]. }
  intros _.
  apply keeps_bind; [keeps_step|intros v'].
  apply keeps_bind; [destruct v'; keeps_step|intros o].
  apply keeps_get_self. intros s1 Hs1.
  apply keeps_bind; [destruct (optimizer_fits _ _); keeps_step|intros _].
  apply keeps_bind; [keeps_step|intros v''].
  apply keeps_bind; [destruct v''; keeps_step|intros E].
  apply keeps_bind;
    [apply keeps_modify_self; intros ? ?; by apply HL|intros _].
  apply keeps_get_self_at. intros w.
  apply keeps_bind_at;
    [|intros _; destruct b; [apply keeps_train_loop | keeps_step]].
  intros Hw. destruct (is_main_process _); [|by apply keeps_ret].
  unfold mbind, M_bind, attr, raise, mret, M_ret.
  destruct (ema_model (self w)) as [em|] eqn:Hem;
    [|cbn; split; [done|]; exists []; by rewrite app_nil_r].
  unfold getitem, raise, mret, M_ret.
  destruct (ckpt !! "ema_model") as [v3|];
    [|cbn; split; [done|]; exists []; by rewrite app_nil_r].
  destruct v3; try (cbn; split; [done|]; exists []; by rewrite app_nil_r).
  pose proof (proj2 HL (self w) em sd0 Hw Hem) as Hnew.
  destruct (load_state_dict em sd0 true) as [em' [[[mk uk] sk]|]];
    cbn in *; (split; [done|]); exists []; by rewrite app_nil_r.
Qed.

End Keeps.

(** The object alone: what every assignment of the methods preserves holds
    after [train_loop] and after [load], however they end. *)
Lemma keeps_train_loop_self (I : TrainLoop → Prop) w :
  stable I → I (self w) → I (self (world_of (train_loop w))).
Proof.
  intros HI Hw.
  by apply (keeps_train_loop I (λ _, True) HI (λ _ _ _ _ _ _, Logic.I)
              (λ _ _ _ _ _, Logic.I) (λ _ _ _, Logic.I)
              (λ _ _ _ _, Logic.I) (λ _ _ _ _, Logic.I)
              (λ _ _ _ _ _, Logic.I) w).
Qed.

Lemma keeps_load_self (I : TrainLoop → Prop) path b w :
  stable I → stable_load I → I (self w) →
  I (self (world_of (load path b w))).
Proof.
  intros HI HL Hw.
  by apply (keeps_load I (λ _, True) HI (λ _ _ _ _ _ _, Logic.I)
              (λ _ _ _ _ _, Logic.I) (λ _ _ _, Logic.I)
              (λ _ _ _ _, Logic.I) (λ _ _ _ _, Logic.I)
              (λ _ _ _ _ _, Logic.I) HL path b w).
Qed.

Lemma stable_config (c : _) (e : Z) :
  stable (λ s, config s = c ∧ start_epoch s = e).
Proof. by split_and!. Qed.

Lemma stable_config_only (c : _) : stable (λ s, config s = c).
Proof. by split_and!. Qed.

Lemma stable_load_config (c : _) : stable_load (λ s, config s = c).
Proof. by split_and!. Qed.

(** X1: the attributes that configure a run are read-only: [train_loop],
    however it ends, leaves them and the starting epoch as they were, and
    [load] leaves them as they were (it assigns the starting epoch). *)
Theorem config_read_only w path b :
  config (self (world_of (train_loop w))) = config (self w) ∧
  start_epoch (self (world_of (train_loop w))) = start_epoch (self w) ∧
  config (self (world_of (load path b w))) = config (self w).
Proof.
  split_and!.
  - by apply (keeps_train_loop_self _ w
                (stable_config (config (self w)) (start_epoch (self w)))).
  - by apply (keeps_train_loop_self _ w
                (stable_config (config (self w)) (start_epoch (self w)))).
  - by apply (keeps_load_self _ path b w
                (stable_config_only (config (self w)))
                (stable_load_config (config (self w)))).
Qed.

Lemma stable_metrics (c : Z * Z * Z * Z) : stable (λ s, metrics s = c).
Proof. by split_and!. Qed.

Lemma stable_load_metrics (c : Z * Z * Z * Z) :
  stable_load (λ s, metrics s = c).
Proof. by split_and!. Qed.

Lemma log_values_ok (c : Z * Z * Z * Z) s loss epoch g :
  metrics s = c → log_record_ok c (ELog (log_values s loss epoch) g).
Proof.
  intros <-. unfold log_record_ok, log_values, metrics. cbn [fst snd].
  split_and!; [|by simplify_map_eq..].
  rewrite !dom_insert_L, dom_empty_L. set_solver.
Qed.

Lemma other_events_ok (c : Z * Z * Z * Z) ev :
  is_log_call ev = false → is_sampler_call ev = false →
  is_metric_call ev = false → is_checkpoint_write ev = false →
  is_adapter_export ev = false → log_record_ok c ev.
Proof. by destruct ev. Qed.

(** X2: the four rolling metrics are never recomputed: a run started by
    [train_loop] or resumed by [load], however it ends, leaves them as they
    were, and every record it logs has exactly the keys train, test,
    shuffle, loss, epoch and seq_similarity and carries those same metric
    values. *)
Theorem metrics_are_placeholders w path b :
  let c := metrics (self w) in
  ∀ w', w' = world_of (train_loop w) ∨ w' = world_of (load path b w) →
    metrics (self w') = c ∧
    ∃ seg, trace w' = trace w ++ seg ∧ Forall (log_record_ok c) seg.
Proof.
  intros c w' [-> | ->].
  - apply (keeps_train_loop _ (log_record_ok c) (stable_metrics c)
             (other_events_ok c) (log_values_ok c) (λ _ _ _, Logic.I)
             (λ _ _ _ _, Logic.I) (λ _ _ _ _, Logic.I)
             (λ _ _ _ _ _, Logic.I) w). done.
  - apply (keeps_load _ (log_record_ok c) (stable_metrics c)
             (other_events_ok c) (log_values_ok c) (λ _ _ _, Logic.I)
             (λ _ _ _ _, Logic.I) (λ _ _ _ _, Logic.I)
             (λ _ _ _ _ _, Logic.I) (stable_load_metrics c) path b w). done.
Qed.

Lemma dom_step_ema x em cur :
  dom (parameters (step_ema x em cur)) = dom (parameters em).
Proof.
  apply set_eq. intros k. rewrite !elem_of_dom. unfold step_ema.
  cbn [parameters]. rewrite map_lookup_imap.
  destruct (parameters em !! k); cbn; split; intros [? ?]; eauto; done.
Qed.

Lemma dom_load_params own (sd : StateDict) :
  dom (load_params own sd) = dom own.
Proof.
  apply set_eq. intros k. rewrite !elem_of_dom, load_params_lookup.
  destruct (own !! k); cbn; split; intros [? ?]; eauto; done.
Qed.

Lemma stable_ema_frozen D : stable (ema_frozen D).
Proof.
  split_and!; try (by intros ? s (em & ? & ? & ? & ?); exists em).
  intros s x em cur (em0 & Hem0 & Htr & Hdom & Hgrad) _ Hem.
  rewrite Hem in Hem0. injection Hem0 as <-.
  eexists. split; [reflexivity|]. split_and!.
  - done.
  - by rewrite dom_step_ema.
  - intros k p. unfold step_ema. cbn [parameters].
    rewrite map_lookup_imap.
    destruct (parameters em !! k) as [shadow|] eqn:Hk; cbn; [|done].
    specialize (Hgrad k shadow Hk). cbn in Hgrad.
    destruct (parameters cur !! k); intros [= <-]; done.
Qed.

Lemma stable_load_ema_frozen D : stable_load (ema_frozen D).
Proof.
  split.
  - by intros ? s (em & ? & ? & ? & ?); exists em.
  - intros s em sd (em0 & Hem0 & Htr & Hdom & Hgrad) Hem.
    rewrite Hem in Hem0. injection Hem0 as <-.
    assert (Hfst : (load_state_dict em sd true).1 =
                   {| parameters := load_params (parameters em) sd;
                      training := training em |}).
    { unfold load_state_dict. by destruct (_ && _). }
    rewrite Hfst. eexists. split; [reflexivity|]. split_and!.
    + done.
    + cbn [parameters]. by rewrite dom_load_params.
    + intros k p. cbn [parameters]. rewrite load_params_lookup.
      destruct (parameters em !! k) as [shadow|] eqn:Hk; cbn; [|done].
      specialize (Hgrad k shadow Hk). cbn in Hgrad.
      destruct (sd !! k) as [t|]; [destruct (fits t shadow)|];
        intros [= <-]; done.
Qed.

(** X3: the EMA model stays frozen: if it is in evaluation mode, tracks no
    gradient and has the parameter names [D], then after a run started by
    [train_loop] or resumed by [load], however it ends, it is still in
    evaluation mode, tracks no gradient and has the names [D]. *)
Theorem ema_model_stays_frozen D w path b :
  ema_frozen D (self w) →
  ema_frozen D (self (world_of (train_loop w))) ∧
  ema_frozen D (self (world_of (load path b w))).
Proof.
  intros Hw. split.
  - by apply (keeps_train_loop_self _ w (stable_ema_frozen D)).
  - by apply (keeps_load_self _ path b w (stable_ema_frozen D)
                (stable_load_ema_frozen D)).
Qed.

Lemma stable_no_ema : stable (λ s, ema_model s = None).
Proof.
  split_and!; try done. intros s x em cur Hs _ Hem. congruence.
Qed.

Lemma stable_load_no_ema : stable_load (λ s, ema_model s = None).
Proof. split; [done|]. intros s em sd Hs Hem. congruence. Qed.

(** X4: an object without EMA model, as the constructor builds on every
    process but the main one, never gets one: after [train_loop] or [load],
    however they end, the attribute is still absent. *)
Theorem no_ema_model_is_created w path b :
  ema_model (self w) = None →
  ema_model (self (world_of (train_loop w))) = None ∧
  ema_model (self (world_of (load path b w))) = None.
Proof.
  intros Hw. split.
  - by apply (keeps_train_loop_self _ w stable_no_ema).
  - by apply (keeps_load_self _ path b w stable_no_ema stable_load_no_ema).
Qed.

(** ** The logging schedule *)

Lemma log_steps_app (t1 t2 : list Event) :
  log_steps (t1 ++ t2) = log_steps t1 ++ log_steps t2.
Proof. unfold log_steps. apply omap_app. Qed.

Lemma log_steps_none seg :
  Forall (λ ev, is_log_call ev = false) seg → log_steps seg = [].
Proof.
  induction 1 as [|ev seg Hev _ IH]; [done|].
  change (log_steps (ev :: seg)) with (log_steps ([ev] ++ seg)).
  rewrite log_steps_app, IH. by destruct ev.
Qed.

Lemma log_step_run loss epoch w g :
  global_step (self w) = Some g →
  log_step loss epoch w =
    Ok tt (mkWorld (self w) (fs w)
             (trace w ++
              if is_main_process (accelerator (self w))
              then [ELog (log_values (self w) loss epoch) g] else [])).
Proof.
  intros Hg. unfold log_step. run. rewrite Hg.
  destruct (is_main_process _); [done|]. rewrite app_nil_r. by destruct w.
Qed.

(** One iteration of the inner loop logs its step iff the step is a
    multiple of [log_step_show] and the process is the main one. *)
Lemma batch_body_logs epoch (sb : Z * Batch) w :
  main_attrs (self w) →
  log_step_show (self w) ≠ 0 →
  let g := epoch * Z.of_nat (length (train_dl (self w))) + sb.1 in
  ∃ w' seg,
    batch_body epoch sb w = Ok tt w' ∧
    trace w' = trace w ++ seg ∧
    log_steps seg =
      if (g `mod` log_step_show (self w) =? 0)
         && is_main_process (accelerator (self w))
      then [g] else [].
Proof.
  intros Hattrs Hshow g. unfold batch_body. fold g.
  set (w1 := mkWorld (set_global_step g (self w)) (fs w)
               (trace w ++ [EGlobalStep g])).
  destruct (train_step_ok sb.2 w1)
    as (loss & w2 & Hts & Hfr & Hat & Hgs & Hfs & Htr); [exact Hattrs|].
  apply frozen_inv in Hfr as (Hacc & _ & Hshow2 & _).
  change (accelerator (self w1)) with (accelerator (self w)) in Hacc.
  change (log_step_show (self w1)) with (log_step_show (self w)) in Hshow2.
  run. fold g. cbn [self fs trace].
  change (train_step sb.2 {| self := _; fs := _; trace := _ |})
    with (train_step sb.2 w1).
  rewrite Hts. run. rewrite Hgs. cbn [global_step set_global_step w1 self].
  unfold py_mod. rewrite Hshow2.
  destruct (Z.eqb_spec (log_step_show (self w)) 0) as [?|_]; [done|]. run.
  rewrite Hacc.
  destruct ((g `mod` log_step_show (self w) =? 0)
            && is_main_process (accelerator (self w))) eqn:Hc.
  - rewrite (log_step_run loss epoch w2 g) by (by rewrite Hgs).
    apply andb_true_iff in Hc as [_ Hmain]. rewrite Hacc, Hmain.
    eexists _, _. split; [reflexivity|]. cbn [trace].
    rewrite Htr. cbn [w1 trace]. rewrite <- !app_assoc.
    split; [reflexivity|]. done.
  - eexists _, _. split; [reflexivity|].
    rewrite Htr. cbn [w1 trace]. rewrite <- !app_assoc.
    split; [reflexivity|]. done.
Qed.

Lemma bind_filter_steps {A} (f : A → Z) (d : Z) (c : bool) (l : list A) :
  l ≫= (λ x, if (f x `mod` d =? 0) && c then [f x] else [])
  = if c then filter (λ g, g `mod` d = 0) (f <$> l) else [].
Proof.
  induction l as [|x l IH]; [by destruct c|].
  cbn [mbind list_bind fmap list_fmap]. rewrite IH. destruct c.
  - rewrite andb_true_r. rewrite filter_cons.
    destruct (Z.eqb_spec (f x `mod` d) 0); by case_decide.
  - by rewrite andb_false_r.
Qed.

Lemma batches_logs epoch w :
  main_attrs (self w) →
  log_step_show (self w) ≠ 0 →
  ∃ w' seg,
    for_each (enumerate (train_dl (self w))) (batch_body epoch) w = Ok tt w' ∧
    trace w' = trace w ++ seg ∧
    log_steps seg =
      epoch_log_steps (self w) (length (train_dl (self w))) epoch.
Proof.
  intros Hattrs Hshow.
  set (n := length (train_dl (self w))).
  destruct (for_each_ok (enumerate (train_dl (self w))) (batch_body epoch)
    (λ pre w',
       frozen (self w') = frozen (self w) ∧ main_attrs (self w') ∧
       ∃ seg, trace w' = trace w ++ seg ∧
         log_steps seg =
           pre ≫= (λ sb, if ((epoch * Z.of_nat n + sb.1)
                               `mod` log_step_show (self w) =? 0)
                            && is_main_process (accelerator (self w))
                         then [epoch * Z.of_nat n + sb.1] else [])) w)
    as (w' & Hrun & _ & _ & seg & Htr & Hlogs).
  - split_and!; [done..|]. exists []. by rewrite app_nil_r.
  - intros pre sb w1 (Hfr & Hat & seg & Htr & Hlogs).
    pose proof (frozen_inv _ _ Hfr) as (Hacc & _ & Hls & _ & _ & _ & _ & _ & Hdl & _).
    destruct (batch_body_ok epoch sb w1)
      as (w2 & seg2 & Hb & Hfr2 & Hat2 & _ & Htr2 & _ & _);
      [done | by rewrite Hls |].
    destruct (batch_body_logs epoch sb w1)
      as (w2' & seg2' & Hb' & Htr2' & Hlogs2); [done | by rewrite Hls |].
    rewrite Hb in Hb'. injection Hb' as <-.
    exists w2. split; [done|].
    split; [by rewrite Hfr2 | split; [exact Hat2|]].
    exists (seg ++ seg2'). split; [by rewrite Htr2', Htr, app_assoc|].
    rewrite log_steps_app, Hlogs, Hlogs2, Hdl, Hls, Hacc.
    rewrite bind_app. cbn [mbind list_bind]. by rewrite app_nil_r.
  - exists w', seg. split_and!; [done..|].
    rewrite Hlogs. unfold epoch_log_steps.
    rewrite (bind_filter_steps (λ sb : Z * Batch, epoch * Z.of_nat n + sb.1)).
    subst n. by rewrite enumerate_steps.
Qed.

Lemma trivially_stable : stable (λ _, True).
Proof. by split_and!. Qed.

(** The three periodic actions log nothing. *)
Lemma epoch_tail_logs epoch w :
  ∃ seg,
    trace (world_of ((sampling_step epoch;; saving_step epoch;;
                      exporting_step epoch) w)) = trace w ++ seg ∧
    log_steps seg = [].
Proof.
  assert (Hk : keeps (λ _, True) (λ ev, is_log_call ev = false)
                 (sampling_step epoch;; saving_step epoch;;
                  exporting_step epoch)).
  { apply keeps_bind; [|intros _; apply keeps_bind; [|intros _]].
    - apply keeps_sampling_step; (apply trivially_stable || done).
    - apply keeps_saving_step; (apply trivially_stable || done).
    - apply keeps_exporting_step; (apply trivially_stable || done). }
  destruct (Hk w Logic.I) as (_ & seg & Htr & Hseg).
  exists seg. split; [done|]. by apply log_steps_none.
Qed.

Lemma epoch_body_logs epoch w :
  main_attrs (self w) →
  intervals_ok (self w) →
  ∃ w' seg,
    epoch_body epoch w = Ok tt w' ∧
    frozen (self w') = frozen (self w) ∧
    main_attrs (self w') ∧
    trace w' = trace w ++ seg ∧
    log_steps seg =
      epoch_log_steps (self w) (length (train_dl (self w))) epoch.
Proof.
  intros Hattrs Hint.
  destruct (epoch_body_ok epoch w Hattrs Hint)
    as (w' & seg & Hrun & Hfr & Hat & Htr & _ & _).
  exists w', seg. split_and!; [done..|].
  set (w0 := mkWorld (set_model (train (model (self w))) (self w))
               (fs w) (trace w)).
  destruct (batches_logs epoch w0) as (w1 & seg1 & Hb & Htr1 & Hlogs1);
    [exact Hattrs | apply Hint |].
  destruct (epoch_tail_logs epoch w1) as (seg2 & Htr2 & Hlogs2).
  assert (Hsame : epoch_body epoch w =
            (sampling_step epoch;; saving_step epoch;; exporting_step epoch) w1).
  { unfold epoch_body. run. fold w0.
    change (train_dl (set_model (train (model (self w))) (self w)))
      with (train_dl (self w0)).
    by rewrite Hb. }
  rewrite <- Hsame, Hrun in Htr2. cbn [world_of] in Htr2.
  rewrite Htr1 in Htr2. cbn [w0 trace] in Htr2.
  rewrite Htr, <- app_assoc in Htr2. apply app_inv_head in Htr2 as ->.
  rewrite log_steps_app, Hlogs1, Hlogs2, app_nil_r. done.
Qed.

Lemma bind_epoch_log_steps s n (es : list Z) :
  es ≫= epoch_log_steps s n =
  if is_main_process (accelerator s)
  then filter (λ g, g `mod` log_step_show s = 0) (run_steps n es)
  else [].
Proof.
  unfold epoch_log_steps, run_steps. destruct (is_main_process _).
  - induction es as [|e es IH]; [done|].
    cbn [mbind list_bind]. by rewrite filter_app, IH.
  - by induction es.
Qed.

(** X5: over a complete run, records are logged exactly at the global steps
    that are multiples of [log_step_show], in increasing order, on the main
    process; other processes log nothing. *)
Theorem log_schedule w :
  main_attrs (self w) →
  intervals_ok (self w) →
  let n := batches_per_epoch (self w) in
  let es := range (start_epoch (self w)) (epochs (self w) + 1) in
  ∃ w',
    train_loop w = Ok tt w' ∧
    log_steps (trace w') =
      log_steps (trace w) ++
      if is_main_process (accelerator (self w))
      then filter (λ g, g `mod` log_step_show (self w) = 0) (run_steps n es)
      else [].
Proof.
  intros Hattrs Hint n es.
  destruct (train_loop_ok w Hattrs Hint) as (w' & segs & Hrun & _ & _).
  exists w'. split; [exact Hrun|].
  revert Hrun. subst n es. unfold train_loop, batches_per_epoch. run.
  destruct (prepare _ _) as [[m o] dl] eqn:Hprep. cbn [snd]. run.
  cbn [self fs trace].
  set (s0 := set_train_dl dl (set_optimizer o (set_model m (self w)))).
  set (w0 := mkWorld s0 (fs w) (trace w ++ init_events (self w))).
  intros Hrun.
  assert (Hrun0 : for_each (range (start_epoch (self w0)) (epochs (self w0) + 1))
                    epoch_body w0 = Ok tt w').
  { rewrite <- Hrun. unfold w0, init_events.
    destruct (is_main_process _); [done|]. by rewrite app_nil_r. }
  clear Hrun.
  destruct (for_each_ok (range (start_epoch (self w0)) (epochs (self w0) + 1))
    epoch_body
    (λ pre w1,
       frozen (self w1) = frozen (self w0) ∧ main_attrs (self w1) ∧
       log_steps (trace w1) =
         log_steps (trace w0) ++ (pre ≫= epoch_log_steps s0 (length dl))) w0)
    as (w1 & Hrun1 & _ & _ & Hlogs).
  - split_and!; [done | done |]. cbn. by rewrite app_nil_r.
  - intros pre e w1 (Hfr & Hat & Hlogs).
    destruct (epoch_body_logs e w1)
      as (w2 & seg & Hb & Hfr2 & Hat2 & Htr2 & Hlogs2);
      [done | by apply (frozen_intervals s0) |].
    exists w2. split; [done|].
    split; [by rewrite Hfr2 | split; [exact Hat2|]].
    rewrite Htr2, log_steps_app, Hlogs, Hlogs2, <- app_assoc. f_equal.
    rewrite bind_app. cbn [mbind list_bind]. rewrite app_nil_r. f_equal.
    apply frozen_inv in Hfr as (Hacc & _ & Hls & _ & _ & _ & _ & _ & Hdl & _).
    unfold epoch_log_steps. by rewrite Hacc, Hls, Hdl.
  - rewrite Hrun0 in Hrun1. injection Hrun1 as <-.
    rewrite Hlogs. cbn [w0 trace]. rewrite log_steps_app.
    rewrite bind_epoch_log_steps. rewrite <- app_assoc. f_equal.
    assert (Hinit : log_steps (init_events (self w)) = []).
    { unfold init_events. by destruct (is_main_process _). }
    by rewrite Hinit.
Qed.

(** ** Edge cases and errors of the loop *)

Lemma train_loop_unfold w :
  train_loop w =
  for_each (range (start_epoch (self w)) (epochs (self w) + 1)) epoch_body
    (mkWorld (prepared (self w)) (fs w) (trace w ++ init_events (self w))).
Proof.
  unfold train_loop, prepared, init_events. run.
  destruct (prepare _ _) as [[m o] dl]. run. cbn [self fs trace].
  destruct (is_main_process _); [done|]. by rewrite app_nil_r.
Qed.

Lemma range_cons (a b : Z) : a < b → range a b = a :: range (a + 1) b.
Proof.
  intros Hab. unfold range. rewrite seqZ_cons by lia. do 2 f_equal; lia.
Qed.

(** X6: when the starting epoch is past the last one (a checkpoint of a
    longer run, say), [train_loop] prepares the objects, initialises the
    trackers on the main process and returns: no epoch runs, no gradient
    step, and no division is evaluated, so even zero intervals do not
    raise. *)
Theorem train_loop_no_epoch w :
  epochs (self w) < start_epoch (self w) →
  train_loop w =
    Ok tt (mkWorld (prepared (self w)) (fs w)
             (trace w ++ init_events (self w))).
Proof.
  intros Hlt. rewrite train_loop_unfold. unfold range.
  by rewrite seqZ_nil by lia.
Qed.

Lemma prepared_frozen_fields s :
  accelerator (prepared s) = accelerator s ∧
  log_step_show (prepared s) = log_step_show s ∧
  sample_epoch (prepared s) = sample_epoch s ∧
  ema (prepared s) = ema s ∧ ema_model (prepared s) = ema_model s ∧
  train_dl (prepared s) =
    (prepare (accelerator s) (model s, optimizer s, train_dl s)).2.
Proof. unfold prepared. by destruct (prepare _ _) as [[m o] dl]. Qed.

(** X7: with [sample_epoch = 0] the loop stops at the end of its first
    epoch with [ZeroDivisionError], on every process (the modulo is
    evaluated before the main-process test): the gradient steps of that
    epoch were made, nothing was sampled, saved or exported. *)
Theorem zero_sample_epoch_raises w :
  main_attrs (self w) →
  log_step_show (self w) ≠ 0 →
  sample_epoch (self w) = 0 →
  start_epoch (self w) ≤ epochs (self w) →
  ∃ w' seg,
    train_loop w = Raise ZeroDivisionError w' ∧
    fs w' = fs w ∧
    trace w' = trace w ++ init_events (self w) ++ seg ∧
    plain seg ∧
    global_steps seg =
      epoch_steps (batches_per_epoch (self w)) (start_epoch (self w)).
Proof.
  intros Hattrs Hshow Hzero Hle. rewrite train_loop_unfold.
  rewrite range_cons by lia. rewrite for_each_cons.
  destruct (prepared_frozen_fields (self w))
    as (Hacc & Hls & Hse & Hema & Hem & Hdl).
  set (w0 := mkWorld (prepared (self w)) (fs w)
               (trace w ++ init_events (self w))).
  set (w1 := mkWorld (set_model (train (model (self w0))) (self w0))
               (fs w0) (trace w0)).
  destruct (batches_ok (start_epoch (self w)) w1)
    as (w2 & seg & Hb & Hfr & Hat & Hfs & Htr & Hpl & Hgs).
  { unfold main_attrs. cbn. by rewrite Hacc, Hema, Hem. }
  { cbn. by rewrite Hls. }
  apply frozen_inv in Hfr as (_ & _ & _ & Hse2 & _).
  assert (Hrun : epoch_body (start_epoch (self w)) w0
                 = Raise ZeroDivisionError w2).
  { unfold epoch_body. run. fold w1.
    change (train_dl (set_model (train (model (self w0))) (self w0)))
      with (train_dl (self w1)).
    rewrite Hb. unfold sampling_step, py_mod. run.
    rewrite Hse2. cbn. by rewrite Hse, Hzero. }
  rewrite Hrun. exists w2, seg. split_and!; [done| | |done|].
  - by rewrite Hfs.
  - rewrite Htr. cbn. by rewrite <- app_assoc.
  - rewrite Hgs. cbn. unfold batches_per_epoch. by rewrite Hdl.
Qed.

(** X8: with [log_step_show = 0] and a data loader that is not empty, the
    loop stops in its first batch with [ZeroDivisionError], on every
    process, after the gradient step of that batch was made. *)
Theorem zero_log_step_show_raises w :
  main_attrs (self w) →
  log_step_show (self w) = 0 →
  start_epoch (self w) ≤ epochs (self w) →
  (0 < batches_per_epoch (self w))%nat →
  ∃ w',
    train_loop w = Raise ZeroDivisionError w' ∧
    fs w' = fs w ∧
    trace w' =
      trace w ++ init_events (self w) ++
      [EGlobalStep
         (start_epoch (self w) * Z.of_nat (batches_per_epoch (self w)));
       EWaitForEveryone; EWaitForEveryone; EWaitForEveryone].
Proof.
  intros Hattrs Hzero Hle Hn. rewrite train_loop_unfold.
  rewrite range_cons by lia. rewrite for_each_cons.
  destruct (prepared_frozen_fields (self w))
    as (Hacc & Hls & Hse & Hema & Hem & Hdl).
  unfold batches_per_epoch in *. rewrite <- Hdl in *. clear Hdl.
  destruct (train_dl (prepared (self w))) as [|batch dl] eqn:Hdl0;
    [cbn in Hn; lia|].
  set (w0 := mkWorld (prepared (self w)) (fs w)
               (trace w ++ init_events (self w))).
  set (e := start_epoch (self w)).
  set (g := e * Z.of_nat (length (batch :: dl)) + 0).
  set (w1 := mkWorld (set_model (train (model (self w0))) (self w0))
               (fs w0) (trace w0)).
  set (w2 := mkWorld (set_global_step g (self w1)) (fs w1)
               (trace w1 ++ [EGlobalStep g])).
  destruct (train_step_ok batch w2)
    as (loss & w3 & Hts & Hfr & Hat & Hgs & Hfs & Htr).
  { unfold main_attrs. cbn. by rewrite Hacc, Hema, Hem. }
  apply frozen_inv in Hfr as (_ & _ & Hls3 & _).
  assert (Hbatch : batch_body e (0, batch) w1 = Raise ZeroDivisionError w3).
  { unfold batch_body. run. cbn [fst snd].
    change (train_dl (self w1)) with (train_dl (prepared (self w))).
    rewrite Hdl0. fold g.
    change (train_step batch {| self := _; fs := _; trace := _ |})
      with (train_step batch w2).
    rewrite Hts. run. rewrite Hgs. cbn [global_step set_global_step w2 self].
    unfold py_mod. rewrite Hls3.
    change (log_step_show (self w2)) with (log_step_show (prepared (self w))).
    by rewrite Hls, Hzero. }
  assert (Hrun : epoch_body e w0 = Raise ZeroDivisionError w3).
  { unfold epoch_body. run. fold w1.
    change (train_dl (self w1)) with (train_dl (prepared (self w))).
    rewrite Hdl0. unfold enumerate. cbn [enumerate_from].
    rewrite for_each_cons. by rewrite Hbatch. }
  rewrite Hrun. exists w3. split_and!; [done| |].
  - by rewrite Hfs.
  - rewrite Htr. cbn [w2 w1 w0 trace fs]. rewrite <- !app_assoc. cbn [app].
    subst g. by rewrite Z.add_0_r.
Qed.

(** ** Direct calls and failed loads *)

(** [save_lora_model] without a saver creates the directory first and
    raises [TypeError] only then. *)
Lemma save_lora_model_without_saver epoch w :
  save_lora_function (self w) = None →
  save_lora_model epoch w =
    Raise TypeError
      (mkWorld (self w) (fs w)
         (trace w ++ [EMkdir (lora_path_use (lora_path (self w)))])).
Proof.
  intros Hf. unfold save_lora_model. run. cbn [self fs trace]. by rewrite Hf.
Qed.

(** X9: [log_step] on a freshly constructed object, before any training
    step has assigned [global_step], raises [AttributeError] on the main
    process and returns silently on any other. *)
Theorem log_step_before_training bundle m acc kw files tr loss epoch :
  let w := mkWorld (init bundle m acc kw) files tr in
  log_step loss epoch w =
    if is_main_process acc
    then Raise (AttributeError "global_step") w
    else Ok tt w.
Proof.
  intros w. unfold log_step. run. cbn. by destruct (is_main_process acc).
Qed.

(** [load] of a path that holds no file raises and changes nothing. *)
Lemma load_missing_file path b w :
  fs w !! path = None →
  load path b w = Raise (FileNotFoundError path) w.
Proof. intros Hfs. unfold load. run. by rewrite Hfs. Qed.

(** X10: [load] is not atomic: from a file that holds a model state but no
    optimizer state it raises [KeyError] after the model's parameters were
    overwritten; the optimizer, the starting epoch and the EMA model are as
    before and no training starts. *)
Theorem load_partial_restore path b w ckpt sd :
  fs w !! path = Some ckpt →
  ckpt !! "model" = Some (VStateDict sd) →
  ckpt !! "optimizer" = None →
  ∃ w',
    load path b w = Raise (KeyError "optimizer") w' ∧
    parameters (model (self w')) = load_params (parameters (model (self w))) sd ∧
    optimizer (self w') = optimizer (self w) ∧
    start_epoch (self w') = start_epoch (self w) ∧
    ema_model (self w') = ema_model (self w) ∧
    trace w' = trace w ∧ fs w' = fs w.
Proof.
  intros Hfs Hm Ho. unfold load. run. rewrite Hfs. run. rewrite Hm. run.
  rewrite load_state_dict_nonstrict. run. rewrite Ho. run.
  eexists. split; [reflexivity|]. by split_and!.
Qed.

(** [save_model] returns exactly when the object has an EMA model. *)
Lemma save_model_needs_ema epoch w :
  match ema_model (self w) with
  | Some em =>
      ∃ w', save_model epoch w = Ok tt w' ∧ self w' = self w ∧
            fs w' !! checkpoint_path epoch (model_name (self w))
              = Some (checkpoint_dict (self w) em epoch)
  | None => save_model epoch w = Raise (AttributeError "ema_model") w
  end.
Proof.
  destruct (ema_model (self w)) as [em|] eqn:Hem.
  - rewrite (save_model_run epoch w em Hem). eexists.
    split; [reflexivity|]. split; [done|]. cbn. apply lookup_insert_eq.
  - unfold save_model. run. by rewrite Hem.
Qed.

(** X11: [save_model] on a freshly constructed object: on the main process
    it writes the file of the epoch with the state of the model given to
    the constructor, the state of the new optimizer, the epoch and the state
    of the EMA copy; on any other process, where the constructor made no EMA
    model, it raises [AttributeError] while the checkpoint dict is built, so
    that no file is written and [torch.save] is not called. *)
Theorem save_model_on_new_object bundle m acc kw files tr E :
  let w := mkWorld (init bundle m acc kw) files tr in
  let path := checkpoint_path E (kw_model_name kw) in
  if is_main_process acc
  then ∃ d,
    save_model E w =
      Ok tt (mkWorld (self w) (<[path := d]> files) (tr ++ [ETorchSave d path])) ∧
    d !! "model" = Some (VStateDict (get_state_dict acc m)) ∧
    d !! "optimizer" =
      Some (VOptState (Adam (parameters m) (kw_learning_rate kw))) ∧
    d !! "epoch" = Some (VInt E) ∧
    d !! "ema_model" =
      Some (VStateDict
              (get_state_dict acc (requires_grad_ false (eval (deepcopy m)))))
  else save_model E w = Raise (AttributeError "ema_model") w.
Proof.
  intros w path. destruct (is_main_process acc) eqn:Hmain.
  - assert (Hem : ema_model (self w)
                  = Some (requires_grad_ false (eval (deepcopy m))))
      by (cbn; by rewrite Hmain).
    rewrite (save_model_run E w _ Hem). eexists. split; [reflexivity|].
    unfold checkpoint_dict. cbn [self w init accelerator model optimizer].
    split_and!; by simplify_map_eq.
  - unfold save_model. run. cbn. by rewrite Hmain.
Qed.

(** X18: [load] stops at the optimizer when the saved optimizer state does
    not fit it (a checkpoint written before a parameter was added, say): it
    raises [ValueError] after the model's parameters were overwritten from
    the checkpoint, whose tensors have the sizes of the model's parameters;
    the optimizer, the starting epoch and the EMA model are as before, and
    no training starts. *)
Theorem load_rejected_by_optimizer path b w ckpt sd o :
  fs w !! path = Some ckpt →
  ckpt !! "model" = Some (VStateDict sd) →
  ckpt !! "optimizer" = Some (VOptState o) →
  size_mismatches (parameters (model (self w))) sd = [] →
  optimizer_fits (optimizer (self w)) o = false →
  ∃ w',
    load path b w = Raise ValueError w' ∧
    parameters (model (self w')) = load_params (parameters (model (self w))) sd ∧
    optimizer (self w') = optimizer (self w) ∧
    start_epoch (self w') = start_epoch (self w) ∧
    ema_model (self w') = ema_model (self w) ∧
    trace w' = trace w ∧ fs w' = fs w.
Proof.
  intros Hfs Hm Ho _ Hfit.
  rewrite (load_optimizer_rejects path b w ckpt sd o) by done.
  eexists. split; [reflexivity|]. by split_and!.
Qed.

(** X19: the load of the EMA model is strict about sizes: on the main
    process, from a checkpoint that the model and the optimizer accept but
    whose EMA tensor for [k] has another size than the EMA parameter, [load]
    raises [RuntimeError] with [k] among the mismatched names, after the
    model, the optimizer and the starting epoch were restored; the EMA
    parameter keeps its value and no training starts. *)
Theorem load_ema_size_mismatch w path b ckpt sd o E sde em k q t :
  fs w !! path = Some ckpt →
  ckpt !! "model" = Some (VStateDict sd) →
  ckpt !! "optimizer" = Some (VOptState o) →
  ckpt !! "epoch" = Some (VInt E) →
  ckpt !! "ema_model" = Some (VStateDict sde) →
  is_main_process (accelerator (self w)) = true →
  ema_model (self w) = Some em →
  size_mismatches (parameters (model (self w))) sd = [] →
  optimizer_fits (optimizer (self w)) o = true →
  parameters em !! k = Some q → sde !! k = Some t →
  length t ≠ length (data q) →
  ∃ mk uk sk w',
    load path b w = Raise (RuntimeError mk uk sk) w' ∧
    k ∈ sk ∧
    (∃ em', ema_model (self w') = Some em' ∧ parameters em' !! k = Some q) ∧
    optimizer (self w') = o ∧ start_epoch (self w') = E ∧
    trace w' = trace w ∧ fs w' = fs w.
Proof.
  intros Hfs Hm Ho He Hme Hmain Hem Hsz Hfit Hq Ht Hlen.
  rewrite (load_main path b w ckpt sd o E em sde) by done.
  destruct (load_state_dict_strict_mismatch em sde k q t Hq Ht Hlen)
    as (mk & uk & sk & Hrun & Hin & Hkeep).
  rewrite Hrun in Hkeep |- *. exists mk, uk, sk. eexists.
  split; [reflexivity|]. cbn [self fs trace]. split_and!; try done.
  eexists. split; [reflexivity|]. exact Hkeep.
Qed.

(** ** Saving, then loading *)

Lemma state_dict_load_params own (sd : StateDict) :
  dom own = dom sd → size_mismatches own sd = [] →
  data <$> load_params own sd = sd.
Proof.
  intros Hdom Hsz. apply map_eq. intros k.
  rewrite lookup_fmap, load_params_lookup.
  destruct (own !! k) as [p|] eqn:Hp; cbn.
  - assert (Hk : k ∈ dom sd) by (rewrite <- Hdom; apply elem_of_dom; eauto).
    apply elem_of_dom in Hk as [t Ht]. rewrite Ht.
    by rewrite (size_mismatches_nil own sd k p t).
  - apply not_elem_of_dom in Hp. rewrite Hdom in Hp.
    apply not_elem_of_dom in Hp. by rewrite Hp.
Qed.

(** X12: a checkpoint written by [save_model] is accepted by [load], which
    reads the keys [save_model] wrote: if [save_model E] returned from [w]
    and the file is still there in [w2], on an object whose optimizer takes
    the saved state and whose model (and EMA model, on the main process) has
    the parameter names that were saved, with tensors of the saved sizes,
    then [load] of that path returns, the state dict of the model and the
    optimizer state are the saved ones, the starting epoch is [E], the EMA
    model holds the saved EMA state, and no collaborator is called. *)
Theorem save_load_round_trip w w1 w2 E :
  save_model E w = Ok tt w1 →
  let path := checkpoint_path E (model_name (self w)) in
  let acc := accelerator (self w) in
  fs w2 !! path = fs w1 !! path →
  optimizer_fits (optimizer (self w2)) (optimizer (self w)) = true →
  dom (parameters (model (self w2))) = dom (get_state_dict acc (model (self w))) →
  size_mismatches (parameters (model (self w2)))
    (get_state_dict acc (model (self w))) = [] →
  (∀ em, ema_model (self w) = Some em →
         is_main_process (accelerator (self w2)) = true →
         ∃ em2, ema_model (self w2) = Some em2 ∧
                dom (parameters em2) = dom (get_state_dict acc em) ∧
                size_mismatches (parameters em2) (get_state_dict acc em) = []) →
  ∃ w3,
    load path false w2 = Ok tt w3 ∧
    state_dict (model (self w3)) = get_state_dict acc (model (self w)) ∧
    optimizer (self w3) = optimizer (self w) ∧
    start_epoch (self w3) = E ∧
    (∀ em, ema_model (self w) = Some em →
           is_main_process (accelerator (self w2)) = true →
           ∃ em3, ema_model (self w3) = Some em3 ∧
                  state_dict em3 = get_state_dict acc em) ∧
    trace w3 = trace w2 ∧ fs w3 = fs w2.
Proof.
  intros Hsave path acc Hfile Hfit Hdom Hsz Hema.
  destruct (ema_model (self w)) as [em|] eqn:Hem.
  2:{ unfold save_model in Hsave. revert Hsave. run. by rewrite Hem. }
  rewrite (save_model_run E w em Hem) in Hsave. injection Hsave as <-.
  cbn [fs] in Hfile. fold path in Hfile. rewrite lookup_insert_eq in Hfile.
  set (ckpt := checkpoint_dict (self w) em E) in *.
  assert (Hm : ckpt !! "model"
               = Some (VStateDict (get_state_dict acc (model (self w)))))
    by (unfold ckpt, checkpoint_dict; by simplify_map_eq).
  assert (Ho : ckpt !! "optimizer" = Some (VOptState (optimizer (self w))))
    by (unfold ckpt, checkpoint_dict; by simplify_map_eq).
  assert (He : ckpt !! "epoch" = Some (VInt E))
    by (unfold ckpt, checkpoint_dict; by simplify_map_eq).
  assert (Hme : ckpt !! "ema_model" = Some (VStateDict (get_state_dict acc em)))
    by (unfold ckpt, checkpoint_dict; by simplify_map_eq).
  destruct (is_main_process (accelerator (self w2))) eqn:Hmain.
  - destruct (Hema em eq_refl eq_refl) as (em2 & Hem2 & Hdom2 & Hsz2).
    rewrite (load_main path false w2 ckpt _ _ E em2 _ Hfile Hm Ho He Hfit
               Hmain Hem2 Hme).
    rewrite (load_state_dict_strict_ok em2 _ (eq_sym Hdom2) Hsz2).
    eexists. split; [reflexivity|]. cbn. split_and!; try done.
    + unfold state_dict. cbn. by apply state_dict_load_params.
    + intros em' [= <-] _. eexists. split; [reflexivity|].
      unfold state_dict. cbn. by apply state_dict_load_params.
  - rewrite (load_worker path false w2 ckpt _ _ E Hfile Hm Ho He Hfit Hmain).
    eexists. split; [reflexivity|]. cbn. split_and!; try done.
    unfold state_dict. cbn. by apply state_dict_load_params.
Qed.

(** X13: resuming trains the saved epoch again: from a checkpoint of epoch
    [E] that [load] accepts (tensors of the sizes of the model's parameters,
    an optimizer state that fits the optimizer and, on the main process, an
    EMA state with the names and sizes of the EMA model), [load] with the
    flag true returns after assigning the global steps of the epochs [E] to
    [epochs], the first being [E * n], so the steps of epoch [E], already
    taken before the checkpoint was written at its end, are taken once
    more. *)
Theorem resume_repeats_saved_epoch w path ckpt sd o E :
  main_attrs (self w) →
  intervals_ok (self w) →
  fs w !! path = Some ckpt →
  ckpt !! "model" = Some (VStateDict sd) →
  ckpt !! "optimizer" = Some (VOptState o) →
  ckpt !! "epoch" = Some (VInt E) →
  size_mismatches (parameters (model (self w))) sd = [] →
  optimizer_fits (optimizer (self w)) o = true →
  (is_main_process (accelerator (self w)) = true →
   ∃ em sde, ema_model (self w) = Some em ∧
             ckpt !! "ema_model" = Some (VStateDict sde) ∧
             dom sde = dom (parameters em) ∧
             size_mismatches (parameters em) sde = []) →
  ∃ w1 w',
    load path false w = Ok tt w1 ∧
    load path true w = Ok tt w' ∧
    global_steps (trace w') =
      global_steps (trace w) ++
      run_steps (batches_per_epoch (self w1)) (range E (epochs (self w) + 1)).
Proof.
  intros Hattrs Hint Hfs Hm Ho He Hsz Hfit Hema.
  assert (Hgo : ∀ w1,
    ema (self w1) = ema (self w) → is_Some (ema_model (self w1)) ∨
      is_main_process (accelerator (self w)) = false →
    accelerator (self w1) = accelerator (self w) →
    log_step_show (self w1) = log_step_show (self w) →
    sample_epoch (self w1) = sample_epoch (self w) →
    save_epoch (self w1) = save_epoch (self w) →
    lora_save_epoch (self w1) = lora_save_epoch (self w) →
    save_lora_function (self w1) = save_lora_function (self w) →
    start_epoch (self w1) = E → epochs (self w1) = epochs (self w) →
    trace w1 = trace w →
    ∃ w', train_loop w1 = Ok tt w' ∧
      global_steps (trace w') =
        global_steps (trace w) ++
        run_steps (batches_per_epoch (self w1)) (range E (epochs (self w) + 1))).
  { intros w1 Hema1 Hem1 Hacc Hls Hse Hsv Hlo Hf Hst Hep Htr.
    destruct (train_loop_ok w1) as (w' & segs & Hrun & Htr' & Hall).
    - intros Hmain. rewrite Hacc in Hmain. destruct (Hattrs Hmain) as [Hx _].
      split; [by rewrite Hema1|]. destruct Hem1 as [?|?]; [done|congruence].
    - unfold intervals_ok in *. by rewrite Hls, Hse, Hsv, Hlo, Hf.
    - exists w'. split; [done|].
      rewrite Htr', !global_steps_app.
      rewrite (global_steps_segments _ _ segs _ Hall), Hst, Hep, Htr.
      unfold init_events.
      destruct (is_main_process (accelerator (self w1))); reflexivity. }
  destruct (is_main_process (accelerator (self w))) eqn:Hmain.
  - destruct (Hema eq_refl) as (em & sde & Hem & Hme & Hdom & Hsze).
    rewrite !(load_main path _ w ckpt sd o E em sde) by done.
    rewrite (load_state_dict_strict_ok em sde Hdom Hsze).
    eexists. edestruct Hgo as (w' & Hrun & Hgs);
      [..|exists w'; split; [reflexivity|split; [exact Hrun|exact Hgs]]];
      cbn; eauto.
  - rewrite !(load_worker path _ w ckpt sd o E) by done.
    eexists. edestruct Hgo as (w' & Hrun & Hgs);
      [..|exists w'; split; [reflexivity|split; [exact Hrun|exact Hgs]]];
      cbn; eauto.
Qed.

(** ** File names *)

Lemma length_app u1 u2 :
  String.length (u1 +:+ u2) = (String.length u1 + String.length u2)%nat.
Proof.
  induction u1 as [|c u1 IH]; [done|].
  by rewrite append_cons, !length_cons, IH.
Qed.

Lemma append_inj_r u1 u2 t : u1 +:+ t = u2 +:+ t → u1 = u2.
Proof.
  revert u2. induction u1 as [|c u1 IH]; intros [|d u2] Heq; [done| | |].
  - apply (f_equal String.length) in Heq.
    rewrite append_nil, append_cons, length_cons, length_app in Heq. lia.
  - apply (f_equal String.length) in Heq.
    rewrite append_nil, append_cons, length_cons, length_app in Heq. lia.
  - rewrite !append_cons in Heq. injection Heq as -> Heq.
    by rewrite (IH u2 Heq).
Qed.

Lemma append_inj_l u t1 t2 : u +:+ t1 = u +:+ t2 → t1 = t2.
Proof.
  induction u as [|c u IH]; [done|].
  rewrite !append_cons. intros [= Heq]. by apply IH.
Qed.

(** Two strings that lack [c], each followed by [c]: the first [c] of the
    whole delimits them. *)
Lemma split_at_char c u1 u2 t1 t2 :
  PyStr.lacks c u1 = true → PyStr.lacks c u2 = true →
  u1 +:+ String c t1 = u2 +:+ String c t2 → u1 = u2 ∧ t1 = t2.
Proof.
  revert u2. induction u1 as [|d1 u1 IH]; intros [|d2 u2] H1 H2 Heq.
  - rewrite !append_nil in Heq. by injection Heq as ->.
  - rewrite append_nil, append_cons in Heq. injection Heq as <- _.
    cbn [PyStr.lacks] in H2. by rewrite Ascii.eqb_refl in H2.
  - rewrite append_nil, append_cons in Heq. injection Heq as -> _.
    cbn [PyStr.lacks] in H1. by rewrite Ascii.eqb_refl in H1.
  - rewrite !append_cons in Heq. injection Heq as -> Heq.
    cbn [PyStr.lacks] in H1, H2.
    apply andb_true_iff in H1 as [_ H1]. apply andb_true_iff in H2 as [_ H2].
    destruct (IH u2 H1 H2 Heq) as [-> ->]. done.
Qed.

Lemma pretty_N_go_lacks_underscore x u :
  PyStr.lacks "_" u = true → PyStr.lacks "_" (pretty_N_go x u) = true.
Proof.
  revert u. induction (N.lt_wf_0 x) as [x _ IH]; intros u Hu.
  destruct (decide (x = 0)%N) as [->|Hx]; [by rewrite pretty_N_go_0|].
  rewrite pretty_N_go_step by lia. apply IH; [apply N.div_lt; lia|].
  cbn [PyStr.lacks]. rewrite Hu, andb_true_r.
  unfold pretty_N_char. by repeat case_match.
Qed.

(** The decimal numeral of an integer has no underscore. *)
Lemma str_lacks_underscore (z : Z) : PyStr.lacks "_" (PyStr.str z) = true.
Proof.
  unfold PyStr.str, pretty, pretty_Z.
  destruct z as [|p|p]; [done| |];
    unfold pretty, pretty_positive, pretty, pretty_N;
    (destruct (decide _); [done|]).
  - by apply pretty_N_go_lacks_underscore.
  - rewrite append_cons, append_nil. cbn [PyStr.lacks].
    by rewrite pretty_N_go_lacks_underscore.
Qed.

Lemma checkpoint_path_epoch E1 E2 name1 name2 :
  checkpoint_path E1 name1 = checkpoint_path E2 name2 → E1 = E2.
Proof.
  unfold checkpoint_path. intros Heq.
  apply append_inj_l in Heq.
  change ("_" +:+ name1 +:+ ".pt") with (String "_" (name1 +:+ ".pt")) in Heq.
  change ("_" +:+ name2 +:+ ".pt") with (String "_" (name2 +:+ ".pt")) in Heq.
  apply split_at_char in Heq as [HE _]; [|apply str_lacks_underscore..].
  by apply (inj pretty) in HE.
Qed.

(** A pass over a string without separator changes nothing. *)
Lemma replace_scan_no_sep t :
  PyStr.no_sep t = true → PyStr.replace_scan "//" "/" 0 t = t.
Proof.
  induction t as [|c t IH]; [done|].
  cbn [PyStr.no_sep]. intros [Hc Ht]%andb_true_iff.
  apply negb_true_iff in Hc.
  destruct t as [|d t]; [by rewrite replace_scan_cons1|].
  rewrite replace_scan_cons2, Hc. cbn [andb]. by rewrite IH.
Qed.

(** A name without separator after the joining separator passes through
    unchanged and does not change what happens before it. *)
Lemma replace_scan_name_len (n : nat) l t :
  (String.length l ≤ n)%nat →
  PyStr.no_sep t = true →
  PyStr.replace_scan "//" "/" 0 (l +:+ String "/" t) =
  PyStr.replace_scan "//" "/" 0 (l +:+ "/") +:+ t.
Proof.
  intros Hlen Ht. revert l Hlen.
  induction n as [|n IH]; intros l Hlen.
  { destruct l; [|rewrite length_cons in Hlen; lia].
    rewrite !append_nil, replace_scan_cons1.
    destruct t as [|x t]; [by rewrite replace_scan_cons1|].
    pose proof Ht as Ht'. cbn [PyStr.no_sep] in Ht'.
    apply andb_true_iff in Ht' as [Hx%negb_true_iff _].
    rewrite replace_scan_cons2, Hx, andb_false_r.
    by rewrite replace_scan_no_sep. }
  destruct l as [|c [|d l]].
  - apply IH. cbn. lia.
  - rewrite !append_cons, !append_nil, !replace_scan_cons2.
    change (Ascii.eqb "/" "/") with true. rewrite andb_true_r.
    destruct (Ascii.eqb c "/").
    + rewrite append_cons. change (PyStr.replace_scan "//" "/" 0 "") with "".
      by rewrite append_nil, replace_scan_no_sep.
    + rewrite append_cons. f_equal. apply (IH ""). cbn. lia.
  - rewrite !length_cons in Hlen.
    rewrite !append_cons, !replace_scan_cons2.
    destruct (Ascii.eqb c "/" && Ascii.eqb d "/").
    + rewrite append_cons. f_equal. apply IH. lia.
    + rewrite append_cons. f_equal. rewrite <- !append_cons.
      apply IH. rewrite length_cons. lia.
Qed.

Lemma replace_scan_name l t :
  PyStr.no_sep t = true →
  PyStr.replace_scan "//" "/" 0 (l +:+ String "/" t) =
  PyStr.replace_scan "//" "/" 0 (l +:+ "/") +:+ t.
Proof. apply (replace_scan_name_len (String.length l)). done. Qed.

(** X14: the checkpoint file name determines the epoch and the model name:
    saves at different epochs, or under different model names, never go to
    the same file. *)
Theorem checkpoint_path_inj E1 E2 name1 name2 :
  checkpoint_path E1 name1 = checkpoint_path E2 name2 →
  E1 = E2 ∧ name1 = name2.
Proof.
  unfold checkpoint_path. intros Heq.
  apply append_inj_l in Heq.
  change ("_" +:+ name1 +:+ ".pt") with (String "_" (name1 +:+ ".pt")) in Heq.
  change ("_" +:+ name2 +:+ ".pt") with (String "_" (name2 +:+ ".pt")) in Heq.
  apply split_at_char in Heq as [HE Hname]; [|apply str_lacks_underscore..].
  split.
  - by apply (inj pretty) in HE.
  - by apply append_inj_r in Hname.
Qed.

(** X15: the adapter file name determines the epoch: exports of different
    epochs under one [lora_path] never go to the same file, whatever the
    normalisation does to the directory part. *)
Theorem lora_export_path_inj lp e1 e2 :
  lora_export_path lp e1 = lora_export_path lp e2 → e1 = e2.
Proof.
  unfold lora_export_path, final_path_name_and_file, PyStr.replace.
  change (lora_path_use lp +:+ "/" +:+ PyStr.str e1 +:+ "_filepath.pth")
    with (lora_path_use lp +:+ String "/" (PyStr.str e1 +:+ "_filepath.pth")).
  change (lora_path_use lp +:+ "/" +:+ PyStr.str e2 +:+ "_filepath.pth")
    with (lora_path_use lp +:+ String "/" (PyStr.str e2 +:+ "_filepath.pth")).
  rewrite (replace_scan_name _ (PyStr.str e1 +:+ "_filepath.pth")),
    (replace_scan_name _ (PyStr.str e2 +:+ "_filepath.pth"))
    by apply file_name_no_sep.
  intros Heq%append_inj_l%append_inj_r. by apply (inj pretty) in Heq.
Qed.

(** ** Checkpoints on disk *)

Lemma frozen_model_name s s' :
  frozen s' = frozen s → model_name s' = model_name s.
Proof. unfold frozen. by intros [= ]. Qed.

Lemma checkpoint_dict_epoch s em e :
  checkpoint_dict s em e !! "epoch" = Some (VInt e).
Proof. done. Qed.

Lemma saving_step_fs epoch w :
  main_attrs (self w) →
  save_epoch (self w) ≠ 0 →
  ∃ d seg,
    d !! "epoch" = Some (VInt epoch) ∧
    saving_step epoch w =
      Ok tt (mkWorld (self w)
               (if (epoch `mod` save_epoch (self w) =? 0)
                   && is_main_process (accelerator (self w))
                then <[checkpoint_path epoch (model_name (self w)) := d]> (fs w)
                else fs w)
               (trace w ++ seg)).
Proof.
  intros Hattrs Hnz. unfold saving_step, py_mod. run.
  destruct (Z.eqb_spec (save_epoch (self w)) 0) as [?|_]; [done|]. run.
  destruct (epoch `mod` save_epoch (self w) =? 0);
    destruct (is_main_process (accelerator (self w))) eqn:Hmain; cbn [andb].
  - destruct (Hattrs Hmain) as [_ [em Hem]].
    rewrite (save_model_run _ _ em Hem).
    eexists _, [_]. split; [apply (checkpoint_dict_epoch (self w) em)|done].
  - exists (<["epoch" := VInt epoch]> ∅), []. rewrite app_nil_r.
    split; [done|]. by destruct w.
  - exists (<["epoch" := VInt epoch]> ∅), []. rewrite app_nil_r.
    split; [done|]. by destruct w.
  - exists (<["epoch" := VInt epoch]> ∅), []. rewrite app_nil_r.
    split; [done|]. by destruct w.
Qed.

(** What one epoch does to the files: it writes the checkpoint of the epoch
    when the epoch is a multiple of [save_epoch] on the main process, and
    nothing else. *)
Lemma epoch_body_fs epoch w :
  main_attrs (self w) →
  intervals_ok (self w) →
  ∃ w' d,
    epoch_body epoch w = Ok tt w' ∧
    frozen (self w') = frozen (self w) ∧
    main_attrs (self w') ∧
    d !! "epoch" = Some (VInt epoch) ∧
    fs w' =
      if (epoch `mod` save_epoch (self w) =? 0)
         && is_main_process (accelerator (self w))
      then <[checkpoint_path epoch (model_name (self w)) := d]> (fs w)
      else fs w.
Proof.
  intros Hattrs (Hshow & Hsample & Hsave & Hlora).
  set (w0 := mkWorld (set_model (train (model (self w))) (self w))
               (fs w) (trace w)).
  destruct (batches_ok epoch w0)
    as (w1 & seg1 & Hb & Hfr1 & Hat1 & Hfs1 & _); [done | done |].
  assert (Hi1 : intervals_ok (self w1))
    by (apply (frozen_intervals (self w)); [done | by split_and!]).
  pose proof Hi1 as (_ & Hsample1 & _ & _).
  destruct (sampling_step_ok epoch w1 Hsample1)
    as (w2 & seg2 & Hs & Hfr2 & Hem2 & Hfs2 & _).
  assert (Hat2 : main_attrs (self w2))
    by (by apply (main_attrs_frozen (self w1))).
  assert (Hi2 : intervals_ok (self w2))
    by (by apply (frozen_intervals (self w1))).
  destruct Hi2 as (_ & _ & Hsave2 & Hlora2).
  destruct (saving_step_fs epoch w2 Hat2 Hsave2) as (d & seg3 & Hd & Hv).
  set (w3 := mkWorld (self w2) _ (trace w2 ++ seg3)) in Hv.
  destruct (exporting_step_ok epoch w3 Hlora2) as (seg4 & He & _).
  assert (Hfr : frozen (self w2) = frozen (self w)) by (by rewrite Hfr2, Hfr1).
  eexists _, d. split.
  { unfold epoch_body. run. fold w0. cbn [self w0 set_model train_dl].
    change (train_dl (self w)) with (train_dl (self w0)).
    rewrite Hb, Hs, Hv, He. reflexivity. }
  cbn [self fs trace w3]. split_and!; [done | done | done |].
  rewrite (frozen_model_name _ _ Hfr), Hfs2, Hfs1.
  apply frozen_inv in Hfr as (-> & _ & _ & _ & -> & _). done.
Qed.

Lemma elem_of_range (a b e : Z) : e ∈ range a b ↔ a ≤ e < b.
Proof. unfold range. rewrite elem_of_seqZ. lia. Qed.

(** X16: after a complete run on the main process, the checkpoint of every
    epoch of the run that is a multiple of [save_epoch] is on disk, under
    the name of that epoch and with that epoch stored in it (a later save
    goes to another file), and every file that was there before the run
    still exists. *)
Theorem checkpoints_on_disk w :
  main_attrs (self w) →
  intervals_ok (self w) →
  is_main_process (accelerator (self w)) = true →
  ∃ w',
    train_loop w = Ok tt w' ∧
    dom (fs w) ⊆ dom (fs w') ∧
    ∀ e, start_epoch (self w) ≤ e ≤ epochs (self w) →
         e `mod` save_epoch (self w) = 0 →
         checkpoint_on_disk (fs w') (model_name (self w)) e.
Proof.
  intros Hattrs Hint Hmain. rewrite train_loop_unfold.
  set (w0 := mkWorld (prepared (self w)) (fs w)
               (trace w ++ init_events (self w))).
  assert (Hfr0 : accelerator (prepared (self w)) = accelerator (self w) ∧
                 save_epoch (prepared (self w)) = save_epoch (self w) ∧
                 model_name (prepared (self w)) = model_name (self w) ∧
                 ema (prepared (self w)) = ema (self w) ∧
                 ema_model (prepared (self w)) = ema_model (self w) ∧
                 intervals_ok (prepared (self w))).
  { unfold prepared, intervals_ok in *.
    by destruct (prepare _ _) as [[m o] dl]. }
  destruct Hfr0 as (Hacc0 & Hsave0 & Hname0 & Hema0 & Hemam0 & Hint0).
  destruct (for_each_ok (range (start_epoch (self w)) (epochs (self w) + 1))
    epoch_body
    (λ pre w',
       frozen (self w') = frozen (self w0) ∧ main_attrs (self w') ∧
       dom (fs w) ⊆ dom (fs w') ∧
       ∀ e, e ∈ pre → e `mod` save_epoch (self w) = 0 →
            checkpoint_on_disk (fs w') (model_name (self w)) e) w0)
    as (w' & Hrun & _ & _ & Hdom & Hall).
  - split_and!; [done | | done |].
    + unfold main_attrs. cbn [w0 self]. by rewrite Hacc0, Hema0, Hemam0.
    + by intros e ?%elem_of_nil.
  - intros pre e w1 (Hfr & Hat & Hdom & Hall).
    destruct (epoch_body_fs e w1) as (w2 & d & Hb & Hfr2 & Hat2 & Hd & Hfs);
      [done | by apply (frozen_intervals (self w0)) |].
    exists w2. split; [done|].
    pose proof (frozen_model_name _ _ Hfr) as Hname.
    pose proof Hfr as (Hacc & _ & _ & _ & Hsave & _)%frozen_inv.
    cbn [w0 self] in Hname, Hacc, Hsave.
    rewrite Hname, Hname0, Hacc, Hacc0, Hsave, Hsave0, Hmain, andb_true_r
      in Hfs.
    split_and!; [by rewrite Hfr2 | done | |].
    + rewrite Hfs. case_match; [|done].
      rewrite dom_insert. set_solver.
    + intros e' [He'| ->%list_elem_of_singleton]%elem_of_app Hmod.
      * destruct (Hall e' He' Hmod) as (d' & Hd' & Hep).
        rewrite Hfs. case_match; [|by exists d'].
        destruct (decide (e' = e)) as [->|Hne].
        -- exists d. by rewrite lookup_insert_eq.
        -- exists d'. split; [|done]. rewrite lookup_insert_ne; [done|].
           intros Heq%checkpoint_path_epoch. done.
      * rewrite Hfs. apply Z.eqb_eq in Hmod. rewrite Hmod.
        exists d. by rewrite lookup_insert_eq.
  - exists w'. split; [done|]. split; [done|].
    intros e He Hmod. apply Hall; [|done]. apply elem_of_range. lia.
Qed.

(** ** The number of samples *)

(** For a positive integer up to [2^53], the float nearest to [a / 10] is
    within one sixteenth of it, less than the tenth that separates [a / 10]
    from the next integer: its integer part is the quotient. *)
Lemma float_quotient_small a :
  0 < a ≤ 2 ^ 53 →
  Z.shiftl (float_quotient a 10).1 (float_quotient a 10).2 = a / 10.
Proof.
  intros Ha. unfold float_quotient. cbv zeta.
  change (Z.log2 10) with 3.
  set (k := Z.log2 a - 3).
  set (l := if scaled_num a k <? scaled_den 10 k then k - 1 else k).
  assert (Hl : l ≤ 49).
  { destruct (decide (a = 2 ^ 53)) as [->|Hne].
    - subst l k. by vm_compute.
    - assert (Z.log2 a < 53) by (apply Z.log2_lt_pow2; lia).
      subst l k. case_match; lia. }
  set (e := l - 52). cbn [fst snd].
  assert (He : e ≤ -3) by (subst e; lia).
  unfold scaled_num, scaled_den.
  destruct (Z.ltb_spec e 0) as [_|?]; [|lia].
  set (P := 2 ^ (- e)).
  assert (HP : 8 ≤ P).
  { subst P. change 8 with (2 ^ 3). apply Z.pow_le_mono_r; lia. }
  set (m0 := (a * P) / 10). set (r := (a * P) mod 10).
  assert (Hdiv : a * P = 10 * m0 + r) by (subst m0 r; apply Z.div_mod; lia).
  assert (Hr : 0 ≤ r < 10) by (subst r; apply Z.mod_pos_bound; lia).
  set (m := if (10 <? 2 * r) || ((2 * r =? 10) && Z.odd m0)
            then m0 + 1 else m0).
  assert (Hm : m0 ≤ m ∧ 20 * m ≤ 2 * (a * P) + 10).
  { subst m. destruct ((10 <? 2 * r) || ((2 * r =? 10) && Z.odd m0)) eqn:Hup.
    - apply orb_true_iff in Hup as [Hup|Hup].
      + apply Z.ltb_lt in Hup. lia.
      + apply andb_true_iff in Hup as [Hup _]. apply Z.eqb_eq in Hup. lia.
    - lia. }
  rewrite <- (Z.opp_involutive e) at 1.
  rewrite Z.shiftl_opp_r, Z.shiftr_div_pow2 by lia. fold P.
  set (q := a / 10). set (j := a mod 10).
  assert (Haq : a = 10 * q + j) by (subst q j; apply Z.div_mod; lia).
  assert (Hj : 0 ≤ j < 10) by (subst j; apply Z.mod_pos_bound; lia).
  clearbody m m0 r q j P. clear l Hl e He k.
  symmetry. apply (Z.div_unique m P q (m - q * P)); [left; nia | lia].
Qed.

Lemma py_int_truediv_small n :
  Z.abs n ≤ 2 ^ 53 → py_int_truediv n 10 = n `quot` 10.
Proof.
  intros Hn. unfold py_int_truediv.
  destruct (Z.eqb_spec n 0) as [->|Hnz]; [done|].
  pose proof (float_quotient_small (Z.abs n)) as Hq.
  destruct (float_quotient (Z.abs n) (Z.abs 10)) as [m e] eqn:Hme.
  change (Z.abs 10) with 10 in Hme. rewrite Hme in Hq. cbn [fst snd] in Hq.
  rewrite Hq by lia. change (Z.sgn 10) with 1. rewrite Z.mul_1_r.
  destruct (Z.lt_total n 0) as [Hneg|[?|Hpos]]; [|done|].
  - rewrite Z.sgn_neg, Z.abs_neq by lia.
    rewrite <- (Z.opp_involutive n) at 2.
    rewrite Z.quot_opp_l by lia. rewrite Z.quot_div_nonneg by lia. lia.
  - rewrite Z.sgn_pos, Z.abs_eq by lia.
    rewrite Z.quot_div_nonneg by lia. lia.
Qed.

(** Beyond, the rounding of the float shows. *)
Example py_int_truediv_examples :
  py_int_truediv 1000 10 = 100 ∧ py_int_truediv 25 10 = 2 ∧
  py_int_truediv (-25) 10 = -2 ∧ py_int_truediv 9 10 = 0 ∧
  py_int_truediv (-11258999068426249) 10 = -1125899906842625 ∧
  (-11258999068426249) `quot` 10 = -1125899906842624.
Proof. by vm_compute. Qed.


(** ** The collaborator calls of a run *)

Lemma config_inv s s0 :
  config s = config s0 →
  encode_data s = encode_data s0 ∧ model_name s = model_name s0 ∧
  num_sampling_to_compare_cells s = num_sampling_to_compare_cells s0 ∧
  metric_function s = metric_function s0 ∧
  selective_sampling_number s = selective_sampling_number s0 ∧
  save_lora_function s = save_lora_function s0 ∧
  lora_path s = lora_path s0.
Proof. unfold config. intros [= ]. by split_and!. Qed.

Lemma dom_checkpoint_dict s em e :
  dom (checkpoint_dict s em e)
  = {[ "model"; "optimizer"; "epoch"; "ema_model" ]}.
Proof.
  unfold checkpoint_dict. rewrite !dom_insert_L, dom_empty_L. set_solver.
Qed.

Lemma call_ok_other s0 ev :
  is_log_call ev = false → is_sampler_call ev = false →
  is_metric_call ev = false → is_checkpoint_write ev = false →
  is_adapter_export ev = false → call_ok s0 ev.
Proof. by destruct ev. Qed.

Lemma call_ok_sample s0 s m :
  config s = config s0 →
  call_ok s0
    (ECreateSample m (numeric_to_tag (encode_data s))
       (cell_types (encode_data s)) (selective_sampling_number s)
       (py_int_truediv (num_sampling_to_compare_cells s) 10) 1).
Proof.
  intros (-> & _ & -> & _ & -> & _)%config_inv. by split_and!.
Qed.

Lemma call_ok_metric s0 s f :
  config s = config s0 → metric_function s = Some f →
  call_ok s0 (EMetricFunction f [("input_fasta", VStr "synthetic_motifs.fasta")]).
Proof. intros (_ & _ & _ & -> & _)%config_inv Hf. by split. Qed.

Lemma call_ok_save s0 s em e :
  config s = config s0 →
  call_ok s0 (ETorchSave (checkpoint_dict s em e)
                (checkpoint_path e (model_name s))).
Proof.
  intros (_ & -> & _)%config_inv. exists e.
  split; [done|]. split; [done|]. apply dom_checkpoint_dict.
Qed.

Lemma call_ok_export s0 s f e :
  config s = config s0 → save_lora_function s = Some f →
  call_ok s0 (ESaveLora f (model_model (model s))
                (lora_export_path (lora_path s) e)).
Proof.
  intros (_ & _ & _ & _ & _ & -> & ->)%config_inv Hf. split; [done|].
  by exists e.
Qed.

(** X17: whatever [train_loop] or [load] does, and however it ends, every
    collaborator call it makes follows the configuration the object had
    before: the sampler gets the tag table and cell types of the encoded
    data, the configured group, [int(num_sampling_to_compare_cells / 10)]
    samples, the division being the one in floating point (the truncated
    quotient up to [2^53], see [py_int_truediv_small]), and weight 1 (the
    model given is the only argument that varies); the metric function
    called is the one configured, with the constant fasta path as only
    argument; [torch.save] writes a dict of the four keys to the checkpoint
    name of the epoch stored in it, and to no other path; the LoRA saver
    called is the one configured, with the export path of some epoch under
    the configured directory. *)
Theorem calls_follow_configuration w path b :
  (∃ seg, trace (world_of (train_loop w)) = trace w ++ seg ∧
          Forall (call_ok (self w)) seg) ∧
  (∃ seg, trace (world_of (load path b w)) = trace w ++ seg ∧
          Forall (call_ok (self w)) seg).
Proof.
  set (I := λ s, config s = config (self w)).
  assert (Hlog : ∀ s loss epoch g,
            I s → call_ok (self w) (ELog (log_values s loss epoch) g))
    by done.
  split.
  - apply (keeps_train_loop I (call_ok (self w))
             (stable_config_only (config (self w)))
             (call_ok_other (self w)) Hlog
             (λ s m, call_ok_sample (self w) s m)
             (λ s f, call_ok_metric (self w) s f)
             (λ s em e, call_ok_save (self w) s em e)
             (λ s f e, call_ok_export (self w) s f e) w).
    reflexivity.
  - apply (keeps_load I (call_ok (self w))
             (stable_config_only (config (self w)))
             (call_ok_other (self w)) Hlog
             (λ s m, call_ok_sample (self w) s m)
             (λ s f, call_ok_metric (self w) s f)
             (λ s em e, call_ok_save (self w) s em e)
             (λ s f e, call_ok_export (self w) s f e)
             (stable_load_config (config (self w))) path b w).
    reflexivity.
Qed.

End Properties.

(** * The claims on the toy instance *)

Lemma periodic_actions_by_modulo_witness :
  let w := Toy.world Toy.main Toy.kwargs in
  main_attrs (self w) ∧ intervals_ok (self w) ∧
  ∃ w' segs,
    train_loop w = Ok tt w' ∧
    trace w' = trace w ++ init_events (self w) ++ concat segs ∧
    Forall2 (λ e seg,
               epoch_actions (self w) e seg ∧
               epoch_segment (self w) (batches_per_epoch (self w)) e seg)
      (range (start_epoch (self w)) (epochs (self w) + 1)) segs.
Proof.
  intros w.
  assert (Ha : main_attrs (self w)) by (intros _; split; eexists; reflexivity).
  assert (Hi : intervals_ok (self w)) by (by cbv).
  split; [exact Ha|]. split; [exact Hi|].
  exact (periodic_actions_by_modulo w Ha Hi).
Defined.


Lemma ema_update_affine_witness :
  let w := Toy.world Toy.main Toy.kwargs in
  let em := requires_grad_ false (eval (deepcopy (Toy.net 1))) in
  is_main_process (accelerator (self w)) = true ∧
  ema (self w) = Some (mkEMA (995 # 1000)) ∧
  ema_model (self w) = Some em ∧
  ∃ loss w' em',
    train_step 4%Q w = Ok loss w' ∧
    ema (self w') = Some (mkEMA (995 # 1000)) ∧
    ema_model (self w') = Some em' ∧
    ∀ k shadow cur i (s c : Q),
      parameters em !! k = Some shadow →
      parameters (unwrap_model (accelerator (self w')) (model (self w'))) !! k
        = Some cur →
      data shadow !! i = Some s →
      data cur !! i = Some c →
      ∃ p', parameters em' !! k = Some p' ∧
            data p' !! i = Some ((995 # 1000) * s + (5 # 1000) * c)%Q.
Proof.
  intros w em. split; [reflexivity|]. split; [reflexivity|].
  split; [reflexivity|].
  apply (@ema_update_affine Toy.framework 4%Q w em); reflexivity.
Defined.


Lemma save_model_checkpoint_witness :
  let w := Toy.world Toy.main Toy.kwargs in
  let s := self w in
  let em := requires_grad_ false (eval (deepcopy (Toy.net 1))) in
  ema_model s = Some em ∧
  ∃ record : gmap string PyVal,
    save_model 3 w =
      Ok tt (mkWorld s (<["epoch_3_toy.pt" := record]> (fs w))
               (trace w ++ [ETorchSave record "epoch_3_toy.pt"])) ∧
    dom record = {[ "model"; "optimizer"; "epoch"; "ema_model" ]} ∧
    record !! "model" =
      Some (VStateDict (state_dict (unwrap_model (accelerator s) (model s)))) ∧
    record !! "optimizer" = Some (VOptState (optimizer s)) ∧
    record !! "epoch" = Some (VInt 3) ∧
    record !! "ema_model" =
      Some (VStateDict (state_dict (unwrap_model (accelerator s) em))) ∧
    fs (world_of ((save_model 3;; save_model 3) w))
      = <["epoch_3_toy.pt" := record]> (fs w).
Proof.
  intros w s em. split; [reflexivity|].
  apply (save_model_checkpoint w 3 em). reflexivity.
Defined.

Lemma adapter_export_path_witness :
  let w := Toy.world Toy.main Toy.kwargs in
  save_lora_function (self w) = Some "save_lora" ∧
  ∃ w' seg,
    save_lora_model 7 w = Ok tt w' ∧
    trace w' = trace w ++ seg ∧
    filter (λ ev, is_adapter_export ev = true) seg =
      [ESaveLora "save_lora" (model_model (model (self w)))
         "out/7_filepath.pth"] ∧
    PyStr.no_double_sep "out/7_filepath.pth" = true ∧
    "out/7_filepath.pth" = spec_export_path "out/" 7.
Proof.
  intros w. split; [reflexivity|].
  destruct (adapter_export_path w "save_lora" 7 eq_refl)
    as (w' & seg & Hrun & Htr & Hcall & Hnds & Hcol & _ & Hout).
  exists w', seg. rewrite Hcall. rewrite (Hout eq_refl eq_refl) in *.
  split; [exact Hrun|]. split; [exact Htr|]. split; [reflexivity|].
  split; [exact Hnds|]. exact (Hcol eq_refl).
Defined.

Lemma load_resumes_witness :
  let w := Toy.world_saved Toy.main in
  let sd : StateDict := {[ "w" := [2%Q] ]} in
  fs w !! "ck.pt" = Some Toy.checkpoint ∧
  size_mismatches (parameters (model (self w))) sd = [] ∧
  optimizer_fits (optimizer (self w)) (1%nat, 3%nat) = true ∧
  ∃ w1,
    load "ck.pt" false w = Ok tt w1 ∧
    trace w1 = trace w ∧ fs w1 = fs w ∧
    parameters (model (self w1)) !! "w"
      = Some {| data := [2%Q]; requires_grad := true |} ∧
    dom (parameters (model (self w1))) = dom (parameters (model (self w))) ∧
    optimizer (self w1) = (1%nat, 3%nat) ∧
    start_epoch (self w1) = 5 ∧
    epochs (self w1) = epochs (self w) ∧
    load "ck.pt" true w = train_loop w1.
Proof.
  intros w sd. split; [reflexivity|]. split; [reflexivity|].
  split; [reflexivity|].
  destruct (load_resumes w "ck.pt" Toy.checkpoint sd (1%nat, 3%nat) 5)
    as (w1 & Hrun & Htr & Hfs & Hload & _ & Hdom & Ho & He & Hep & Hgo);
    [reflexivity..| |].
  { intros _.
    exists (requires_grad_ false (eval (deepcopy (Toy.net 1)))), sd.
    split; [reflexivity|]. split; [reflexivity|]. split; [|reflexivity].
    cbn. rewrite dom_fmap_L. by rewrite !dom_singleton_L. }
  exists w1. split; [exact Hrun|]. split; [exact Htr|]. split; [exact Hfs|].
  split; [exact (Hload "w" {| data := [1%Q]; requires_grad := true |} [2%Q]
                   eq_refl eq_refl)|].
  split; [exact Hdom|]. split; [exact Ho|]. split; [exact He|].
  split; [exact Hep|]. exact Hgo.
Defined.

Lemma side_effects_main_process_only_witness :
  let w := Toy.world_saved Toy.worker in
  let w' := world_of (load "ck.pt" true w) in
  is_main_process (accelerator (self w)) = false ∧
  fs w' = fs w ∧
  ∃ seg, trace w' = trace w ++ seg ∧
    Forall (λ ev, is_log_call ev = false ∧ is_sampler_call ev = false ∧
                  is_checkpoint_write ev = false ∧
                  is_adapter_export ev = false) seg.
Proof.
  intros w w'. split; [reflexivity|].
  apply (side_effects_main_process_only w "ck.pt" true); [reflexivity|].
  right. reflexivity.
Defined.

Lemma sample_metric_constant_path_witness :
  let w := Toy.world Toy.main Toy.kwargs in
  metric_function (self w) = Some "metric" ∧
  ∃ w' seg,
    sample w = Ok tt w' ∧
    trace w' = trace w ++ seg ∧
    filter (λ ev, is_metric_call ev = true) seg =
      [EMetricFunction "metric"
         [("input_fasta", VStr "synthetic_motifs.fasta")]] ∧
    (∀ g kwargs t, EMetricFunction g kwargs ∈ seg →
                   ∀ name, (name, VTable t) ∉ kwargs).
Proof.
  intros w. split; [reflexivity|].
  apply (sample_metric_constant_path w "metric"). reflexivity.
Defined.

(** ** Where the specification and the code part *)

(** C9 as worded fails on the object the constructor builds with the
    default arguments: its global step counter is not 1, it is unset. *)
Lemma init_global_step_not_one :
  ¬ spec_bookkeeping_all_one
      (init Toy.bundle (Toy.net 1) Toy.main default_kwargs).
Proof. intros (_ & Hg & _). discriminate Hg. Qed.

(** C6 as worded fails for a directory given with two trailing separators:
    the path handed to the saver keeps a doubled separator, which the
    collapse of the pattern has not. *)
Lemma export_path_keeps_double_sep :
  let w := Toy.world Toy.main Toy.kwargs_two_seps in
  ∃ w',
    save_lora_model 7 w = Ok tt w' ∧
    filter (λ ev, is_adapter_export ev = true) (trace w') =
      [ESaveLora "save_lora" (Toy.net 1) "out//7_filepath.pth"] ∧
    PyStr.no_double_sep "out//7_filepath.pth" = false ∧
    spec_export_path "out//" 7 = "out/7_filepath.pth" ∧
    lora_export_path "out//" 7 ≠ spec_export_path "out//" 7.
Proof.
  intros w. eexists. split; [reflexivity|].
  split; [reflexivity|]. split; [reflexivity|].
  split; [by vm_compute|]. by vm_compute.
Qed.

(** ** The three periodic actions are independent

    In the toy run (sampling every 2nd epoch, saving every 3rd, exporting
    every 5th, 30 epochs) every subset of the three actions is the set that
    fires in some epoch. *)

Lemma flag_of_iff (b c : bool) (P : Prop) :
  (b = true ↔ P) → (c = true ↔ P) → b = c.
Proof. destruct b, c; intuition congruence. Qed.

Lemma periodic_actions_any_subset (b1 b2 b3 : bool) :
  let w := Toy.world Toy.main Toy.kwargs in
  ∃ w' segs k e seg,
    train_loop w = Ok tt w' ∧
    trace w' = trace w ++ init_events (self w) ++ concat segs ∧
    range (start_epoch (self w)) (epochs (self w) + 1) !! k = Some e ∧
    segs !! k = Some seg ∧
    existsb is_sampler_call seg = b1 ∧
    existsb is_checkpoint_write seg = b2 ∧
    existsb is_adapter_export seg = b3.
Proof.
  intros w.
  destruct (train_loop_ok w) as (w' & segs & Hrun & Htr & Hall).
  { intros _; split; eexists; reflexivity. }
  { by cbv. }
  set (e := match b1, b2, b3 with
            | true, true, true => 30 | true, true, false => 6
            | true, false, true => 10 | true, false, false => 2
            | false, true, true => 15 | false, true, false => 3
            | false, false, true => 5 | false, false, false => 1
            end).
  assert (He : range (start_epoch (self w)) (epochs (self w) + 1)
                 !! Z.to_nat (e - 1) = Some e).
  { change (start_epoch (self w)) with 1. change (epochs (self w)) with 30.
    apply lookup_seqZ. subst e. destruct b1, b2, b3; lia. }
  destruct (Forall2_lookup_l _ _ _ _ _ Hall He) as (seg & Hseg & Hact & _).
  exists w', segs, (Z.to_nat (e - 1)), e, seg.
  split_and!; [exact Hrun | exact Htr | exact He | exact Hseg | | |].
  - destruct Hact as (Hs & _). apply (flag_of_iff _ _ _ Hs).
    change (sample_epoch (self w)) with 2.
    change (is_main_process (accelerator (self w))) with true.
    clear. destruct b1, b2, b3;
      (split; [try discriminate; by intros _
              | try reflexivity; intros [Hm _]; by vm_compute in Hm]).
  - destruct Hact as (_ & Hv & _). apply (flag_of_iff _ _ _ Hv).
    change (save_epoch (self w)) with 3.
    change (is_main_process (accelerator (self w))) with true.
    clear. destruct b1, b2, b3;
      (split; [try discriminate; by intros _
              | try reflexivity; intros [Hm _]; by vm_compute in Hm]).
  - destruct Hact as (_ & _ & Hx). apply (flag_of_iff _ _ _ Hx).
    change (lora_save_epoch (self w)) with 5.
    change (save_lora_function (self w)) with (Some "save_lora").
    change (is_main_process (accelerator (self w))) with true.
    clear. destruct b1, b2, b3;
      (split; [try discriminate; by intros _
              | try reflexivity; intros (_ & Hm & _); by vm_compute in Hm]).
Qed.

(** ** The definitions on small inputs *)

Example py_mod_floor : py_mod (-7) 3 = inr 2 ∧ py_mod 7 (-3) = inr (-2).
Proof. by split. Qed.

Example py_mod_zero : py_mod 7 0 = inl ZeroDivisionError.
Proof. reflexivity. Qed.

Example range_1_4 : range 1 4 = [1; 2; 3].
Proof. reflexivity. Qed.

Example replace_non_overlapping : PyStr.replace "aa" "b" "aaaaa" = "bba".
Proof. reflexivity. Qed.

Example replace_empty_old : PyStr.replace "" "-" "abc" = "-a-b-c-".
Proof. reflexivity. Qed.

Example checkpoint_path_500 :
  checkpoint_path 500 "model" = "epoch_500_model.pt".
Proof. by vm_compute. Qed.

Example lora_export_path_examples :
  lora_export_path "" 7 = "./7_filepath.pth" ∧
  lora_export_path "out/" 7 = "out/7_filepath.pth" ∧
  lora_export_path "a//b" 7 = "a/b/7_filepath.pth" ∧
  lora_export_path "out//" 7 = "out//7_filepath.pth".
Proof. by vm_compute. Qed.

(** Three epochs of two batches on the main process: the values of the
    global step, and the steps at which a record is logged (every 4th). *)
Example toy_global_steps :
  let w := world_of
             (train_loop (Toy.world Toy.main
                (mkKwargs 3 4 2 3 "toy" 200 25 1 None (1 # 10)%Q None None ""
                   5))) in
  global_steps (trace w) = [2; 3; 4; 5; 6; 7] ∧
  omap (λ ev, match ev with ELog _ g => Some g | _ => None end) (trace w)
    = [4].
Proof. by vm_compute. Qed.

(** * The further properties on the toy instance *)

Lemma metrics_are_placeholders_witness :
  let w := Toy.world Toy.main Toy.kwargs in
  let w' := world_of (train_loop w) in
  (w' = world_of (train_loop w) ∨ w' = world_of (load "ck.pt" true w)) ∧
  metrics (self w') = (1, 1, 1, 1) ∧
  ∃ seg, trace w' = trace w ++ seg ∧ Forall (log_record_ok (1, 1, 1, 1)) seg.
Proof.
  intros w w'. split; [left; reflexivity|].
  apply (metrics_are_placeholders w "ck.pt" true w'). left. reflexivity.
Defined.

Lemma ema_model_stays_frozen_witness :
  let w := Toy.world Toy.main Toy.kwargs in
  ema_frozen {[ "w" ]} (self w) ∧
  ema_frozen {[ "w" ]} (self (world_of (train_loop w))) ∧
  ema_frozen {[ "w" ]} (self (world_of (load "ck.pt" true w))).
Proof.
  intros w.
  assert (Hf : ema_frozen {[ "w" ]} (self w)).
  { exists (requires_grad_ false (eval (deepcopy (Toy.net 1)))).
    split; [reflexivity|]. split; [reflexivity|]. split.
    - cbn. by rewrite !dom_fmap_L, dom_singleton_L.
    - cbn. rewrite !map_fmap_singleton. by apply map_Forall_singleton. }
  split; [exact Hf|].
  exact (ema_model_stays_frozen {[ "w" ]} w "ck.pt" true Hf).
Defined.

Lemma no_ema_model_is_created_witness :
  let w := Toy.world Toy.worker Toy.kwargs in
  ema_model (self w) = None ∧
  ema_model (self (world_of (train_loop w))) = None ∧
  ema_model (self (world_of (load "ck.pt" true w))) = None.
Proof.
  intros w. split; [reflexivity|].
  apply (no_ema_model_is_created w "ck.pt" true). reflexivity.
Defined.

Lemma log_schedule_witness :
  let w := Toy.world Toy.main Toy.kwargs in
  let n := batches_per_epoch (self w) in
  let es := range (start_epoch (self w)) (epochs (self w) + 1) in
  main_attrs (self w) ∧ intervals_ok (self w) ∧
  ∃ w',
    train_loop w = Ok tt w' ∧
    log_steps (trace w') =
      log_steps (trace w) ++
      filter (λ g, g `mod` 4 = 0) (run_steps n es).
Proof.
  intros w n es.
  assert (Ha : main_attrs (self w)) by (intros _; split; eexists; reflexivity).
  assert (Hi : intervals_ok (self w)) by (by cbv).
  split; [exact Ha|]. split; [exact Hi|].
  exact (log_schedule w Ha Hi).
Defined.

Lemma train_loop_no_epoch_witness :
  let w := Toy.world Toy.main (Toy.kwargs_of 0 0 0) in
  epochs (self w) < start_epoch (self w) ∧
  train_loop w =
    Ok tt (mkWorld (prepared (self w)) (fs w)
             (trace w ++ init_events (self w))).
Proof.
  intros w. split; [reflexivity|].
  apply (train_loop_no_epoch w). reflexivity.
Defined.

Lemma zero_sample_epoch_raises_witness :
  let w := Toy.world Toy.main (Toy.kwargs_of 30 4 0) in
  main_attrs (self w) ∧ log_step_show (self w) ≠ 0 ∧
  sample_epoch (self w) = 0 ∧ start_epoch (self w) ≤ epochs (self w) ∧
  ∃ w' seg,
    train_loop w = Raise ZeroDivisionError w' ∧
    fs w' = fs w ∧
    trace w' = trace w ++ init_events (self w) ++ seg ∧
    plain seg ∧
    global_steps seg =
      epoch_steps (batches_per_epoch (self w)) (start_epoch (self w)).
Proof.
  intros w.
  assert (Ha : main_attrs (self w)) by (intros _; split; eexists; reflexivity).
  assert (Hl : log_step_show (self w) ≠ 0) by (by cbv).
  assert (Hs : sample_epoch (self w) = 0) by reflexivity.
  assert (He : start_epoch (self w) ≤ epochs (self w)) by (by cbv).
  split; [exact Ha|]. split; [exact Hl|]. split; [exact Hs|].
  split; [exact He|].
  exact (zero_sample_epoch_raises w Ha Hl Hs He).
Defined.

Lemma zero_log_step_show_raises_witness :
  let w := Toy.world Toy.main (Toy.kwargs_of 30 0 2) in
  main_attrs (self w) ∧ log_step_show (self w) = 0 ∧
  start_epoch (self w) ≤ epochs (self w) ∧
  (0 < batches_per_epoch (self w))%nat ∧
  ∃ w',
    train_loop w = Raise ZeroDivisionError w' ∧
    fs w' = fs w ∧
    trace w' =
      trace w ++ init_events (self w) ++
      [EGlobalStep
         (start_epoch (self w) * Z.of_nat (batches_per_epoch (self w)));
       EWaitForEveryone; EWaitForEveryone; EWaitForEveryone].
Proof.
  intros w.
  assert (Ha : main_attrs (self w)) by (intros _; split; eexists; reflexivity).
  assert (Hl : log_step_show (self w) = 0) by reflexivity.
  assert (He : start_epoch (self w) ≤ epochs (self w)) by (by cbv).
  assert (Hn : (0 < batches_per_epoch (self w))%nat) by (cbv; lia).
  split; [exact Ha|]. split; [exact Hl|]. split; [exact He|].
  split; [exact Hn|].
  exact (zero_log_step_show_raises w Ha Hl He Hn).
Defined.

Lemma load_partial_restore_witness :
  let w := Toy.world_truncated Toy.main in
  let sd : StateDict := {[ "w" := [2%Q] ]} in
  fs w !! "ck.pt" = Some Toy.checkpoint_model_only ∧
  Toy.checkpoint_model_only !! "model" = Some (VStateDict sd) ∧
  Toy.checkpoint_model_only !! "optimizer" = None ∧
  ∃ w',
    load "ck.pt" true w = Raise (KeyError "optimizer") w' ∧
    parameters (model (self w')) = load_params (parameters (model (self w))) sd ∧
    optimizer (self w') = optimizer (self w) ∧
    start_epoch (self w') = start_epoch (self w) ∧
    ema_model (self w') = ema_model (self w) ∧
    trace w' = trace w ∧ fs w' = fs w.
Proof.
  intros w sd.
  split; [reflexivity|]. split; [reflexivity|]. split; [reflexivity|].
  apply (load_partial_restore "ck.pt" true w Toy.checkpoint_model_only sd);
    reflexivity.
Defined.

Lemma save_load_round_trip_witness :
  let w := Toy.world Toy.main Toy.kwargs in
  let em := requires_grad_ false (eval (deepcopy (Toy.net 1))) in
  let w1 := mkWorld (self w)
              (<["epoch_3_toy.pt" := checkpoint_dict (self w) em 3]> (fs w))
              (trace w ++ [ETorchSave (checkpoint_dict (self w) em 3)
                             "epoch_3_toy.pt"]) in
  save_model 3 w = Ok tt w1 ∧
  ∃ w3,
    load "epoch_3_toy.pt" false w1 = Ok tt w3 ∧
    state_dict (model (self w3)) = state_dict (Toy.net 1) ∧
    optimizer (self w3) = optimizer (self w) ∧
    start_epoch (self w3) = 3 ∧
    (∀ em', ema_model (self w) = Some em' →
            is_main_process (accelerator (self w1)) = true →
            ∃ em3, ema_model (self w3) = Some em3 ∧
                   state_dict em3 = state_dict em') ∧
    trace w3 = trace w1 ∧ fs w3 = fs w1.
Proof.
  intros w em w1.
  assert (Hs : save_model 3 w = Ok tt w1) by reflexivity.
  split; [exact Hs|].
  apply (save_load_round_trip w w1 w1 3 Hs); [reflexivity..|].
  intros em' Hem' _. exists em.
  split; [reflexivity|]. injection Hem' as <-. split; reflexivity.
Defined.

Lemma resume_repeats_saved_epoch_witness :
  let w := Toy.world_saved Toy.main in
  let sd : StateDict := {[ "w" := [2%Q] ]} in
  main_attrs (self w) ∧ intervals_ok (self w) ∧
  fs w !! "ck.pt" = Some Toy.checkpoint ∧
  ∃ w1 w',
    load "ck.pt" false w = Ok tt w1 ∧
    load "ck.pt" true w = Ok tt w' ∧
    global_steps (trace w') =
      global_steps (trace w) ++
      run_steps (batches_per_epoch (self w1)) (range 5 (epochs (self w) + 1)).
Proof.
  intros w sd.
  assert (Ha : main_attrs (self w)) by (intros _; split; eexists; reflexivity).
  assert (Hi : intervals_ok (self w)) by (by cbv).
  split; [exact Ha|]. split; [exact Hi|]. split; [reflexivity|].
  apply (resume_repeats_saved_epoch w "ck.pt" Toy.checkpoint sd
           (1%nat, 3%nat) 5 Ha Hi);
    [reflexivity..|].
  intros _.
  exists (requires_grad_ false (eval (deepcopy (Toy.net 1)))), sd.
  split; [reflexivity|]. split; [reflexivity|]. split; [|reflexivity].
  cbn. rewrite dom_fmap_L. by rewrite !dom_singleton_L.
Defined.

Lemma checkpoint_path_inj_witness :
  checkpoint_path 3 "toy" = checkpoint_path (2 + 1) ("to" +:+ "y") ∧
  3 = 2 + 1 ∧ "toy" = "to" +:+ "y".
Proof.
  split; [reflexivity|].
  apply (checkpoint_path_inj 3 (2 + 1) "toy" ("to" +:+ "y")). reflexivity.
Defined.

Lemma lora_export_path_inj_witness :
  lora_export_path "out//" 7 = lora_export_path "out//" (6 + 1) ∧ 7 = 6 + 1.
Proof.
  split; [reflexivity|].
  apply (lora_export_path_inj "out//" 7 (6 + 1)). reflexivity.
Defined.

Lemma checkpoints_on_disk_witness :
  let w := Toy.world Toy.main Toy.kwargs in
  main_attrs (self w) ∧ intervals_ok (self w) ∧
  is_main_process (accelerator (self w)) = true ∧
  ∃ w',
    train_loop w = Ok tt w' ∧
    dom (fs w) ⊆ dom (fs w') ∧
    ∀ e, 1 ≤ e ≤ 30 → e `mod` 3 = 0 → checkpoint_on_disk (fs w') "toy" e.
Proof.
  intros w.
  assert (Ha : main_attrs (self w)) by (intros _; split; eexists; reflexivity).
  assert (Hi : intervals_ok (self w)) by (by cbv).
  split; [exact Ha|]. split; [exact Hi|]. split; [reflexivity|].
  exact (checkpoints_on_disk w Ha Hi eq_refl).
Defined.

Lemma load_rejected_by_optimizer_witness :
  let w := Toy.world_grown Toy.main in
  let sd : StateDict := {[ "w" := [2%Q] ]} in
  fs w !! "ck.pt" = Some Toy.checkpoint ∧
  size_mismatches (parameters (model (self w))) sd = [] ∧
  optimizer_fits (optimizer (self w)) (1%nat, 3%nat) = false ∧
  ∃ w',
    load "ck.pt" true w = Raise ValueError w' ∧
    parameters (model (self w')) = load_params (parameters (model (self w))) sd ∧
    optimizer (self w') = optimizer (self w) ∧
    start_epoch (self w') = start_epoch (self w) ∧
    ema_model (self w') = ema_model (self w) ∧
    trace w' = trace w ∧ fs w' = fs w.
Proof.
  intros w sd. split; [reflexivity|]. split; [reflexivity|].
  split; [reflexivity|].
  apply (load_rejected_by_optimizer "ck.pt" true w Toy.checkpoint sd
           (1%nat, 3%nat)); reflexivity.
Defined.

Lemma load_ema_size_mismatch_witness :
  let w := Toy.world_resized Toy.main in
  let q := {| data := [1%Q]; requires_grad := false |} in
  fs w !! "ck.pt" = Some Toy.checkpoint_resized ∧
  length [2%Q; 3%Q] ≠ length (data q) ∧
  ∃ mk uk sk w',
    load "ck.pt" true w = Raise (RuntimeError mk uk sk) w' ∧
    "w" ∈ sk ∧
    (∃ em', ema_model (self w') = Some em' ∧ parameters em' !! "w" = Some q) ∧
    optimizer (self w') = (1%nat, 3%nat) ∧ start_epoch (self w') = 5 ∧
    trace w' = trace w ∧ fs w' = fs w.
Proof.
  intros w q. split; [reflexivity|]. split; [by cbn|].
  apply (load_ema_size_mismatch w "ck.pt" true Toy.checkpoint_resized
           {[ "w" := [2%Q] ]} (1%nat, 3%nat) 5 {[ "w" := [2%Q; 3%Q] ]}
           (requires_grad_ false (eval (deepcopy (Toy.net 1))))
           "w" q [2%Q; 3%Q]); try reflexivity.
  by cbn.
Defined.
